(** * SAQ: beam buffer, aligned memory and CAQ cluster estimators

    A shallow embedding of
      - saqlib/defines.hpp            (PID, Candidate, DistType, constants),
      - saqlib/utils/buffer.hpp       (SearchBuffer),
      - saqlib/utils/memory.hpp       (align_mm),
      - the CAQ estimator header      (CaqCluEstimator, CaqEstimatorSingleImpl,
                                       CaqCluEstimatorSingle),
    followed by the properties of these definitions.

    Conventions.
      - [float] of C++ is IEEE-754 binary32.  It is modelled by [spec_float]
        with precision 24 and maximal exponent 128; [double] by precision 53
        and exponent 1024.  Comparisons are the IEEE ones: every comparison
        with a NaN is false.
      - [PID] is [uint32_t]: a [Z] in [0, 2^32), bit operations on [Z].
      - [size_t] used as an index or an element count of a vector held in
        memory is a [nat]; [size_t] used as a running counter is a [Z] with
        its wrap-around modulo 2^64 written out.
      - [std::vector] is a [list].  Reading outside the vector is undefined
        behaviour in the source; the model reads a default there and every
        property is stated for states in which all accesses are in range. *)

From Stdlib Require Import String.
From Stdlib.Strings Require Import Byte.
From Stdlib Require Import ZArith List Bool Arith Lia SpecFloat.
From Equations Require Import Equations.
Import ListNotations.

(** ** IEEE-754 binary32 and binary64 *)

Module Float32.

Definition float : Type := spec_float.

Definition prec : Z := 24.
Definition emax : Z := 128.

Definition fadd (a b : float) : float := SFadd prec emax a b.
Definition fsub (a b : float) : float := SFsub prec emax a b.
Definition fmul (a b : float) : float := SFmul prec emax a b.
Definition fdiv (a b : float) : float := SFdiv prec emax a b.
Definition fsqrt (a : float) : float := SFsqrt prec emax a.

(** [a < b], [a > b], [a <= b] of C++ on floats. *)
Definition flt (a b : float) : bool := SFltb a b.
Definition fgt (a b : float) : bool := SFltb b a.
Definition fle (a b : float) : bool := SFleb a b.

Definition is_nan (a : float) : bool :=
  match a with S754_nan => true | _ => false end.

(** [+0.0f]. *)
Definition fzero : float := S754_zero false.

(** [std::numeric_limits<float>::max()], (2^24 - 1) * 2^104. *)
Definition FLT_MAX : float := SFmax_float prec emax.

(** A float literal [m * 2^e] ([m] an integer), rounded to binary32. *)
Definition of_Z2 (m e : Z) : float := binary_normalize prec emax m e false.

(** A small integer as a float. *)
Definition of_Z (m : Z) : float := of_Z2 m 0.

(** [std::max(a, b)] on floats: [(a < b) ? b : a]. *)
Definition std_max (a b : float) : float := if flt a b then b else a.

End Float32.

Module Float64.

Definition double : Type := spec_float.

Definition prec : Z := 53.
Definition emax : Z := 1024.

Definition dadd (a b : double) : double := SFadd prec emax a b.
Definition dsub (a b : double) : double := SFsub prec emax a b.
Definition dmul (a b : double) : double := SFmul prec emax a b.
Definition ddiv (a b : double) : double := SFdiv prec emax a b.

Definition of_Z (m : Z) : double := binary_normalize prec emax m 0 false.

(** Conversion float -> double is exact: every binary32 value is a binary64
    value with the same mantissa and exponent. *)
Definition of_float (a : Float32.float) : double := a.

(** Conversion double -> float rounds to nearest even. *)
Definition to_float (a : double) : Float32.float :=
  match a with
  | S754_finite s m e => binary_round Float32.prec Float32.emax s m e
  | _ => a
  end.

End Float64.

(** ** saqlib/defines.hpp *)

Module Defines.

Definition KMaxQuantizeBits : nat := 13.
Definition KFastScanSize : nat := 32.
Definition kDimPaddingSize : nat := 64.

(** [using PID = uint32_t]. *)
Definition PID : Type := Z.
Bind Scope Z_scope with PID.

Definition PID_wrap (x : Z) : PID := (x mod 2 ^ 32)%Z.

Inductive DistType : Type :=
| Any
| L2Sqr
| IP.

Definition DistType_eqb (a b : DistType) : bool :=
  match a, b with
  | Any, Any | L2Sqr, L2Sqr | IP, IP => true
  | _, _ => false
  end.

Record Candidate : Type := mkCandidate {
  id : PID;
  distance : Float32.float
}.

(** Value-initialised [Candidate()]: the defaulted constructor zero-fills. *)
Definition Candidate_zero : Candidate := mkCandidate 0%Z Float32.fzero.

(** [Candidate::operator<]. *)
Definition Candidate_lt (a b : Candidate) : bool :=
  Float32.flt (distance a) (distance b).

(** [Candidate::operator>], written [!( *this < other)] in the source. *)
Definition Candidate_gt (a b : Candidate) : bool :=
  negb (Candidate_lt a b).

End Defines.

(** ** saqlib/utils/buffer.hpp *)

Module Buffer.
Import Defines Float32.

(** [data_[i]] on the vector. *)
Definition at_ (data : list Candidate) (i : nat) : Candidate :=
  nth i data Candidate_zero.

(** [p[i] = x] on an array. *)
Fixpoint store {A : Type} (l : list A) (i : nat) (x : A) : list A :=
  match l, i with
  | [], _ => []
  | _ :: t, O => x :: t
  | h :: t, S i' => h :: store t i' x
  end.

(** [std::memmove(&l[dst], &l[src], n * sizeof(A))]: the [n] elements that
    start at [src] are copied, as if through a temporary, to [dst]. *)
Definition memmove {A : Type} (l : list A) (dst src n : nat) : list A :=
  firstn dst l ++ firstn n (skipn src l) ++ skipn (dst + n) l.

Record SearchBuffer : Type := mkSearchBuffer {
  data_ : list Candidate;
  size_ : nat;
  cur_ : nat;
  capacity_ : nat
}.

(** [explicit SearchBuffer(size_t capacity)]: [capacity + 1] value-initialised
    candidates, [size_ = 0], [cur_ = 0]. *)
Definition new (capacity : nat) : SearchBuffer :=
  mkSearchBuffer (repeat Candidate_zero (capacity + 1)) 0 0 capacity.

(** The [while (len > 1)] loop of [binary_search]. *)
Equations? binary_search_loop (data : list Candidate) (dist : float)
  (lo len : nat) : nat by wf len lt :=
binary_search_loop data dist lo len with le_lt_dec len 1 => {
  | left _ := lo ;
  | right _ :=
      binary_search_loop data dist
        (lo + Nat.b2n (flt (distance (at_ data (lo + Nat.shiftr len 1 - 1)))
                           dist)
              * Nat.shiftr len 1)
        (len - Nat.shiftr len 1) }.
Proof.
  assert (H : Nat.shiftr len 1 = len / 2)
    by (rewrite Nat.shiftr_div_pow2; reflexivity).
  change (Nat.div2 len) with (Nat.shiftr len 1).
  rewrite H.
  assert (0 < len / 2) by (apply Nat.div_str_pos; lia). lia.
Qed.

Definition binary_search (b : SearchBuffer) (dist : float) : nat :=
  let lo := binary_search_loop (data_ b) dist 0 (size_ b) in
  if (lo <? size_ b) && flt (distance (at_ (data_ b) lo)) dist
  then lo + 1 else lo.

(** [data_id |= (1 << 31)]. *)
Definition set_checked (data_id : PID) : PID :=
  Z.lor data_id (Z.shiftl 1 31).

(** [static_cast<bool>(data_id >> 31)]. *)
Definition is_checked (data_id : PID) : bool :=
  negb (Z.eqb (Z.shiftr data_id 31) 0%Z).

Definition is_full (b : SearchBuffer) : bool :=
  size_ b =? capacity_ b.

Definition top_dist (b : SearchBuffer) : float :=
  if is_full b then distance (at_ (data_ b) (size_ b - 1)) else FLT_MAX.

(** [is_full(float dist)]: [dist > top_dist()]. *)
Definition is_full_dist (b : SearchBuffer) (dist : float) : bool :=
  fgt dist (top_dist b).

Definition insert (b : SearchBuffer) (data_id : PID) (dist : float)
  : SearchBuffer :=
  if is_full_dist b dist then b
  else
    let lo := binary_search b dist in
    let moved := memmove (data_ b) (lo + 1) lo (size_ b - lo) in
    let stored := store moved lo (mkCandidate data_id dist) in
    mkSearchBuffer stored
                   (size_ b + Nat.b2n (size_ b <? capacity_ b))
                   (if lo <? cur_ b then lo else cur_ b)
                   (capacity_ b).

(** The loop [while (cur_ < size_ && is_checked(data_[cur_].id)) ++cur_;]. *)
Equations? skip_checked (data : list Candidate) (size cur : nat) : nat
  by wf (size - cur) lt :=
skip_checked data size cur
  with Sumbool.sumbool_of_bool
         ((cur <? size) && is_checked (id (at_ data cur))) => {
  | left _ := skip_checked data size (S cur) ;
  | right _ := cur }.
Proof.
  match goal with
  | H : _ && _ = true |- _ =>
      apply andb_prop in H; destruct H as [H _]; apply Nat.ltb_lt in H
  end.
  lia.
Qed.

(** [pop]: the returned id and the buffer afterwards. *)
Definition pop (b : SearchBuffer) : PID * SearchBuffer :=
  let cur_id := id (at_ (data_ b) (cur_ b)) in
  let marked :=
    store (data_ b) (cur_ b)
          (mkCandidate (set_checked cur_id)
                       (distance (at_ (data_ b) (cur_ b)))) in
  (cur_id,
   mkSearchBuffer marked (size_ b)
                  (skip_checked marked (size_ b) (cur_ b + 1))
                  (capacity_ b)).

Definition clear (b : SearchBuffer) : SearchBuffer :=
  mkSearchBuffer (data_ b) 0 0 (capacity_ b).

Definition next_id (b : SearchBuffer) : PID :=
  id (at_ (data_ b) (cur_ b)).

Definition has_next (b : SearchBuffer) : bool :=
  cur_ b <? size_ b.

Definition resize (b : SearchBuffer) (new_size : nat) : SearchBuffer :=
  mkSearchBuffer (repeat Candidate_zero (new_size + 1))
                 (size_ b) (cur_ b) new_size.

(** [copy_results(knn)]: [for (i = 0; i < size_; ++i) knn[i] = data_[i].id]. *)
Definition copy_results (b : SearchBuffer) (knn : list PID) : list PID :=
  fold_left (fun out i => store out i (id (at_ (data_ b) i)))
            (seq 0 (size_ b)) knn.

End Buffer.

(** ** saqlib/utils/memory.hpp *)

Module Memory.

(** Modelled from the spec: [utils::rd_up_to_multiple_of] is declared in
    utils/tools.hpp, which is not among the sources; it rounds its first
    argument up to the next multiple of the second, as its name and its use
    for the byte count of an aligned allocation say. *)
Definition rd_up_to_multiple_of (x m : nat) : nat :=
  (x + m - 1) / m * m.

(** [std::memset(p, c, n)]: the first [n] bytes of the block become [c]. *)
Definition memset (p : list byte) (c : byte) (n : nat) : list byte :=
  repeat c n ++ skipn n p.

(** [madvise(p, nbytes, MADV_HUGEPAGE)] is advice to the kernel; the bytes of
    the block are untouched. *)
Definition madvise (p : list byte) (nbytes : nat) : list byte := p.

Section AlignMM.

(** [std::aligned_alloc(alignment, nbytes)]: [None] is the null pointer,
    [Some bytes] a fresh block with whatever contents the allocator left in
    it. *)
Variable aligned_alloc : nat -> nat -> option (list byte).

(** [align_mm<alignment, T, HUGE_PAGE>(size)], with [sizeof_T = sizeof(T)].
    The result is the block behind the returned pointer; [None] stands for the
    null pointer, on which the source runs [memset] (undefined behaviour). *)
Definition align_mm (alignment sizeof_T : nat) (HUGE_PAGE : bool) (size : nat)
  : option (list byte) :=
  let nbytes := rd_up_to_multiple_of (size * sizeof_T) alignment in
  match aligned_alloc alignment nbytes with
  | None => None
  | Some p =>
      let p := if HUGE_PAGE then madvise p nbytes else p in
      Some (memset p x00 size)
  end.

End AlignMM.

(** An allocator that hands out blocks filled with [0xff], as a block
    recycled from the free list may be. *)
Definition dirty_alloc (alignment nbytes : nat) : option (list byte) :=
  Some (repeat xff nbytes).

End Memory.

(** ** Dense vectors and AVX-512 lanes *)

Module Eigen.
Import Float32.

(** [FloatVec]: a row vector of floats. *)
Definition FloatVec : Type := list float.

(** Modelled from the spec: the dense linear algebra of third/Eigen is not
    among the sources (the spec leaves the numeric library to the host).
    Element-wise operations are exact IEEE operations per coefficient;
    reductions are taken from left to right, starting from [+0]. *)
Fixpoint vsub (a b : FloatVec) : FloatVec :=
  match a, b with
  | x :: a', y :: b' => fsub x y :: vsub a' b'
  | _, _ => []
  end.

Definition sum (a : FloatVec) : float :=
  fold_left fadd a fzero.

Fixpoint vmul (a b : FloatVec) : FloatVec :=
  match a, b with
  | x :: a', y :: b' => fmul x y :: vmul a' b'
  | _, _ => []
  end.

Definition dot (a b : FloatVec) : float := sum (vmul a b).

Definition squaredNorm (a : FloatVec) : float := dot a a.

Definition minCoeff (a : FloatVec) : float :=
  match a with
  | [] => fzero
  | x :: a' => fold_left (fun m y => if flt y m then y else m) a' x
  end.

Definition maxCoeff (a : FloatVec) : float :=
  match a with
  | [] => fzero
  | x :: a' => fold_left (fun m y => if flt m y then y else m) a' x
  end.

(** [q * P] for a row vector [q] and a matrix [P] given by its columns. *)
Definition vec_mat (q : FloatVec) (P_cols : list FloatVec) : FloatVec :=
  map (dot q) P_cols.

End Eigen.

Module Simd.
Import Float32.

(** [__m512] holding 16 floats. *)
Definition m512 : Type := list float.

Definition mm512_set1_ps (x : float) : m512 := repeat x 16.
Definition mm512_setzero_ps : m512 := repeat fzero 16.

(** [_mm512_load_ps(p + off)] / [_mm512_loadu_ps(p + off)]. *)
Definition mm512_load_ps (p : list float) (off : nat) : m512 :=
  firstn 16 (skipn off p).

Fixpoint lanes (f : float -> float -> float) (a b : m512) : m512 :=
  match a, b with
  | x :: a', y :: b' => f x y :: lanes f a' b'
  | _, _ => []
  end.

Definition mm512_add_ps : m512 -> m512 -> m512 := lanes fadd.
Definition mm512_sub_ps : m512 -> m512 -> m512 := lanes fsub.
Definition mm512_mul_ps : m512 -> m512 -> m512 := lanes fmul.

(** [_mm512_max_ps(a, b)]: per lane [a > b ? a : b] (the second operand
    when the lanes are unordered or equal). *)
Definition mm512_max_ps : m512 -> m512 -> m512 :=
  lanes (fun x y => if fgt x y then x else y).

End Simd.

(** ** quantization: the data the estimators consume *)

Module Quantization.
Import Float32 Defines Eigen Simd.

(** [size_t] arithmetic on counters. *)
Definition size_t_wrap (x : Z) : Z := (x mod 2 ^ 64)%Z.

(** [uint8_t] conversion. *)
Definition uint8_wrap (x : Z) : Z := (x mod 2 ^ 8)%Z.

(** Modelled from the spec: [SearcherConfig] is declared in
    quantization/config.h, which is not among the sources; these are the
    fields the estimators read. *)
Record SearcherConfig : Type := mkSearcherConfig {
  dist_type : DistType;
  searcher_vars_bound_m : float
}.

(** Modelled from the spec: the configuration of the quantized data, read as
    [data.cfg.use_fastscan]. *)
Record QuantizerConfig : Type := mkQuantizerConfig {
  use_fastscan : bool
}.

(** Modelled from the spec: [BaseQuantizerData] (quantization/quantizer_data.hpp
    is not among the sources).  [rotator] is the matrix [rotator->get_P()],
    given by its columns, or [None] for a null rotator. *)
Record BaseQuantizerData : Type := mkBaseQuantizerData {
  num_dim_pad : Z;
  num_bits : Z;
  cfg : QuantizerConfig;
  rotator : option (list FloatVec)
}.

Record ExFactor : Type := mkExFactor {
  rescale : float
}.

(** Modelled from the spec: the read-only accessors of [CAQClusterData]
    (quantization/cluster_data.hpp is not among the sources).  Codes are
    sequences of bytes. *)
Record CAQClusterData : Type := mkCAQClusterData {
  centroid : FloatVec;
  factor_o_l2norm : nat -> list float;
  short_code : nat -> list Z;
  short_code_single : nat -> list Z;
  long_code : nat -> list Z;
  long_factor : nat -> ExFactor
}.

(** What a dangling [curr_cluster_] is read as; the source dereferences the
    pointer only after [prepare] has set it. *)
Definition no_cluster : CAQClusterData :=
  mkCAQClusterData [] (fun _ => []) (fun _ => []) (fun _ => []) (fun _ => [])
                   (fun _ => mkExFactor fzero).

Definition deref (p : option CAQClusterData) : CAQClusterData :=
  match p with
  | Some c => c
  | None => no_cluster
  end.

(** The numeric kernels of quantization/fastscan/lut.hpp and utils/tools.hpp.
    Neither file is among the sources and the spec gives their contract only,
    so they are parameters of the development. *)
Record Kernels : Type := mkKernels {
  (* the 32 fast-scan inner products of a block: query, norms, short codes *)
  fastscan_ip : FloatVec -> list float -> list Z -> m512 * m512;
  (* extended-bit inner product: query, block state, long code, delta, j *)
  ext_ip : FloatVec -> option (list float * list Z) -> list Z ->
           Float64.double -> nat -> float;
  (* utils::get_IP_FUNC(ex_bits) applied to (query, long code, dim) *)
  IP_FUNC : Z -> FloatVec -> list Z -> Z -> float;
  (* utils::new_transpose_bin(query_sq, dim, bits): the packed bit planes *)
  new_transpose_bin : list Z -> Z -> Z -> list Z
}.

(** Modelled from the spec: [Lut] (quantization/fastscan/lut.hpp is not among
    the sources).  The spec says: [Lut(D, ex_bits)] reserves storage;
    [prepare(q)] stores [q_l2sqr = q . q] and fills the tables from [q];
    [compFastIP] evaluates the 32 inner products of a block, writes them to
    [out] when [out] is not null and keeps per-block state; [getExtIP] reads
    that state. *)
Record Lut : Type := mkLut {
  lut_num_dim : Z;
  lut_ex_bits : Z;
  lut_query : FloatVec;
  lut_q_l2sqr : float;
  lut_block : option (list float * list Z)
}.

Definition Lut_new (num_dim ex_bits : Z) : Lut :=
  mkLut num_dim ex_bits [] fzero None.

Definition Lut_prepare (l : Lut) (q : FloatVec) : Lut :=
  mkLut (lut_num_dim l) (lut_ex_bits l) q (dot q q) None.

Definition Lut_getQL2Sqr (l : Lut) : float := lut_q_l2sqr l.

(** [compFastIP(o_l2norm, short_code, out)]: the table afterwards and the two
    vectors it computes, which it writes to [out] when [out] is not null. *)
Definition Lut_compFastIP (K : Kernels) (l : Lut) (o_l2norm : list float)
  (code : list Z) : Lut * (m512 * m512) :=
  (mkLut (lut_num_dim l) (lut_ex_bits l) (lut_query l) (lut_q_l2sqr l)
         (Some (o_l2norm, code)),
   fastscan_ip K (lut_query l) o_l2norm code).

Definition Lut_getExtIP (K : Kernels) (l : Lut) (code : list Z)
  (sq_delta : Float64.double) (j : nat) : float :=
  ext_ip K (lut_query l) (lut_block l) code sq_delta j.

(** Kernels that return zeros, to run the estimators on concrete data. *)
Definition zero_kernels : Kernels :=
  mkKernels (fun _ _ _ => (mm512_setzero_ps, mm512_setzero_ps))
            (fun _ _ _ _ _ => fzero)
            (fun _ _ _ _ => fzero)
            (fun _ _ _ => []).

End Quantization.

(** ** quantization/caq: the estimators *)

Module Estimator.
Import Float32 Defines Eigen Simd Quantization.

Record QueryRuntimeMetrics : Type := mkQueryRuntimeMetrics {
  fast_bitsum : Z;
  acc_bitsum : Z;
  total_comp_cnt : Z
}.

(** How a call ends: it returns, or it throws [std::runtime_error(what)]. *)
Inductive outcome : Type :=
| Returned
| Thrown (what : string).

(** [kDistType == DistType::IP ||
     (kDistType == DistType::Any && cfg_.dist_type == DistType::IP)]. *)
Definition isIpDist_of (kDistType : DistType) (c : SearcherConfig) : bool :=
  DistType_eqb kDistType IP
  || (DistType_eqb kDistType Any && DistType_eqb (dist_type c) IP).

End Estimator.

(** *** [template <DistType kDistType> class CaqCluEstimator] *)

Module CaqCluEstimator.
Import Float32 Defines Eigen Simd Quantization Estimator.

Record t : Type := mk {
  kDistType : DistType;                 (* the template argument *)
  num_dim_padded_ : Z;
  num_bits_ : Z;
  ex_bits_ : Z;
  cfg_ : SearcherConfig;
  query_data_ : FloatVec;
  without_ip_prune_bound_ : float;
  sq_delta_ : Float64.double;
  ip_q_c_ : float;
  q_l2sqr_ : float;
  lut_ : Lut;
  curr_cluster_ : option CAQClusterData;
  runtime_statics_ : QueryRuntimeMetrics
}.

Definition isIpDist (e : t) : bool := isIpDist_of (kDistType e) (cfg_ e).

(** The constructor.  A failed [CHECK] ends the process with its message. *)
Definition new (kDist : DistType) (data : BaseQuantizerData)
  (c : SearcherConfig) (query : FloatVec) : string + t :=
  let num_bits := uint8_wrap (num_bits data) in
  let ex_bits := uint8_wrap (if Z.eqb num_bits 0 then 0 else num_bits - 1) in
  if negb (DistType_eqb kDist Any || DistType_eqb kDist (dist_type c))
  then inl "distance type mismatch"%string
  else if negb (use_fastscan (cfg data))
  then inl ("CaqEstimator require fastscan enabled. "
            ++ "Please use CaqSingleEstimator instead.")%string
  else
    inr (mk kDist (num_dim_pad data) num_bits ex_bits c
            (match rotator data with
             | Some P => vec_mat query P
             | None => query
             end)
            fzero
            (Float64.ddiv (Float64.of_Z 2) (Float64.of_Z (Z.shiftl 1 num_bits)))
            fzero fzero
            (Lut_new (num_dim_pad data) ex_bits)
            None
            (mkQueryRuntimeMetrics 0 0 0)).

Definition with_prune_bound (e : t) (b : float) : t :=
  mk (kDistType e) (num_dim_padded_ e) (num_bits_ e) (ex_bits_ e) (cfg_ e)
     (query_data_ e) b (sq_delta_ e) (ip_q_c_ e) (q_l2sqr_ e) (lut_ e)
     (curr_cluster_ e) (runtime_statics_ e).

Definition setPruneBound (e : t) (vars : float) : t :=
  with_prune_bound e (fmul vars (searcher_vars_bound_m (cfg_ e))).

Definition getRuntimeMetrics (e : t) : QueryRuntimeMetrics :=
  runtime_statics_ e.

Definition prepare (e : t) (cur_cluster : CAQClusterData) : t :=
  let c := centroid cur_cluster in
  if isIpDist e then
    let lut := Lut_prepare (lut_ e) (query_data_ e) in
    mk (kDistType e) (num_dim_padded_ e) (num_bits_ e) (ex_bits_ e) (cfg_ e)
       (query_data_ e) (without_ip_prune_bound_ e) (sq_delta_ e)
       (dot (query_data_ e) c) (Lut_getQL2Sqr lut) lut
       (Some cur_cluster) (runtime_statics_ e)
  else
    let lut := Lut_prepare (lut_ e) (vsub (query_data_ e) c) in
    mk (kDistType e) (num_dim_padded_ e) (num_bits_ e) (ex_bits_ e) (cfg_ e)
       (query_data_ e) (without_ip_prune_bound_ e) (sq_delta_ e)
       (ip_q_c_ e) (Lut_getQL2Sqr lut) lut
       (Some cur_cluster) (runtime_statics_ e).

(** [varsEstDist(block_idx, fst_distances)]: the contents of the output
    array afterwards ([None] is the null pointer). *)
Definition varsEstDist (e : t) (block_idx : nat)
  (fst_distances : option (m512 * m512)) : option (m512 * m512) :=
  match fst_distances with
  | None => None
  | Some _ =>
      if isIpDist e then
        let factor_vec :=
          mm512_set1_ps (fsub (ip_q_c_ e) (without_ip_prune_bound_ e)) in
        Some (factor_vec, factor_vec)
      else
        let factor_x := factor_o_l2norm (deref (curr_cluster_ e)) block_idx in
        let factor_vec :=
          mm512_set1_ps
            (fsub (q_l2sqr_ e) (fmul (of_Z 2) (without_ip_prune_bound_ e))) in
        let zero_vec := mm512_setzero_ps in
        let est (j : nat) : m512 :=
          let factor_x_vec := mm512_load_ps factor_x j in
          let squared_vec := mm512_mul_ps factor_x_vec factor_x_vec in
          mm512_max_ps zero_vec (mm512_add_ps squared_vec factor_vec) in
        Some (est 0, est 16)
  end.

Definition with_lut (e : t) (l : Lut) : t :=
  mk (kDistType e) (num_dim_padded_ e) (num_bits_ e) (ex_bits_ e) (cfg_ e)
     (query_data_ e) (without_ip_prune_bound_ e) (sq_delta_ e) (ip_q_c_ e)
     (q_l2sqr_ e) l (curr_cluster_ e) (runtime_statics_ e).

Definition with_metrics (e : t) (m : QueryRuntimeMetrics) : t :=
  mk (kDistType e) (num_dim_padded_ e) (num_bits_ e) (ex_bits_ e) (cfg_ e)
     (query_data_ e) (without_ip_prune_bound_ e) (sq_delta_ e) (ip_q_c_ e)
     (q_l2sqr_ e) (lut_ e) (curr_cluster_ e) m.

Section WithKernels.
Variable K : Kernels.

(** [compFastDist(block_idx, fst_distances)]: the estimator and the contents
    of the output array afterwards. *)
Definition compFastDist (e : t) (block_idx : nat)
  (fst_distances : option (m512 * m512)) : t * option (m512 * m512) :=
  if Z.eqb (num_bits_ e) 0 then (e, varsEstDist e block_idx fst_distances)
  else
    let o_l2norm := factor_o_l2norm (deref (curr_cluster_ e)) block_idx in
    let '(lut, (d0, d1)) :=
      Lut_compFastIP K (lut_ e) o_l2norm
                     (short_code (deref (curr_cluster_ e)) block_idx) in
    let e1 := with_lut e lut in
    match fst_distances with
    | None => (e1, None)
    | Some _ =>
        let out' :=
          if isIpDist e then
            let simd_qc_ip := mm512_set1_ps (ip_q_c_ e) in
            let naghalf_c := mm512_set1_ps (of_Z2 1 (-1)) in
            (mm512_add_ps (mm512_mul_ps d0 naghalf_c) simd_qc_ip,
             mm512_add_ps (mm512_mul_ps d1 naghalf_c) simd_qc_ip)
          else
            let simd_q2c_dist2 := mm512_set1_ps (q_l2sqr_ e) in
            let simd_x0 := mm512_load_ps o_l2norm 0 in
            let simd_x1 := mm512_load_ps o_l2norm 16 in
            let r0 := mm512_add_ps (mm512_mul_ps simd_x0 simd_x0)
                                   (mm512_sub_ps simd_q2c_dist2 d0) in
            let r1 := mm512_add_ps (mm512_mul_ps simd_x1 simd_x1)
                                   (mm512_sub_ps simd_q2c_dist2 d1) in
            (mm512_max_ps mm512_setzero_ps r0,
             mm512_max_ps mm512_setzero_ps r1) in
        let m := runtime_statics_ e1 in
        (with_metrics e1
           (mkQueryRuntimeMetrics
              (size_t_wrap (fast_bitsum m
                            + size_t_wrap (Z.of_nat KFastScanSize
                                           * num_dim_padded_ e1)))
              (acc_bitsum m) (total_comp_cnt m)),
         Some out')
    end.

(** [compAccurateDist(vec_idx)]: the distance and the estimator afterwards. *)
Definition compAccurateDist (e : t) (vec_idx : nat) : float * t :=
  let blk_idx := vec_idx / KFastScanSize in
  let j := vec_idx mod KFastScanSize in
  let o_l2norm :=
    nth j (factor_o_l2norm (deref (curr_cluster_ e)) blk_idx) fzero in
  let o_l2sqr := fmul o_l2norm o_l2norm in
  if Z.eqb (num_bits_ e) 0 then
    if isIpDist e then (ip_q_c_ e, e)
    else (fadd o_l2sqr (q_l2sqr_ e), e)
  else
    let code := long_code (deref (curr_cluster_ e)) vec_idx in
    let ex_fac := long_factor (deref (curr_cluster_ e)) vec_idx in
    let ip_o_q :=
      fmul (rescale ex_fac) (Lut_getExtIP K (lut_ e) code (sq_delta_ e) j) in
    let m := runtime_statics_ e in
    let e1 :=
      with_metrics e
        (mkQueryRuntimeMetrics
           (fast_bitsum m)
           (size_t_wrap (acc_bitsum m
                         + size_t_wrap (num_dim_padded_ e
                                        * size_t_wrap (num_bits_ e - 1))))
           (total_comp_cnt m)) in
    if DistType_eqb (dist_type (cfg_ e)) IP then
      (fadd ip_o_q (ip_q_c_ e), e1)
    else
      (fsub (fadd o_l2sqr (q_l2sqr_ e)) (fmul (of_Z 2) ip_o_q), e1).

End WithKernels.

End CaqCluEstimator.

(** *** [template <DistType kDistType> class CaqEstimatorSingleImpl] *)

Module CaqEstimatorSingleImpl.
Import Float32 Defines Eigen Simd Quantization Estimator.

Definition kNumBits : Z := 8.

Record t : Type := mk {
  kDistType : DistType;                 (* the template argument *)
  num_dim_padded_ : Z;
  num_bits_ : Z;
  ex_bits_ : Z;
  one_over_sqrtD_ : float;
  cfg_ : SearcherConfig;
  caq_delta_ : Float64.double;
  curr_query_ : FloatVec;
  query_sq_ : list Z;
  query_bin_ : list Z;
  q_delta_ : float;
  q_vl_ : float;
  q_vr_ : float;
  ip_q_c_ : float;
  delta_ : float;
  sum_q_ : float;
  q_l2sqr_ : float;
  q_l2norm_ : float;
  without_ip_prune_bound_ : float;
  runtime_statics_ : QueryRuntimeMetrics
}.

Definition isIpDist (e : t) : bool := isIpDist_of (kDistType e) (cfg_ e).

(** [static_cast<uint16_t>] of a float: the value truncated towards zero.
    Values outside [0, 2^16) are undefined in the source and wrap here. *)
Definition cast_uint16 (x : float) : Z :=
  match x with
  | S754_finite s m e =>
      let mag := if (0 <=? e)%Z then (Zpos m * 2 ^ e)%Z
                 else (Zpos m / 2 ^ (- e))%Z in
      ((if s then - mag else mag) mod 2 ^ 16)%Z
  | _ => 0%Z
  end.

(** The constructor.  [q_delta_], [q_vl_], [q_vr_] and [q_l2sqr_] have no
    initialiser in the source; they are read only after [prepare] has set
    them and start at [+0] here. *)
Definition new (kDist : DistType) (data : BaseQuantizerData)
  (c : SearcherConfig) : string + t :=
  let num_bits := uint8_wrap (num_bits data) in
  let ex_bits := uint8_wrap (if Z.eqb num_bits 0 then 0 else num_bits - 1) in
  if negb (DistType_eqb kDist Any || DistType_eqb kDist (dist_type c))
  then inl "distance type mismatch"%string
  else if use_fastscan (cfg data)
  then inl ("CaqSingleEstimator require fastscan disabled. "
            ++ "Please use CaqEstimator instead.")%string
  else
    inr (mk kDist (num_dim_pad data) num_bits ex_bits
            (Float64.to_float
               (Float64.ddiv (Float64.of_Z 1)
                  (Float64.of_float (fsqrt (of_Z (num_dim_pad data))))))
            c
            (Float64.ddiv (Float64.of_Z 2) (Float64.of_Z (Z.shiftl 1 num_bits)))
            [] [] []
            fzero fzero fzero fzero fzero fzero fzero fzero fzero
            (mkQueryRuntimeMetrics 0 0 0)).

Section WithKernels.
Variable K : Kernels.

(** [prepare(FloatVec query)]. *)
Definition prepare (e : t) (query : FloatVec) : t :=
  let q_l2sqr := squaredNorm query in
  let q_l2norm := fsqrt q_l2sqr in
  let sum_q := sum query in
  let q_vl := minCoeff query in
  let q_vr := maxCoeff query in
  let delta :=
    Float64.to_float
      (Float64.ddiv
         (Float64.of_float (fsub q_vr q_vl))
         (Float64.dsub (Float64.of_Z (Z.shiftl 1 kNumBits))
                       (Float64.ddiv (Float64.of_Z 1) (Float64.of_Z 100)))) in
  let query_sq :=
    map (fun x => cast_uint16 (fdiv (fsub x q_vl) delta)) query in
  let query_bin := new_transpose_bin K query_sq (num_dim_padded_ e) kNumBits in
  mk (kDistType e) (num_dim_padded_ e) (num_bits_ e) (ex_bits_ e)
     (one_over_sqrtD_ e) (cfg_ e) (caq_delta_ e)
     query query_sq query_bin
     (q_delta_ e) q_vl q_vr (ip_q_c_ e) delta sum_q q_l2sqr q_l2norm
     (without_ip_prune_bound_ e) (runtime_statics_ e).

End WithKernels.

End CaqEstimatorSingleImpl.

(** *** [template <DistType kDistType> class CaqCluEstimatorSingle] *)

Module CaqCluEstimatorSingle.
Import Float32 Defines Eigen Simd Quantization Estimator.

Record t : Type := mk {
  Impl : CaqEstimatorSingleImpl.t;      (* the base class sub-object *)
  query_data_ : FloatVec;
  curr_cluster_ : option CAQClusterData
}.

Definition isIpDist (e : t) : bool := CaqEstimatorSingleImpl.isIpDist (Impl e).

Definition new (kDist : DistType) (data : BaseQuantizerData)
  (c : SearcherConfig) (query : FloatVec) : string + t :=
  match CaqEstimatorSingleImpl.new kDist data c with
  | inl msg => inl msg
  | inr impl =>
      inr (mk impl
              (match rotator data with
               | Some P => vec_mat query P
               | None => query
               end)
              None)
  end.

Section WithKernels.
Variable K : Kernels.

(** [prepare(cur_cluster)]: the estimator afterwards and how the call ends.
    The statement after the [throw] is never reached. *)
Definition prepare (e : t) (cur_cluster : CAQClusterData) : t * outcome :=
  let e1 := mk (Impl e) (query_data_ e) (Some cur_cluster) in
  let c := centroid cur_cluster in
  if negb (isIpDist e1) then
    (mk (CaqEstimatorSingleImpl.prepare K (Impl e1) (vsub (query_data_ e1) c))
        (query_data_ e1) (curr_cluster_ e1),
     Returned)
  else
    (e1, Thrown "not implemented yet").

End WithKernels.

End CaqCluEstimatorSingle.

(** ** Calls on a beam buffer, and the states they reach *)

Module BufferSpec.
Import Defines Float32 Buffer.

Inductive op : Type :=
| Insert (data_id : PID) (dist : float)
| Pop
| Clear.

(** Runs the calls from left to right.  [pop] has the precondition
    [has_next()]: a call that violates it ends the run with [None]. *)
Fixpoint run (b : SearchBuffer) (ops : list op) : option SearchBuffer :=
  match ops with
  | [] => Some b
  | Insert data_id dist :: rest => run (insert b data_id dist) rest
  | Pop :: rest => if has_next b then run (snd (pop b)) rest else None
  | Clear :: rest => run (clear b) rest
  end.

Definition dist_at (b : SearchBuffer) (i : nat) : float :=
  distance (at_ (data_ b) i).

Definition id_at (b : SearchBuffer) (i : nat) : PID :=
  id (at_ (data_ b) i).

(** Entries [0, size) are non-decreasing by distance. *)
Definition sorted_by_distance (b : SearchBuffer) : Prop :=
  forall i j, i < j -> j < size_ b -> fle (dist_at b i) (dist_at b j) = true.

(** A [PID] whose high (checked) bit is clear. *)
Definition high_bit_clear (x : PID) : Prop := (0 <= x < 2 ^ 31)%Z.

(** The high bit of a 32-bit id. *)
Definition high_bit (x : PID) : bool := Z.testbit x 31.

(** Every id passed to [insert] has its high bit clear. *)
Definition ids_clear (ops : list op) : Prop :=
  Forall (fun o => match o with
                   | Insert data_id _ => high_bit_clear data_id
                   | _ => True
                   end) ops.

(** Every distance passed to [insert] is a number (not a NaN). *)
Definition numeric (ops : list op) : Prop :=
  Forall (fun o => match o with
                   | Insert _ dist => is_nan dist = false
                   | _ => True
                   end) ops.

(** The layout every call keeps: [capacity_ + 1] slots, [cur_ <= size_ <=
    capacity_]. *)
Definition well_formed (C : nat) (b : SearchBuffer) : Prop :=
  capacity_ b = C /\ length (data_ b) = C + 1 /\
  size_ b <= C /\ cur_ b <= size_ b.

Definition numeric_entries (b : SearchBuffer) : Prop :=
  forall i, i < size_ b -> is_nan (dist_at b i) = false.

(** The cursor stands on the first unchecked entry, and stored ids fit 32
    bits. *)
Definition cursor_inv (b : SearchBuffer) : Prop :=
  (forall i, i < cur_ b -> is_checked (id_at b i) = true) /\
  (cur_ b < size_ b -> is_checked (id_at b (cur_ b)) = false) /\
  (forall i, i < size_ b -> (0 <= id_at b i < 2 ^ 32)%Z).

(** What [pop] promises on [b]. *)
Definition pop_returns_min_unchecked (b : SearchBuffer) : Prop :=
  let r := fst (pop b) in
  let b' := snd (pop b) in
  (* the returned id belongs to an unchecked entry ... *)
  r = id_at b (cur_ b) /\ is_checked (id_at b (cur_ b)) = false /\
  (* ... whose distance is the smallest among the unchecked entries; *)
  (forall j, j < size_ b -> is_checked (id_at b j) = false ->
             fle (dist_at b (cur_ b)) (dist_at b j) = true) /\
  (* the checked bit is clear in the returned value; *)
  high_bit r = false /\
  (* it is what next_id() returned before the call; *)
  r = next_id b /\
  (* afterwards the popped entry is marked checked ... *)
  high_bit (id_at b' (cur_ b)) = true /\
  is_checked (id_at b' (cur_ b)) = true /\
  (* ... and cur has moved past every checked entry. *)
  cur_ b < cur_ b' /\ cur_ b' <= size_ b' /\
  (forall i, i < cur_ b' -> is_checked (id_at b' i) = true) /\
  (has_next b' = true -> is_checked (id_at b' (cur_ b')) = false).

End BufferSpec.

(** ** Zero vectors, and concrete data to run the estimators on *)

Module EstimatorSpec.
Import Float32 Defines Eigen Simd Quantization Estimator.

(** A vector all of whose coefficients are zero ([+0] or [-0]). *)
Definition zero_vec (v : FloatVec) : Prop :=
  Forall (fun c => exists s, c = S754_zero s) v.

(** Quantizer data of padded dimension 64 with [bits] bits, laid out for
    fast scan or not, without rotator. *)
Definition data64 (bits : Z) (fastscan : bool) : BaseQuantizerData :=
  mkBaseQuantizerData 64 bits (mkQuantizerConfig fastscan) None.

Definition cfg_of (dt : DistType) : SearcherConfig :=
  mkSearcherConfig dt (of_Z 1).

(** The zero query of dimension 64. *)
Definition query0 : FloatVec := repeat fzero 64.

(** A cluster whose centroid is the first unit vector and whose vectors all
    have centroid-relative norm 2. *)
Definition cluster_e1 : CAQClusterData :=
  mkCAQClusterData (of_Z 1 :: repeat fzero 63)
                   (fun _ => repeat (of_Z 2) 32)
                   (fun _ => []) (fun _ => []) (fun _ => [])
                   (fun _ => mkExFactor (of_Z 1)).

(** The same cluster around the origin. *)
Definition cluster_0 : CAQClusterData :=
  mkCAQClusterData (repeat fzero 64)
                   (fun _ => repeat (of_Z 2) 32)
                   (fun _ => []) (fun _ => []) (fun _ => [])
                   (fun _ => mkExFactor (of_Z 1)).

End EstimatorSpec.

(** ** Using the beam buffer: what a search loop observes *)

Module BufferUse.
Import Defines Float32 Buffer BufferSpec.

(** The run contains no [clear()]. *)
Definition no_clear (ops : list op) : Prop :=
  Forall (fun o => match o with Clear => False | _ => True end) ops.

(** The run consists of [insert] calls only. *)
Definition inserts_only (ops : list op) : Prop :=
  Forall (fun o => match o with Insert _ _ => True | _ => False end) ops.

(** No distance passed to [insert] is above [FLT_MAX]. *)
Definition finite_or_nan (ops : list op) : Prop :=
  Forall (fun o => match o with
                   | Insert _ dist => fgt dist FLT_MAX = false
                   | _ => True
                   end) ops.

(** The candidate [(data_id, dist)] sits in [b], checked or not. *)
Definition holds (b : SearchBuffer) (data_id : PID) (dist : float) : Prop :=
  exists k, k < size_ b /\ dist_at b k = dist /\
            (id_at b k = data_id \/ id_at b k = set_checked data_id).

(** [k] calls of [pop()] in a row: the ids returned, in order, and the buffer
    afterwards; [None] when one of the calls finds [has_next()] false. *)
Fixpoint pop_many (k : nat) (b : SearchBuffer)
  : option (list PID * SearchBuffer) :=
  match k with
  | O => Some ([], b)
  | S k' =>
      if has_next b then
        match pop_many k' (snd (pop b)) with
        | Some (ids, b') => Some (fst (pop b) :: ids, b')
        | None => None
        end
      else None
  end.

(** The indices of the unchecked entries, in increasing order. *)
Definition unchecked_indices (b : SearchBuffer) : list nat :=
  filter (fun i => negb (is_checked (id_at b i))) (seq 0 (size_ b)).

(** Two buffers a caller cannot tell apart: same capacity, size and cursor,
    same entries in [0, size). *)
Definition same_view (b1 b2 : SearchBuffer) : Prop :=
  capacity_ b1 = capacity_ b2 /\ size_ b1 = size_ b2 /\ cur_ b1 = cur_ b2 /\
  forall k, k < size_ b1 -> at_ (data_ b1) k = at_ (data_ b2) k.

(** What the calls of a run return: the id for each [pop()]. *)
Fixpoint popped (b : SearchBuffer) (ops : list op) : list PID :=
  match ops with
  | [] => []
  | Insert data_id dist :: rest => popped (insert b data_id dist) rest
  | Pop :: rest =>
      if has_next b then fst (pop b) :: popped (snd (pop b)) rest else []
  | Clear :: rest => popped (clear b) rest
  end.

(** A state whose entries are numbers in non-decreasing order, none above
    [FLT_MAX]. *)
Definition ordered_state (C : nat) (b : SearchBuffer) : Prop :=
  well_formed C b /\ sorted_by_distance b /\ numeric_entries b /\
  forall k, k < size_ b -> fgt (dist_at b k) FLT_MAX = false.

(** The candidate is in [b], or [b] has no room for it: every entry of [b] is
    at least as near, and [b] is full or the distance is above [FLT_MAX]. *)
Definition kept (C : nat) (b : SearchBuffer) (data_id : PID) (dist : float)
  : Prop :=
  holds b data_id dist \/
  ((forall k, k < size_ b -> fle (dist_at b k) dist = true) /\
   (size_ b = C \/ fgt dist FLT_MAX = true)).

End BufferUse.

(** ** saqlib/utils/memory.hpp: prefetch ladders and [make_unique_array] *)

Module MemoryMore.
Import Memory.

(** A prefetch hint: the cache level asked for and the address. *)
Inductive hint : Type :=
| T0 (addr : Z)    (* prefetch_l1: _MM_HINT_T0 *)
| T1 (addr : Z).   (* prefetch_l2: _MM_HINT_T1 *)

Definition prefetch_l1 (addr : Z) : hint := T0 addr.
Definition prefetch_l2 (addr : Z) : hint := T1 addr.

(** The body of the [switch] from [case k] down to [case 0]: each case
    issues one hint, advances [ptr] by 64 and falls through. *)
Fixpoint ladder (prefetch : Z -> hint) (k : nat) (ptr : Z) : list hint :=
  match k with
  | O => []
  | S k' => prefetch ptr :: ladder prefetch k' (ptr + 64)%Z
  end.

(** [switch (num_lines)]: the labels are 0 .. 20, [default] falls through to
    [case 20]. *)
Definition switch_label (num_lines : nat) : nat :=
  if num_lines <=? 20 then num_lines else 20.

(** [mem_prefetch_l1(ptr, num_lines)]: the hints issued, in order. *)
Definition mem_prefetch_l1 (ptr : Z) (num_lines : nat) : list hint :=
  ladder prefetch_l1 (switch_label num_lines) ptr.

Definition mem_prefetch_l2 (ptr : Z) (num_lines : nat) : list hint :=
  ladder prefetch_l2 (switch_label num_lines) ptr.

Definition hint_addr (h : hint) : Z :=
  match h with T0 a | T1 a => a end.



Section MakeUniqueArray.

(** [std::malloc(nbytes)] and [std::aligned_alloc(alignment, nbytes)]:
    [None] is the null pointer. *)
Variable malloc : nat -> option (list byte).
Variable aligned_alloc : nat -> nat -> option (list byte).


End MakeUniqueArray.

(** An allocator out of memory, and one handing out [0xff] bytes. *)
Definition no_memory (nbytes : nat) : option (list byte) := None.
Definition dirty_malloc (nbytes : nat) : option (list byte) :=
  Some (repeat xff nbytes).

End MemoryMore.

(** ** The distance functions of the single-vector estimators *)

Module SingleDistances.
Import Float32 Defines Eigen Simd Quantization Estimator.
Import CaqEstimatorSingleImpl.

(** [utils::warmup_ip_x0_q] and [utils::mask_ip_x0_q] of utils/tools.hpp,
    which is not among the sources: parameters of the development. *)
Record SingleKernels : Type := mkSingleKernels {
  (* (short_code, query_bin, delta, q_vl + 0.5 * delta, dim, bits) *)
  warmup_ip_x0_q : list Z -> list Z -> float -> Float64.double -> Z -> Z
                   -> float;
  (* (query, short_code, dim) *)
  mask_ip_x0_q : FloatVec -> list Z -> Z -> float
}.

Definition zero_single_kernels : SingleKernels :=
  mkSingleKernels (fun _ _ _ _ _ _ => fzero) (fun _ _ _ => fzero).

Definition with_prune_bound (e : t) (b : float) : t :=
  mk (kDistType e) (num_dim_padded_ e) (num_bits_ e) (ex_bits_ e)
     (one_over_sqrtD_ e) (cfg_ e) (caq_delta_ e)
     (curr_query_ e) (query_sq_ e) (query_bin_ e)
     (q_delta_ e) (q_vl_ e) (q_vr_ e) (ip_q_c_ e) (delta_ e) (sum_q_ e)
     (q_l2sqr_ e) (q_l2norm_ e) b (runtime_statics_ e).

Definition with_metrics (e : t) (m : QueryRuntimeMetrics) : t :=
  mk (kDistType e) (num_dim_padded_ e) (num_bits_ e) (ex_bits_ e)
     (one_over_sqrtD_ e) (cfg_ e) (caq_delta_ e)
     (curr_query_ e) (query_sq_ e) (query_bin_ e)
     (q_delta_ e) (q_vl_ e) (q_vr_ e) (ip_q_c_ e) (delta_ e) (sum_q_ e)
     (q_l2sqr_ e) (q_l2norm_ e) (without_ip_prune_bound_ e) m.

Definition setPruneBound (e : t) (vars : float) : t :=
  with_prune_bound e (fmul vars (searcher_vars_bound_m (cfg_ e))).

Definition getRuntimeMetrics (e : t) : QueryRuntimeMetrics :=
  runtime_statics_ e.

(** [constexpr float const_bound = 0.58] and [constexpr float est_error =
    0.8]: the doubles nearest to 0.58 and 0.8, rounded to float. *)
Definition const_bound : float :=
  Float64.to_float (Float64.ddiv (Float64.of_Z 58) (Float64.of_Z 100)).
Definition est_error : float :=
  Float64.to_float (Float64.ddiv (Float64.of_Z 8) (Float64.of_Z 10)).

(** The double [0.5]. *)
Definition half : Float64.double :=
  Float64.ddiv (Float64.of_Z 1) (Float64.of_Z 2).

(** [varsEstDist(o_l2norm)]. *)
Definition varsEstDist (e : t) (o_l2norm : float) : float :=
  if isIpDist e then fsub (ip_q_c_ e) (without_ip_prune_bound_ e)
  else
    std_max fzero
      (fsub (fadd (fmul o_l2norm o_l2norm) (q_l2sqr_ e))
            (fmul (of_Z 2) (without_ip_prune_bound_ e))).

Section WithKernels.
Variable K : Kernels.
Variable S : SingleKernels.

(** [compFastDist(o_l2norm, short_code)]: the distance and the estimator
    afterwards. *)
Definition compFastDist (e : t) (o_l2norm : float) (short_code : list Z)
  : float * t :=
  if Z.eqb (num_bits_ e) 0 then (varsEstDist e o_l2norm, e)
  else
    let tmp :=
      warmup_ip_x0_q S short_code (query_bin_ e) (delta_ e)
        (Float64.dadd (Float64.of_float (q_vl_ e))
                      (Float64.dmul half (Float64.of_float (delta_ e))))
        (num_dim_padded_ e) kNumBits in
    let ip_oa1_qq : float :=
      Float64.to_float
        (Float64.dmul
           (Float64.dmul
              (Float64.dsub
                 (Float64.of_float tmp)
                 (Float64.dsub
                    (Float64.dmul half (Float64.of_float (sum_q_ e)))
                    (Float64.of_float (fmul const_bound (q_l2norm_ e)))))
              (Float64.of_float
                 (fmul (fdiv (of_Z 4) est_error) (one_over_sqrtD_ e))))
           (Float64.of_float o_l2norm)) in
    let m := runtime_statics_ e in
    let e1 :=
      with_metrics e
        (mkQueryRuntimeMetrics
           (size_t_wrap (fast_bitsum m + num_dim_padded_ e))
           (acc_bitsum m) (total_comp_cnt m)) in
    if negb (isIpDist e) then
      (std_max (fsub (fadd (q_l2sqr_ e) (fmul o_l2norm o_l2norm)) ip_oa1_qq)
               fzero,
       e1)
    else
      (Float64.to_float (Float64.dmul (Float64.of_float ip_oa1_qq) half), e1).

(** [compAccurateDist(o_l2norm, short_code, long_code, ex_fac)]. *)
Definition compAccurateDist (e : t) (o_l2norm : float) (short_code : list Z)
  (code : list Z) (ex_fac : ExFactor) : float * t :=
  let o_l2sqr := fmul o_l2norm o_l2norm in
  if Z.eqb (num_bits_ e) 0 then
    if isIpDist e then (ip_q_c_ e, e)
    else (fadd o_l2sqr (q_l2sqr_ e), e)
  else
    let ip_oa1_q :=
      mask_ip_x0_q S (curr_query_ e) short_code (num_dim_padded_ e) in
    let o_vl : Float64.double := Float64.of_Z (-1) in
    let ex_ip : Float64.double :=
      Float64.of_float
        (IP_FUNC K (ex_bits_ e) (curr_query_ e) code (num_dim_padded_ e)) in
    let tmp : float :=
      Float64.to_float
        (Float64.dadd
           (Float64.dadd (Float64.of_float ip_oa1_q)
                         (Float64.dmul ex_ip (caq_delta_ e)))
           (Float64.dmul
              (Float64.dadd o_vl
                 (Float64.ddiv (caq_delta_ e) (Float64.of_Z 2)))
              (Float64.of_float (sum_q_ e)))) in
    let ip_o_q := fmul (rescale ex_fac) tmp in
    let m := runtime_statics_ e in
    let e1 :=
      with_metrics e
        (mkQueryRuntimeMetrics
           (fast_bitsum m)
           (size_t_wrap (acc_bitsum m
                         + size_t_wrap (num_dim_padded_ e
                                        * size_t_wrap (num_bits_ e - 1))))
           (total_comp_cnt m)) in
    if DistType_eqb (dist_type (cfg_ e)) IP then
      (fadd ip_o_q (ip_q_c_ e), e1)
    else
      (fsub (fadd o_l2sqr (q_l2sqr_ e)) (fmul (of_Z 2) ip_o_q), e1).

End WithKernels.

End SingleDistances.

(** *** [CaqCluEstimatorSingle]: the distance functions *)

Module CaqCluEstimatorSingleDist.
Import Float32 Defines Eigen Simd Quantization Estimator.
Import CaqCluEstimatorSingle.

Definition with_Impl (e : t) (impl : CaqEstimatorSingleImpl.t) : t :=
  mk impl (query_data_ e) (curr_cluster_ e).

(** [factor_o_l2norm(vec_idx / 32)[vec_idx % 32]] of the current cluster. *)
Definition o_l2norm_of (e : t) (vec_idx : nat) : float :=
  nth (vec_idx mod KFastScanSize)
      (factor_o_l2norm (deref (curr_cluster_ e)) (vec_idx / KFastScanSize))
      fzero.

Definition setPruneBound (e : t) (vars : float) : t :=
  with_Impl e (SingleDistances.setPruneBound (Impl e) vars).

Definition varsEstDist (e : t) (vec_idx : nat) : float :=
  SingleDistances.varsEstDist (Impl e) (o_l2norm_of e vec_idx).

Section WithKernels.
Variable K : Kernels.
Variable S : SingleDistances.SingleKernels.

Definition compFastDist (e : t) (vec_idx : nat) : float * t :=
  let '(d, impl) :=
    SingleDistances.compFastDist S (Impl e) (o_l2norm_of e vec_idx)
      (short_code_single (deref (curr_cluster_ e)) vec_idx) in
  (d, with_Impl e impl).

Definition compAccurateDist (e : t) (vec_idx : nat) : float * t :=
  let '(d, impl) :=
    SingleDistances.compAccurateDist K S (Impl e) (o_l2norm_of e vec_idx)
      (short_code_single (deref (curr_cluster_ e)) vec_idx)
      (long_code (deref (curr_cluster_ e)) vec_idx)
      (long_factor (deref (curr_cluster_ e)) vec_idx) in
  (d, with_Impl e impl).

End WithKernels.

End CaqCluEstimatorSingleDist.

(** *** [template <DistType kDistType> class CaqSingleEstimator] *)

Module CaqSingleEstimator.
Import Float32 Defines Eigen Simd Quantization Estimator.

(** Modelled from the spec: [CaqSingleDataWrapper] (quantization/single_data.hpp
    is not among the sources): the accessors the estimator calls. *)
Record CaqSingleDataWrapper : Type := mkCaqSingleDataWrapper {
  factor_o_l2norm : float;
  short_code : list Z;
  long_code : list Z;
  long_factor : ExFactor
}.

(** The estimator is its base-class sub-object. *)
Definition t : Type := CaqEstimatorSingleImpl.t.

Section WithKernels.
Variable K : Kernels.
Variable S : SingleDistances.SingleKernels.

(** The constructor: the base class is built, then prepared on the rotated
    query. *)
Definition new (kDist : DistType) (data : BaseQuantizerData)
  (c : SearcherConfig) (query : FloatVec) : string + t :=
  match CaqEstimatorSingleImpl.new kDist data c with
  | inl msg => inl msg
  | inr impl =>
      inr (CaqEstimatorSingleImpl.prepare K impl
             (match rotator data with
              | Some P => vec_mat query P
              | None => query
              end))
  end.

Definition varsEstDist (e : t) (caq : CaqSingleDataWrapper) : float :=
  SingleDistances.varsEstDist e (factor_o_l2norm caq).

Definition compFastDist (e : t) (caq : CaqSingleDataWrapper) : float * t :=
  SingleDistances.compFastDist S e (factor_o_l2norm caq) (short_code caq).

Definition compAccurateDist (e : t) (caq : CaqSingleDataWrapper)
  : float * t :=
  SingleDistances.compAccurateDist K S e (factor_o_l2norm caq)
    (short_code caq) (long_code caq) (long_factor caq).

End WithKernels.

End CaqSingleEstimator.

(** ** Sequences of calls on an estimator *)

Module ClusterUse.
Import Float32 Defines Eigen Simd Quantization Estimator CaqCluEstimator.

(** A call of a public member function of [CaqCluEstimator]. *)
Inductive call : Type :=
| SetPruneBound (vars : float)
| Prepare (cur_cluster : CAQClusterData)
| VarsEstDist (block_idx : nat) (fst_distances : option (m512 * m512))
| CompFastDist (block_idx : nat) (fst_distances : option (m512 * m512))
| CompAccurateDist (vec_idx : nat).

Section WithKernels.
Variable K : Kernels.

(** The estimator after a call. *)
Definition step (e : t) (c : call) : t :=
  match c with
  | SetPruneBound vars => setPruneBound e vars
  | Prepare cur_cluster => prepare e cur_cluster
  | VarsEstDist _ _ => e
  | CompFastDist block_idx out => fst (compFastDist K e block_idx out)
  | CompAccurateDist vec_idx => snd (compAccurateDist K e vec_idx)
  end.

Definition calls (e : t) (l : list call) : t := fold_left step l e.

End WithKernels.

(** A call of [compFastDist] that was given an output array. *)
Definition is_fast_scan (c : call) : bool :=
  match c with
  | CompFastDist _ (Some _) => true
  | _ => false
  end.

Definition is_accurate (c : call) : bool :=
  match c with
  | CompAccurateDist _ => true
  | _ => false
  end.

Definition fast_scans (l : list call) : nat := length (filter is_fast_scan l).

Definition accurate_calls (l : list call) : nat :=
  length (filter is_accurate l).

(** The lanes of an output array. *)
Definition lanes_of (out : m512 * m512) : list float := fst out ++ snd out.

(** What no call changes. *)
Definition frozen (e e' : t) : Prop :=
  kDistType e' = kDistType e /\ num_dim_padded_ e' = num_dim_padded_ e /\
  num_bits_ e' = num_bits_ e /\ ex_bits_ e' = ex_bits_ e /\
  cfg_ e' = cfg_ e /\ query_data_ e' = query_data_ e /\
  sq_delta_ e' = sq_delta_ e /\
  lut_num_dim (lut_ e') = lut_num_dim (lut_ e) /\
  lut_ex_bits (lut_ e') = lut_ex_bits (lut_ e) /\
  total_comp_cnt (runtime_statics_ e') = total_comp_cnt (runtime_statics_ e) /\
  (isIpDist e = false -> ip_q_c_ e' = ip_q_c_ e).

End ClusterUse.

Module SingleUse.
Import Float32 Defines Eigen Simd Quantization Estimator.
Import CaqEstimatorSingleImpl SingleDistances.

(** A call of a public member function of [CaqEstimatorSingleImpl], which
    both single-vector estimators inherit. *)
Inductive call : Type :=
| SetPruneBound (vars : float)
| Prepare (query : FloatVec)
| VarsEstDist (o_l2norm : float)
| CompFastDist (o_l2norm : float) (short_code : list Z)
| CompAccurateDist (o_l2norm : float) (short_code : list Z)
                   (long_code : list Z) (ex_fac : ExFactor).

Section WithKernels.
Variable K : Kernels.
Variable S : SingleKernels.

Definition step (e : t) (c : call) : t :=
  match c with
  | SetPruneBound vars => setPruneBound e vars
  | Prepare query => prepare K e query
  | VarsEstDist _ => e
  | CompFastDist o_l2norm short_code =>
      snd (compFastDist S e o_l2norm short_code)
  | CompAccurateDist o_l2norm short_code long_code ex_fac =>
      snd (compAccurateDist K S e o_l2norm short_code long_code ex_fac)
  end.

Definition calls (e : t) (l : list call) : t := fold_left step l e.

End WithKernels.

Definition is_fast (c : call) : bool :=
  match c with
  | CompFastDist _ _ => true
  | _ => false
  end.

Definition is_accurate (c : call) : bool :=
  match c with
  | CompAccurateDist _ _ _ _ => true
  | _ => false
  end.

Definition fast_calls (l : list call) : nat := length (filter is_fast l).

Definition accurate_calls (l : list call) : nat :=
  length (filter is_accurate l).

(** What no call changes. *)
Definition frozen (e e' : t) : Prop :=
  kDistType e' = kDistType e /\ num_dim_padded_ e' = num_dim_padded_ e /\
  num_bits_ e' = num_bits_ e /\ ex_bits_ e' = ex_bits_ e /\
  one_over_sqrtD_ e' = one_over_sqrtD_ e /\ cfg_ e' = cfg_ e /\
  caq_delta_ e' = caq_delta_ e /\ q_delta_ e' = q_delta_ e /\
  ip_q_c_ e' = ip_q_c_ e /\
  total_comp_cnt (runtime_statics_ e') = total_comp_cnt (runtime_statics_ e).

(** The members that [prepare] writes are the same. *)
Definition same_query (e e' : t) : Prop :=
  curr_query_ e' = curr_query_ e /\ query_sq_ e' = query_sq_ e /\
  query_bin_ e' = query_bin_ e /\ q_vl_ e' = q_vl_ e /\ q_vr_ e' = q_vr_ e /\
  delta_ e' = delta_ e /\ sum_q_ e' = sum_q_ e /\ q_l2sqr_ e' = q_l2sqr_ e /\
  q_l2norm_ e' = q_l2norm_ e.

End SingleUse.

Module ClusterSingleUse.
Import Float32 Defines Eigen Simd Quantization Estimator.
Import CaqCluEstimatorSingle CaqCluEstimatorSingleDist.

(** A call of a public member function of [CaqCluEstimatorSingle]. *)
Inductive call : Type :=
| SetPruneBound (vars : float)
| Prepare (cur_cluster : CAQClusterData)
| VarsEstDist (vec_idx : nat)
| CompFastDist (vec_idx : nat)
| CompAccurateDist (vec_idx : nat).

Section WithKernels.
Variable K : Kernels.
Variable S : SingleDistances.SingleKernels.

(** The estimator after a call; after a [prepare] that throws, it is the
    estimator the exception leaves behind. *)
Definition step (e : t) (c : call) : t :=
  match c with
  | SetPruneBound vars => setPruneBound e vars
  | Prepare cur_cluster => fst (prepare K e cur_cluster)
  | VarsEstDist _ => e
  | CompFastDist vec_idx => snd (compFastDist S e vec_idx)
  | CompAccurateDist vec_idx => snd (compAccurateDist K S e vec_idx)
  end.

Definition calls (e : t) (l : list call) : t := fold_left step l e.

End WithKernels.

(** The estimator with the prune bound and the counters of another one. *)
Definition with_bound_and_metrics (e other : t) : t :=
  with_Impl e
    (SingleDistances.with_metrics
       (SingleDistances.with_prune_bound (Impl e)
          (CaqEstimatorSingleImpl.without_ip_prune_bound_ (Impl other)))
       (CaqEstimatorSingleImpl.runtime_statics_ (Impl other))).

(** What no call changes; in inner-product mode [prepare] throws before it
    writes to the base class, so nothing it would write changes either. *)
Definition frozen (e e' : t) : Prop :=
  SingleUse.frozen (Impl e) (Impl e') /\
  query_data_ e' = query_data_ e /\
  (isIpDist e = true -> SingleUse.same_query (Impl e) (Impl e')).

End ClusterSingleUse.

(** * Properties *)

(** ** Order of the IEEE comparisons *)

Module Float32Facts.
Import Float32.

Ltac cmp_cases :=
  repeat match goal with
  | |- context [Pos.compare_cont Eq ?a ?b] =>
      change (Pos.compare_cont Eq a b) with (Pos.compare a b)
  | H : context [Pos.compare_cont Eq ?a ?b] |- _ =>
      change (Pos.compare_cont Eq a b) with (Pos.compare a b) in H
  end;
  repeat match goal with
  | H : context [Z.compare ?a ?b] |- _ =>
      destruct (Z.compare_spec a b); simpl in H; try discriminate H
  | H : context [Pos.compare ?a ?b] |- _ =>
      destruct (Pos.compare_spec a b); simpl in H; try discriminate H
  end;
  repeat match goal with
  | |- context [Z.compare ?a ?b] =>
      destruct (Z.compare_spec a b); simpl; try lia
  | |- context [Pos.compare ?a ?b] =>
      destruct (Pos.compare_spec a b); simpl; try lia
  end;
  try reflexivity; try discriminate; try lia.

Lemma flt_trans (a b c : float) :
  flt a b = true -> flt b c = true -> flt a c = true.
Proof.
  unfold flt, SFltb.
  destruct a as [sa|sa| |sa ma ea], b as [sb|sb| |sb mb eb],
           c as [sc|sc| |sc mc ec]; simpl;
    try discriminate;
    try (destruct sa); try (destruct sb); try (destruct sc); simpl;
    try discriminate; try reflexivity; intros H1 H2; cmp_cases.
Qed.

Lemma flt_not_nan (a b : float) :
  flt a b = true -> is_nan a = false /\ is_nan b = false.
Proof.
  unfold flt, SFltb. destruct a, b; simpl; try discriminate; auto.
Qed.

Lemma flt_asym (a b : float) : flt a b = true -> flt b a = false.
Proof.
  unfold flt, SFltb.
  destruct a as [sa|sa| |sa ma ea], b as [sb|sb| |sb mb eb]; simpl;
    try discriminate; try reflexivity;
    try (destruct sa); try (destruct sb); simpl;
    try discriminate; try reflexivity; intros H1; cmp_cases.
Qed.

Lemma flt_irrefl (a : float) : flt a a = false.
Proof.
  destruct (flt a a) eqn:H; [|reflexivity].
  pose proof (flt_asym _ _ H). congruence.
Qed.

(** On numbers, [a <= b] is the negation of [b < a]. *)
Lemma fle_not_flt (a b : float) :
  is_nan a = false -> is_nan b = false -> fle a b = negb (flt b a).
Proof.
  unfold fle, flt, SFleb, SFltb.
  destruct a as [sa|sa| |sa ma ea], b as [sb|sb| |sb mb eb]; simpl;
    try discriminate; try reflexivity;
    try (destruct sa); try (destruct sb); simpl;
    try discriminate; try reflexivity; intros _ _; cmp_cases.
Qed.

Lemma fle_not_nan (a b : float) :
  fle a b = true -> is_nan a = false /\ is_nan b = false.
Proof.
  unfold fle, SFleb. destruct a, b; simpl; try discriminate; auto.
Qed.

(** Among numbers, [<] is negatively transitive. *)
Lemma flt_neg_trans (a b c : float) :
  is_nan b = false ->
  flt a b = false -> flt b c = false -> flt a c = false.
Proof.
  unfold flt, SFltb.
  destruct a as [sa|sa| |sa ma ea], b as [sb|sb| |sb mb eb],
           c as [sc|sc| |sc mc ec]; simpl;
    try discriminate; try reflexivity;
    try (destruct sa); try (destruct sb); try (destruct sc); simpl;
    try discriminate; try reflexivity; intros _ H1 H2; cmp_cases.
Qed.

Lemma fle_flt_trans (a b c : float) :
  fle a b = true -> flt b c = true -> flt a c = true.
Proof.
  unfold fle, flt, SFleb, SFltb.
  destruct a as [sa|sa| |sa ma ea], b as [sb|sb| |sb mb eb],
           c as [sc|sc| |sc mc ec]; simpl;
    try discriminate;
    try (destruct sa); try (destruct sb); try (destruct sc); simpl;
    try discriminate; try reflexivity; intros H1 H2; cmp_cases.
Qed.

Lemma flt_fle (a b : float) : flt a b = true -> fle a b = true.
Proof.
  unfold fle, flt, SFleb, SFltb.
  destruct (SFcompare a b) as [[| |]|]; try discriminate; reflexivity.
Qed.

Lemma fle_trans (a b c : float) :
  fle a b = true -> fle b c = true -> fle a c = true.
Proof.
  unfold fle, SFleb.
  destruct a as [sa|sa| |sa ma ea], b as [sb|sb| |sb mb eb],
           c as [sc|sc| |sc mc ec]; simpl;
    try discriminate;
    try (destruct sa); try (destruct sb); try (destruct sc); simpl;
    try discriminate; try reflexivity; intros H1 H2; cmp_cases.
Qed.

Lemma fle_refl (a : float) : is_nan a = false -> fle a a = true.
Proof.
  intros H. rewrite fle_not_flt by assumption. rewrite flt_irrefl. reflexivity.
Qed.

End Float32Facts.

Module ArrayFacts.
Import Buffer.

Lemma store_length {A : Type} (l : list A) (i : nat) (x : A) :
  length (store l i x) = length l.
Proof.
  revert i; induction l as [|h t IH]; intros [|i]; simpl; auto.
Qed.

Lemma nth_store_same {A : Type} (l : list A) (i : nat) (x d : A) :
  i < length l -> nth i (store l i x) d = x.
Proof.
  revert i; induction l as [|h t IH]; intros [|i] H; simpl in *;
    try lia; auto. apply IH; lia.
Qed.

Lemma nth_store_other {A : Type} (l : list A) (i k : nat) (x d : A) :
  i <> k -> nth i (store l k x) d = nth i l d.
Proof.
  revert i k; induction l as [|h t IH]; intros [|i] [|k] H; simpl;
    try reflexivity; try lia. apply IH; lia.
Qed.

Lemma memmove_length {A : Type} (l : list A) (dst src n : nat) :
  src + n <= length l -> dst + n <= length l ->
  length (memmove l dst src n) = length l.
Proof.
  intros Hs Hd. unfold memmove.
  rewrite !length_app, !length_firstn, !length_skipn. lia.
Qed.

Lemma nth_memmove_before {A : Type} (l : list A) (dst src n i : nat) (d : A) :
  dst + n <= length l -> i < dst ->
  nth i (memmove l dst src n) d = nth i l d.
Proof.
  intros Hd Hi. unfold memmove.
  rewrite app_nth1 by (rewrite length_firstn; lia).
  rewrite nth_firstn. destruct (i <? dst) eqn:E; [reflexivity|].
  apply Nat.ltb_ge in E; lia.
Qed.

Lemma nth_memmove_moved {A : Type} (l : list A) (dst src n i : nat) (d : A) :
  src + n <= length l -> dst + n <= length l -> dst <= i < dst + n ->
  nth i (memmove l dst src n) d = nth (src + (i - dst)) l d.
Proof.
  intros Hs Hd Hi. unfold memmove.
  rewrite app_nth2 by (rewrite length_firstn; lia).
  rewrite length_firstn, Nat.min_l by lia.
  rewrite app_nth1 by (rewrite length_firstn, length_skipn; lia).
  rewrite nth_firstn. destruct (i - dst <? n) eqn:E.
  - apply nth_skipn.
  - apply Nat.ltb_ge in E; lia.
Qed.

Lemma nth_memmove_after {A : Type} (l : list A) (dst src n i : nat) (d : A) :
  src + n <= length l -> dst + n <= length l -> dst + n <= i ->
  nth i (memmove l dst src n) d = nth i l d.
Proof.
  intros Hs Hd Hi. unfold memmove.
  rewrite app_nth2 by (rewrite length_firstn; lia).
  rewrite length_firstn, Nat.min_l by lia.
  rewrite app_nth2 by (rewrite length_firstn, length_skipn; lia).
  rewrite length_firstn, length_skipn, Nat.min_l by lia.
  rewrite nth_skipn. f_equal. lia.
Qed.

End ArrayFacts.

Module LoopFacts.
Import Defines Float32 Buffer.

Lemma binary_search_loop_unfold (data : list Candidate) (dist : float)
  (lo len : nat) :
  binary_search_loop data dist lo len =
  if len <=? 1 then lo
  else binary_search_loop data dist
         (lo + Nat.b2n (flt (distance (at_ data (lo + Nat.shiftr len 1 - 1)))
                            dist)
               * Nat.shiftr len 1)
         (len - Nat.shiftr len 1).
Proof.
  funelim (binary_search_loop data dist lo len).
  - replace (len <=? 1) with true by (symmetry; apply Nat.leb_le; lia).
    reflexivity.
  - replace (len <=? 1) with false by (symmetry; apply Nat.leb_gt; lia).
    reflexivity.
Qed.

Lemma skip_checked_unfold (data : list Candidate) (size cur : nat) :
  skip_checked data size cur =
  if (cur <? size) && is_checked (id (at_ data cur))
  then skip_checked data size (S cur) else cur.
Proof.
  funelim (skip_checked data size cur);
    match goal with H : _ && _ = _ |- _ => rewrite H end; reflexivity.
Qed.

End LoopFacts.

(** ** The ladder search *)

Module SearchFacts.
Import Defines Float32 Buffer BufferSpec Float32Facts ArrayFacts LoopFacts.

Lemma half_bounds (len : nat) :
  1 < len ->
  1 <= Nat.shiftr len 1 /\ Nat.shiftr len 1 < len /\
  2 * Nat.shiftr len 1 <= len.
Proof.
  intros H. rewrite Nat.shiftr_div_pow2. change (2 ^ 1) with 2.
  repeat split.
  - apply Nat.div_le_lower_bound; lia.
  - apply Nat.div_lt; lia.
  - apply Nat.Div0.mul_div_le.
Qed.

(** The loop stays inside the window it is given; this needs no order on the
    data. *)
Lemma binary_search_loop_window (data : list Candidate) (dist : float)
  (len : nat) :
  forall lo,
    lo <= binary_search_loop data dist lo len /\
    binary_search_loop data dist lo len + Nat.b2n (0 <? len) <= lo + len.
Proof.
  induction len as [len IH] using lt_wf_ind. intros lo.
  rewrite binary_search_loop_unfold.
  destruct (len <=? 1) eqn:E.
  - apply Nat.leb_le in E. destruct len as [|[|?]]; simpl; lia.
  - apply Nat.leb_gt in E. destruct (half_bounds len E) as (H1 & H2 & H3).
    set (half := Nat.shiftr len 1) in *.
    specialize
      (IH (len - half) ltac:(lia)
          (lo + Nat.b2n (flt (distance (at_ data (lo + half - 1))) dist)
                * half)).
    replace (0 <? len - half) with true in IH
      by (symmetry; apply Nat.ltb_lt; lia).
    replace (0 <? len) with true by (symmetry; apply Nat.ltb_lt; lia).
    destruct (flt _ dist); simpl in *; lia.
Qed.

Lemma binary_search_le_size (b : SearchBuffer) (dist : float) :
  binary_search b dist <= size_ b.
Proof.
  unfold binary_search.
  pose proof (binary_search_loop_window (data_ b) dist (size_ b) 0) as [_ H].
  set (lo := binary_search_loop (data_ b) dist 0 (size_ b)) in *.
  destruct (lo <? size_ b) eqn:E; simpl.
  - apply Nat.ltb_lt in E. destruct (flt _ dist); lia.
  - apply Nat.ltb_ge in E.
    destruct (size_ b); simpl in H; lia.
Qed.

Section Sorted.

Variable data : list Candidate.
Variable dist : float.
Variable n : nat.

Hypothesis data_sorted :
  forall i j, i < j -> j < n ->
    fle (distance (at_ data i)) (distance (at_ data j)) = true.

Lemma below_closed (i j : nat) :
  i <= j -> j < n ->
  flt (distance (at_ data j)) dist = true ->
  flt (distance (at_ data i)) dist = true.
Proof.
  intros Hij Hj H.
  destruct (Nat.eq_dec i j) as [->|Hne]; [assumption|].
  apply fle_flt_trans with (distance (at_ data j));
    [apply data_sorted; lia | assumption].
Qed.

Lemma above_closed (i j : nat) :
  i <= j -> j < n ->
  flt (distance (at_ data i)) dist = false ->
  flt (distance (at_ data j)) dist = false.
Proof.
  intros Hij Hj H.
  destruct (flt (distance (at_ data j)) dist) eqn:E; [|reflexivity].
  rewrite (below_closed i j Hij Hj E) in H. discriminate.
Qed.

(** The loop keeps: everything left of [lo] is below [dist], everything from
    [lo + len] on is not. *)
Lemma binary_search_loop_partition (len : nat) :
  forall lo,
    lo + len <= n ->
    (forall i, i < lo -> flt (distance (at_ data i)) dist = true) ->
    (forall i, lo + len <= i -> i < n ->
               flt (distance (at_ data i)) dist = false) ->
    let r := binary_search_loop data dist lo len in
    (forall i, i < r -> flt (distance (at_ data i)) dist = true) /\
    (forall i, r + Nat.b2n (0 <? len) <= i -> i < n ->
               flt (distance (at_ data i)) dist = false).
Proof.
  induction len as [len IH] using lt_wf_ind. intros lo Hn Hlo Hhi.
  rewrite binary_search_loop_unfold.
  destruct (len <=? 1) eqn:E.
  - apply Nat.leb_le in E. simpl. split; [assumption|].
    intros i Hi Hin. apply Hhi; [|assumption].
    destruct len as [|[|?]]; simpl in *; lia.
  - apply Nat.leb_gt in E. destruct (half_bounds len E) as (H1 & H2 & H3).
    set (half := Nat.shiftr len 1) in *.
    replace (0 <? len) with true by (symmetry; apply Nat.ltb_lt; lia).
    assert (Hsub : (0 <? len - half) = true) by (apply Nat.ltb_lt; lia).
    destruct (flt (distance (at_ data (lo + half - 1))) dist) eqn:P;
      simpl Nat.b2n.
    + specialize (IH (len - half) ltac:(lia) (lo + 1 * half)).
      rewrite Hsub in IH. apply IH.
      * lia.
      * intros i Hi. apply below_closed with (lo + half - 1); auto; lia.
      * intros i Hi Hin. apply Hhi; lia.
    + specialize (IH (len - half) ltac:(lia) (lo + 0 * half)).
      rewrite Hsub in IH. apply IH.
      * lia.
      * intros i Hi. apply Hlo; lia.
      * intros i Hi Hin. apply above_closed with (lo + half - 1); auto; lia.
Qed.

End Sorted.

(** On sorted entries [binary_search] returns the leftmost index
    whose distance is not below [dist]. *)
Lemma binary_search_partition (b : SearchBuffer) (dist : float) :
  sorted_by_distance b ->
  (forall i, i < binary_search b dist -> flt (dist_at b i) dist = true) /\
  (forall i, binary_search b dist <= i -> i < size_ b ->
             flt (dist_at b i) dist = false).
Proof.
  intros Hs.
  pose proof (binary_search_loop_partition (data_ b) dist (size_ b) Hs
                (size_ b) 0 ltac:(lia) ltac:(intros; lia) ltac:(intros; lia))
    as [Hlo Hhi].
  pose proof (binary_search_loop_window (data_ b) dist (size_ b) 0) as [_ Hw].
  unfold binary_search.
  set (lo := binary_search_loop (data_ b) dist 0 (size_ b)) in *.
  destruct (lo <? size_ b) eqn:E; simpl.
  - apply Nat.ltb_lt in E.
    replace (0 <? size_ b) with true in * by (symmetry; apply Nat.ltb_lt; lia).
    simpl in *.
    destruct (flt (distance (at_ (data_ b) lo)) dist) eqn:P.
    + split.
      * intros i Hi. destruct (Nat.eq_dec i lo) as [->|]; [exact P|].
        apply Hlo; lia.
      * intros i Hi Hin. apply Hhi; lia.
    + split; [exact Hlo|].
      intros i Hi Hin.
      apply (above_closed (data_ b) dist (size_ b) Hs) with lo; auto.
  - apply Nat.ltb_ge in E. split; [exact Hlo|]. intros; lia.
Qed.

End SearchFacts.

(** ** The checked bit *)

Module BitFacts.
Import Defines Buffer BufferSpec.
Local Open Scope Z_scope.

Lemma is_checked_set_checked (x : PID) : is_checked (set_checked x) = true.
Proof.
  unfold is_checked, set_checked.
  destruct (Z.eqb_spec (Z.shiftr (Z.lor x (Z.shiftl 1 31)) 31) 0) as [E|E];
    [|reflexivity].
  assert (H : Z.testbit (Z.shiftr (Z.lor x (Z.shiftl 1 31)) 31) 0 = true).
  { rewrite Z.shiftr_spec by lia. rewrite Z.lor_spec.
    replace (Z.testbit (Z.shiftl 1 31) (0 + 31)) with true by reflexivity.
    apply orb_true_r. }
  rewrite E in H. discriminate.
Qed.

Lemma high_bit_set_checked (x : PID) : high_bit (set_checked x) = true.
Proof.
  unfold high_bit, set_checked. rewrite Z.lor_spec.
  replace (Z.testbit (Z.shiftl 1 31) 31) with true by reflexivity.
  apply orb_true_r.
Qed.

Lemma is_checked_high_bit (x : PID) :
  0 <= x < 2 ^ 32 -> is_checked x = high_bit x.
Proof.
  intros H. unfold is_checked, high_bit.
  rewrite Z.shiftr_div_pow2 by lia.
  rewrite Z.testbit_eqb by lia.
  assert (Hq : 0 <= x / 2 ^ 31 < 2).
  { split; [apply Z.div_pos; lia | apply Z.div_lt_upper_bound; lia]. }
  destruct (Z.eqb_spec (x / 2 ^ 31) 0) as [E|E].
  - rewrite E. reflexivity.
  - replace (x / 2 ^ 31) with 1 by lia. reflexivity.
Qed.

Lemma is_checked_clear (x : PID) : high_bit_clear x -> is_checked x = false.
Proof.
  intros H. unfold is_checked, high_bit_clear in *.
  rewrite Z.shiftr_div_pow2 by lia. rewrite Z.div_small by lia. reflexivity.
Qed.

Lemma high_bit_clear_not_checked (x : PID) :
  0 <= x < 2 ^ 32 -> is_checked x = false -> high_bit_clear x.
Proof.
  intros H E. unfold is_checked, high_bit_clear in *.
  rewrite Z.shiftr_div_pow2 in E by lia.
  apply negb_false_iff, Z.eqb_eq in E.
  split; [lia|].
  destruct (Z.lt_ge_cases x (2 ^ 31)) as [L|G]; [assumption|].
  assert (1 <= x / 2 ^ 31) by (apply Z.div_le_lower_bound; lia). lia.
Qed.

Lemma set_checked_range (x : PID) :
  0 <= x < 2 ^ 32 -> 0 <= set_checked x < 2 ^ 32.
Proof.
  intros H. unfold set_checked.
  assert (N : 0 <= Z.lor x (Z.shiftl 1 31)).
  { apply Z.lor_nonneg. split; [lia|]. apply Z.shiftl_nonneg. lia. }
  split; [assumption|].
  assert (P : 0 < Z.lor x (Z.shiftl 1 31)).
  { destruct (Z.eq_dec (Z.lor x (Z.shiftl 1 31)) 0) as [E|E]; [|lia].
    apply Z.lor_eq_0_iff in E. destruct E as [_ E]. discriminate E. }
  apply Z.log2_lt_pow2; [assumption|].
  rewrite Z.log2_lor by (try lia; apply Z.shiftl_nonneg; lia).
  apply Z.max_lub_lt.
  - destruct (Z.eq_dec x 0) as [->|]; [reflexivity|].
    apply Z.log2_lt_pow2; lia.
  - reflexivity.
Qed.

End BitFacts.

(** ** What [insert] and [pop] do to the array *)

Module BufferFacts.
Import Defines Float32 Buffer BufferSpec.
Import Float32Facts ArrayFacts LoopFacts SearchFacts BitFacts.

Lemma well_formed_new (C : nat) : well_formed C (new C).
Proof.
  unfold well_formed, new; simpl. rewrite repeat_length. lia.
Qed.

Lemma well_formed_clear (C : nat) (b : SearchBuffer) :
  well_formed C b -> well_formed C (clear b).
Proof.
  unfold well_formed, clear; simpl. intros (H1 & H2 & H3 & H4). lia.
Qed.

Lemma insert_rejected (b : SearchBuffer) (data_id : PID) (dist : float) :
  is_full_dist b dist = true -> insert b data_id dist = b.
Proof.
  intros H. unfold insert. rewrite H. reflexivity.
Qed.

Lemma insert_accepted (b : SearchBuffer) (data_id : PID) (dist : float) :
  is_full_dist b dist = false ->
  insert b data_id dist =
  mkSearchBuffer
    (store (memmove (data_ b) (binary_search b dist + 1) (binary_search b dist)
                    (size_ b - binary_search b dist))
           (binary_search b dist) (mkCandidate data_id dist))
    (size_ b + Nat.b2n (size_ b <? capacity_ b))
    (if binary_search b dist <? cur_ b then binary_search b dist else cur_ b)
    (capacity_ b).
Proof.
  intros H. unfold insert. rewrite H. reflexivity.
Qed.

(** The array after an accepted insert, slot by slot. *)
Lemma insert_slots (C : nat) (b : SearchBuffer) (data_id : PID) (dist : float) :
  well_formed C b -> is_full_dist b dist = false ->
  let lo := binary_search b dist in
  let b' := insert b data_id dist in
  length (data_ b') = length (data_ b) /\
  (forall k, k < lo -> at_ (data_ b') k = at_ (data_ b) k) /\
  at_ (data_ b') lo = mkCandidate data_id dist /\
  (forall k, lo < k -> k <= size_ b ->
             at_ (data_ b') k = at_ (data_ b) (k - 1)) /\
  (forall k, size_ b < k -> at_ (data_ b') k = at_ (data_ b) k).
Proof.
  intros (Hc & Hl & Hs & Hcur) Hrej lo b'.
  pose proof (binary_search_le_size b dist) as Hlo. fold lo in Hlo.
  subst b'. rewrite (insert_accepted b data_id dist Hrej). fold lo. simpl.
  assert (L : length (memmove (data_ b) (lo + 1) lo (size_ b - lo))
              = length (data_ b)) by (apply memmove_length; lia).
  unfold at_. repeat split.
  - rewrite store_length. exact L.
  - intros k Hk. rewrite nth_store_other by lia.
    apply nth_memmove_before; lia.
  - apply nth_store_same. lia.
  - intros k Hk1 Hk2. rewrite nth_store_other by lia.
    rewrite nth_memmove_moved by lia. f_equal. lia.
  - intros k Hk. rewrite nth_store_other by lia.
    apply nth_memmove_after; lia.
Qed.

Lemma insert_well_formed (C : nat) (b : SearchBuffer) (data_id : PID)
  (dist : float) :
  well_formed C b -> well_formed C (insert b data_id dist).
Proof.
  intros W. destruct (is_full_dist b dist) eqn:R.
  - rewrite insert_rejected by assumption. exact W.
  - pose proof (insert_slots C b data_id dist W R) as (L & _).
    pose proof (binary_search_le_size b dist) as Hlo.
    destruct W as (Hc & Hl & Hs & Hcur).
    rewrite (insert_accepted b data_id dist R) in *. simpl in *.
    unfold well_formed; simpl. repeat split; try lia.
    + destruct (size_ b <? capacity_ b) eqn:E; simpl; [|lia].
      apply Nat.ltb_lt in E. lia.
    + destruct (binary_search b dist <? cur_ b) eqn:E; lia.
Qed.

Lemma insert_size (b : SearchBuffer) (data_id : PID) (dist : float) :
  is_full_dist b dist = false ->
  size_ (insert b data_id dist) = size_ b + Nat.b2n (size_ b <? capacity_ b).
Proof.
  intros R. rewrite insert_accepted by assumption. reflexivity.
Qed.

Lemma insert_cur (b : SearchBuffer) (data_id : PID) (dist : float) :
  is_full_dist b dist = false ->
  cur_ (insert b data_id dist) = Nat.min (cur_ b) (binary_search b dist).
Proof.
  intros R. rewrite insert_accepted by assumption. simpl.
  destruct (binary_search b dist <? cur_ b) eqn:E.
  - apply Nat.ltb_lt in E. lia.
  - apply Nat.ltb_ge in E. lia.
Qed.

(** Sortedness survives an insert of a number. *)
Lemma insert_sorted (C : nat) (b : SearchBuffer) (data_id : PID)
  (dist : float) :
  well_formed C b -> sorted_by_distance b -> numeric_entries b ->
  is_nan dist = false ->
  sorted_by_distance (insert b data_id dist) /\
  numeric_entries (insert b data_id dist).
Proof.
  intros W S N Hd. destruct (is_full_dist b dist) eqn:R.
  - rewrite insert_rejected by assumption. split; assumption.
  - pose proof (insert_slots C b data_id dist W R) as (_ & Hlt & Heq & Hgt & _).
    pose proof (binary_search_partition b dist S) as [Plo Phi].
    pose proof (binary_search_le_size b dist) as Hlo.
    pose proof (insert_size b data_id dist R) as Hsz.
    set (lo := binary_search b dist) in *.
    set (b' := insert b data_id dist) in *.
    assert (Hsz' : size_ b' <= size_ b + 1)
      by (rewrite Hsz; destruct (size_ b <? capacity_ b); simpl; lia).
    (* the distance found in each slot *)
    assert (D : forall k, k < size_ b' ->
              (k < lo /\ dist_at b' k = dist_at b k /\
               flt (dist_at b k) dist = true)
           \/ (k = lo /\ dist_at b' k = dist)
           \/ (lo < k /\ dist_at b' k = dist_at b (k - 1) /\
               flt (dist_at b (k - 1)) dist = false)).
    { intros k Hk. unfold dist_at.
      destruct (Nat.lt_trichotomy k lo) as [H|[H|H]].
      - left. rewrite Hlt by assumption. repeat split; auto. apply Plo; auto.
      - right; left. subst k. rewrite Heq. auto.
      - right; right. rewrite Hgt by lia. repeat split; auto.
        apply Phi; lia. }
    assert (GE : forall k, lo <= k -> k < size_ b ->
                           fle dist (dist_at b k) = true).
    { intros k H1 H2. rewrite fle_not_flt by auto. rewrite Phi by lia.
      reflexivity. }
    split.
    + intros i j Hij Hj.
      destruct (D i ltac:(lia)) as [(Hi & Ei & Fi)|[(Hi & Ei)|(Hi & Ei & Fi)]];
      destruct (D j Hj) as [(Hj' & Ej & Fj)|[(Hj' & Ej)|(Hj' & Ej & Fj)]];
        rewrite Ei, Ej; try lia.
      * apply S; lia.
      * apply flt_fle; assumption.
      * apply S; lia.
      * apply GE; lia.
      * apply S; lia.
    + intros k Hk.
      destruct (D k Hk) as [(Hi & Ei & Fi)|[(Hi & Ei)|(Hi & Ei & Fi)]];
        rewrite Ei; auto; apply N; lia.
Qed.

(** The cursor invariant survives an insert of an id with a clear high bit. *)
Lemma insert_cursor (C : nat) (b : SearchBuffer) (data_id : PID)
  (dist : float) :
  well_formed C b -> cursor_inv b -> high_bit_clear data_id ->
  cursor_inv (insert b data_id dist).
Proof.
  intros W (K1 & K2 & K3) Hid. destruct (is_full_dist b dist) eqn:R.
  - rewrite insert_rejected by assumption. exact (conj K1 (conj K2 K3)).
  - pose proof (insert_slots C b data_id dist W R) as (_ & Hlt & Heq & Hgt & _).
    pose proof (binary_search_le_size b dist) as Hlo.
    pose proof (insert_size b data_id dist R) as Hsz.
    pose proof (insert_cur b data_id dist R) as Hcur.
    destruct W as (Hc & Hl & Hs & Hcs).
    set (lo := binary_search b dist) in *.
    set (b' := insert b data_id dist) in *.
    assert (Hsz' : size_ b' <= size_ b + 1)
      by (rewrite Hsz; destruct (size_ b <? capacity_ b); simpl; lia).
    unfold cursor_inv, id_at. repeat split.
    + intros i Hi. rewrite Hlt by lia. apply K1. lia.
    + intros Hlt'. destruct (Nat.le_gt_cases lo (cur_ b)) as [L|G].
      * replace (cur_ b') with lo by lia. rewrite Heq. simpl.
        apply is_checked_clear. assumption.
      * replace (cur_ b') with (cur_ b) by lia. rewrite Hlt by lia.
        apply K2. lia.
    + destruct (Nat.lt_trichotomy i lo) as [H1|[H1|H1]].
      * rewrite Hlt by lia. apply K3. lia.
      * subst i. rewrite Heq. simpl. unfold high_bit_clear in Hid. lia.
      * rewrite Hgt by lia. apply K3. lia.
    + destruct (Nat.lt_trichotomy i lo) as [H1|[H1|H1]].
      * rewrite Hlt by lia. apply K3. lia.
      * subst i. rewrite Heq. simpl. unfold high_bit_clear in Hid. lia.
      * rewrite Hgt by lia. apply K3. lia.
Qed.

(** The skip loop of [pop] stops on the first unchecked entry at or after
    the index it starts from, or at [size]. *)
Lemma skip_checked_spec (data : list Candidate) (size : nat) :
  forall cur, cur <= size ->
    cur <= skip_checked data size cur /\
    skip_checked data size cur <= size /\
    (forall k, cur <= k -> k < skip_checked data size cur ->
               is_checked (id (at_ data k)) = true) /\
    (skip_checked data size cur < size ->
     is_checked (id (at_ data (skip_checked data size cur))) = false).
Proof.
  intros cur. remember (size - cur) as n eqn:Hn. revert cur Hn.
  induction n as [|n IH]; intros cur Hn Hle; rewrite skip_checked_unfold.
  - replace (cur <? size) with false by (symmetry; apply Nat.ltb_ge; lia).
    cbn [andb]. repeat split; try lia; intros; lia.
  - replace (cur <? size) with true by (symmetry; apply Nat.ltb_lt; lia).
    cbn [andb]. destruct (is_checked (id (at_ data cur))) eqn:E.
    + destruct (IH (S cur) ltac:(lia) ltac:(lia)) as (A1 & A2 & A3 & A4).
      repeat split; try lia; auto.
      intros k Hk1 Hk2. destruct (Nat.eq_dec k cur) as [->|]; [exact E|].
      apply A3; lia.
    + repeat split; try lia; auto; intros; lia.
Qed.

Lemma pop_slots (b : SearchBuffer) :
  cur_ b < length (data_ b) ->
  let b' := snd (pop b) in
  length (data_ b') = length (data_ b) /\
  size_ b' = size_ b /\ capacity_ b' = capacity_ b /\
  (forall k, dist_at b' k = dist_at b k) /\
  (forall k, k <> cur_ b -> id_at b' k = id_at b k) /\
  id_at b' (cur_ b) = set_checked (id_at b (cur_ b)).
Proof.
  intros H. unfold pop, dist_at, id_at, at_; simpl. repeat split.
  - apply store_length.
  - intros k. destruct (Nat.eq_dec k (cur_ b)) as [->|Hne].
    + rewrite nth_store_same by assumption. reflexivity.
    + rewrite nth_store_other by assumption. reflexivity.
  - intros k Hne. rewrite nth_store_other by assumption. reflexivity.
  - rewrite nth_store_same by assumption. reflexivity.
Qed.

Lemma pop_cur (b : SearchBuffer) :
  cur_ (snd (pop b)) =
  skip_checked (data_ (snd (pop b))) (size_ b) (cur_ b + 1).
Proof. reflexivity. Qed.

Lemma pop_well_formed (C : nat) (b : SearchBuffer) :
  well_formed C b -> has_next b = true -> well_formed C (snd (pop b)).
Proof.
  intros (Hc & Hl & Hs & Hcs) Hn. apply Nat.ltb_lt in Hn.
  pose proof (pop_slots b ltac:(lia)) as (L & Sz & Cp & _).
  pose proof (skip_checked_spec (data_ (snd (pop b))) (size_ b) (cur_ b + 1)
                ltac:(lia)) as (A1 & A2 & _).
  rewrite <- pop_cur in *.
  unfold well_formed. repeat split; lia.
Qed.

Lemma pop_sorted (b : SearchBuffer) :
  cur_ b < length (data_ b) ->
  sorted_by_distance b -> numeric_entries b ->
  sorted_by_distance (snd (pop b)) /\ numeric_entries (snd (pop b)).
Proof.
  intros H S N. pose proof (pop_slots b H) as (_ & Sz & _ & D & _).
  split.
  - intros i j Hij Hj. rewrite !D. apply S; [assumption|].
    rewrite <- Sz. exact Hj.
  - intros i Hi. rewrite D. apply N. rewrite <- Sz. exact Hi.
Qed.

Lemma pop_cursor (C : nat) (b : SearchBuffer) :
  well_formed C b -> cursor_inv b -> has_next b = true ->
  cursor_inv (snd (pop b)).
Proof.
  intros (Hc & Hl & Hs & Hcs) (K1 & K2 & K3) Hn. apply Nat.ltb_lt in Hn.
  pose proof (pop_slots b ltac:(lia)) as (L & Sz & Cp & _ & I1 & I2).
  pose proof (skip_checked_spec (data_ (snd (pop b))) (size_ b) (cur_ b + 1)
                ltac:(lia)) as (A1 & A2 & A3 & A4).
  rewrite <- pop_cur in *.
  set (b' := snd (pop b)) in *.
  unfold cursor_inv. repeat split.
  - intros i Hi. destruct (Nat.lt_trichotomy i (cur_ b)) as [H|[H|H]].
    + rewrite I1 by lia. apply K1. assumption.
    + subst i. rewrite I2. apply is_checked_set_checked.
    + apply A3; lia.
  - intros H. apply A4. lia.
  - destruct (Nat.eq_dec i (cur_ b)) as [->|Hne].
    + rewrite I2. apply set_checked_range. apply K3. lia.
    + rewrite I1 by assumption. apply K3. lia.
  - destruct (Nat.eq_dec i (cur_ b)) as [->|Hne].
    + rewrite I2. apply set_checked_range. apply K3. lia.
    + rewrite I1 by assumption. apply K3. lia.
Qed.

(** ** Invariants of every run *)

Lemma run_well_formed (C : nat) (ops : list op) :
  forall b b', well_formed C b -> run b ops = Some b' -> well_formed C b'.
Proof.
  induction ops as [|o ops IH]; intros b b' W R; simpl in R.
  - inversion R; subst; assumption.
  - destruct o as [data_id dist| |].
    + eapply IH; [|exact R]. apply insert_well_formed; assumption.
    + destruct (has_next b) eqn:Hn; [|discriminate].
      eapply IH; [|exact R]. apply pop_well_formed; assumption.
    + eapply IH; [|exact R]. apply well_formed_clear; assumption.
Qed.

Lemma run_sorted (C : nat) (ops : list op) :
  forall b b',
    well_formed C b -> sorted_by_distance b -> numeric_entries b ->
    numeric ops -> run b ops = Some b' ->
    sorted_by_distance b' /\ numeric_entries b'.
Proof.
  induction ops as [|o ops IH]; intros b b' W S N Hops R; simpl in R.
  - inversion R; subst; split; assumption.
  - inversion Hops as [|? ? Ho Hrest]; subst.
    destruct o as [data_id dist| |].
    + destruct (insert_sorted C b data_id dist W S N Ho) as [S' N'].
      eapply IH; [| | | |exact R]; auto. apply insert_well_formed; assumption.
    + destruct (has_next b) eqn:Hn; [|discriminate].
      assert (Hlen : cur_ b < length (data_ b)).
      { apply Nat.ltb_lt in Hn. destruct W as (? & ? & ? & ?). lia. }
      destruct (pop_sorted b Hlen S N) as [S' N'].
      eapply IH; [| | | |exact R]; auto. apply pop_well_formed; assumption.
    + eapply IH; [| | | |exact R]; auto.
      * apply well_formed_clear; assumption.
      * intros i j Hij Hj. simpl in Hj. lia.
      * intros i Hi. simpl in Hi. lia.
Qed.

Lemma run_cursor (C : nat) (ops : list op) :
  forall b b',
    well_formed C b -> cursor_inv b -> ids_clear ops ->
    run b ops = Some b' -> cursor_inv b'.
Proof.
  induction ops as [|o ops IH]; intros b b' W K Hops R; simpl in R.
  - inversion R; subst; assumption.
  - inversion Hops as [|? ? Ho Hrest]; subst.
    destruct o as [data_id dist| |].
    + eapply IH; [| | |exact R]; auto.
      * apply insert_well_formed; assumption.
      * apply (insert_cursor C); assumption.
    + destruct (has_next b) eqn:Hn; [|discriminate].
      eapply IH; [| | |exact R]; auto.
      * apply pop_well_formed; assumption.
      * apply (pop_cursor C); assumption.
    + eapply IH; [| | |exact R]; auto.
      * apply well_formed_clear; assumption.
      * unfold cursor_inv; simpl. repeat split; intros; lia.
Qed.

Lemma sorted_new (C : nat) : sorted_by_distance (new C).
Proof. intros i j Hij Hj. simpl in Hj. lia. Qed.

Lemma numeric_new (C : nat) : numeric_entries (new C).
Proof. intros i Hi. simpl in Hi. lia. Qed.

Lemma cursor_new (C : nat) : cursor_inv (new C).
Proof. unfold cursor_inv; simpl. repeat split; intros; lia. Qed.

End BufferFacts.

(** ** The beam buffer: sortedness and bound *)

Module BeamBufferProperties.
Import Defines Float32 Buffer BufferSpec.
Import Float32Facts ArrayFacts LoopFacts SearchFacts BitFacts BufferFacts.

(** C1, as the spec words it, fails: [insert] takes any [float], and after
    [insert(1, 1.0)], [insert(2, NaN)], [insert(3, 2.0)] on a buffer of
    capacity 3 the distances in slots 0, 1, 2 are 2.0, NaN, 1.0: slot 2 is
    strictly below slot 0. *)
Lemma beam_sorted_fails_with_nan :
  let ops := [Insert 1 (of_Z 1); Insert 2 S754_nan; Insert 3 (of_Z 2)] in
  exists b,
    run (new 3) ops = Some b /\ size_ b = 3 /\
    dist_at b 0 = of_Z 2 /\ dist_at b 1 = S754_nan /\ dist_at b 2 = of_Z 1 /\
    flt (dist_at b 2) (dist_at b 0) = true /\
    ~ (sorted_by_distance b /\ size_ b <= 3).
Proof.
  eexists. split; [vm_compute; reflexivity|].
  repeat split; try (vm_compute; reflexivity).
  intros [S _]. specialize (S 0 2 ltac:(lia) ltac:(simpl; lia)).
  vm_compute in S. discriminate.
Qed.

(** C1 (amended): starting from a fresh buffer of capacity C >= 1, after any
    sequence of insert, pop (only when [has_next()]) and clear calls,
    [size <= C]; and when no distance passed to [insert] is a NaN, the entries
    at indices [0, size) are non-decreasing by distance. *)
Theorem beam_sorted_and_bounded (C : nat) (ops : list op) (b : SearchBuffer) :
  1 <= C -> run (new C) ops = Some b ->
  size_ b <= C /\ (numeric ops -> sorted_by_distance b).
Proof.
  intros _ R. split.
  - destruct (run_well_formed C ops (new C) b (well_formed_new C) R)
      as (_ & _ & H & _). exact H.
  - intros N.
    apply (run_sorted C ops (new C) b (well_formed_new C) (sorted_new C)
                      (numeric_new C) N R).
Qed.

Lemma beam_sorted_and_bounded_witness :
  let ops := [Insert 5 (of_Z 2); Insert 7 (of_Z 1); Insert 9 (of_Z 3); Pop;
              Insert 11 (of_Z2 5 (-1)); Insert 13 (of_Z 4)] in
  let b := insert (insert (snd (pop (insert (insert (insert (new 3)
             5 (of_Z 2)) 7 (of_Z 1)) 9 (of_Z 3))))
             11 (of_Z2 5 (-1))) 13 (of_Z 4) in
  1 <= 3 /\ run (new 3) ops = Some b /\ numeric ops /\
  size_ b <= 3 /\ sorted_by_distance b.
Proof.
  intros ops b.
  assert (R : run (new 3) ops = Some b) by (vm_compute; reflexivity).
  assert (N : numeric ops) by (repeat constructor).
  pose proof (beam_sorted_and_bounded 3 ops b ltac:(lia) R) as H.
  exact (conj (le_S _ _ (le_S _ _ (le_n 1)))
              (conj R (conj N (conj (proj1 H) (proj2 H N))))).
Defined.

(** ** The beam buffer: pop *)

(** C2, as the spec words it, fails for the same reason: in the buffer with
    distances 2.0, NaN, 1.0 nothing is checked and [cur = 0], so [pop]
    returns id 3 of distance 2.0 although the unchecked entry of id 1 has
    distance 1.0. *)
Lemma pop_min_fails_with_nan :
  let ops := [Insert 1 (of_Z 1); Insert 2 S754_nan; Insert 3 (of_Z 2)] in
  exists b,
    ids_clear ops /\ run (new 3) ops = Some b /\ has_next b = true /\
    fst (pop b) = 3%Z /\ dist_at b (cur_ b) = of_Z 2 /\
    is_checked (id_at b 2) = false /\ dist_at b 2 = of_Z 1 /\
    ~ pop_returns_min_unchecked b.
Proof.
  eexists.
  split; [repeat constructor; unfold high_bit_clear; lia|].
  split; [vm_compute; reflexivity|].
  repeat split; try (vm_compute; reflexivity).
  intros (_ & _ & M & _).
  specialize (M 2 ltac:(simpl; lia) ltac:(vm_compute; reflexivity)).
  vm_compute in M. discriminate.
Qed.

(** C2 (amended): in every state reached from a fresh buffer of capacity
    C >= 1 by inserts of ids with a clear high bit and of distances that are
    not NaN, pops and clears, if [has_next()] holds then [pop()] returns the id
    of the unchecked entry with the smallest distance, with the checked bit
    clear in the returned value; this id is what [next_id()] returned before
    the call; afterwards the popped entry's stored id has the checked bit set
    and [cur] stands past every checked entry in front of it. *)
Theorem pop_yields_min_unchecked (C : nat) (ops : list op) (b : SearchBuffer) :
  1 <= C -> ids_clear ops -> numeric ops ->
  run (new C) ops = Some b -> has_next b = true ->
  pop_returns_min_unchecked b.
Proof.
  intros _ I N R Hn.
  pose proof (run_well_formed C ops (new C) b (well_formed_new C) R) as W.
  destruct (run_sorted C ops (new C) b (well_formed_new C) (sorted_new C)
                       (numeric_new C) N R) as [S Nb].
  pose proof (run_cursor C ops (new C) b (well_formed_new C) (cursor_new C) I R)
    as K.
  pose proof (pop_well_formed C b W Hn) as W'.
  pose proof (pop_cursor C b W K Hn) as (K1' & K2' & K3').
  destruct K as (K1 & K2 & K3).
  destruct W as (Hc & Hl & Hs & Hcs). destruct W' as (_ & _ & _ & Hcs').
  pose proof Hn as Hlt. apply Nat.ltb_lt in Hlt.
  pose proof (pop_slots b ltac:(lia)) as (_ & Sz & _ & _ & _ & I2).
  pose proof (skip_checked_spec (data_ (snd (pop b))) (size_ b) (cur_ b + 1)
                ltac:(lia)) as (A1 & _).
  rewrite <- pop_cur in A1.
  unfold pop_returns_min_unchecked.
  change (fst (pop b)) with (id_at b (cur_ b)).
  repeat split.
  - apply K2; assumption.
  - intros j Hj Hu. destruct (Nat.lt_trichotomy j (cur_ b)) as [H|[H|H]].
    + rewrite K1 in Hu by assumption. discriminate.
    + subst j. apply fle_refl. apply Nb. assumption.
    + apply S; assumption.
  - rewrite <- is_checked_high_bit by (apply K3; assumption).
    apply K2; assumption.
  - rewrite I2. apply high_bit_set_checked.
  - rewrite I2. apply is_checked_set_checked.
  - lia.
  - exact Hcs'.
  - exact K1'.
  - intros Hn'. apply K2'. apply Nat.ltb_lt in Hn'. exact Hn'.
Qed.

Lemma pop_yields_min_unchecked_witness :
  let ops := [Insert 5 (of_Z 2); Insert 7 (of_Z 1); Insert 9 (of_Z 3)] in
  let b := insert (insert (insert (new 3) 5 (of_Z 2)) 7 (of_Z 1)) 9 (of_Z 3) in
  1 <= 3 /\ ids_clear ops /\ numeric ops /\ run (new 3) ops = Some b /\
  has_next b = true /\ pop_returns_min_unchecked b.
Proof.
  intros ops b.
  assert (I : ids_clear ops)
    by (repeat constructor; unfold high_bit_clear; lia).
  assert (N : numeric ops) by (repeat constructor).
  assert (R : run (new 3) ops = Some b) by (vm_compute; reflexivity).
  assert (H : has_next b = true) by (vm_compute; reflexivity).
  exact (conj (le_S _ _ (le_S _ _ (le_n 1)))
              (conj I (conj N (conj R (conj H
                 (pop_yields_min_unchecked 3 ops b
                    (le_S _ _ (le_S _ _ (le_n 1))) I N R H)))))).
Defined.

(** ** The beam buffer: rejection when full *)

(** C3, as the spec words it, fails at the boundary: [is_full(dist)] is
    [dist > top_dist()], so a distance equal to [top_dist()] is inserted.  On
    a full buffer of capacity 1 holding (1, 1.0), [insert(2, 1.0)] replaces
    the entry. *)
Lemma insert_at_top_dist_changes_buffer :
  let b := insert (new 1) 1 (of_Z 1) in
  well_formed 1 b /\ size_ b = 1 /\ top_dist b = of_Z 1 /\
  fle (top_dist b) (of_Z 1) = true /\
  id_at b 0 = 1%Z /\ id_at (insert b 2 (of_Z 1)) 0 = 2%Z /\
  insert b 2 (of_Z 1) <> b.
Proof.
  intros b. split.
  - apply insert_well_formed, well_formed_new.
  - repeat split; try (vm_compute; reflexivity).
    intros E. apply (f_equal (fun x => id_at x 0)) in E.
    vm_compute in E. discriminate.
Qed.

(** C3 (amended): on a full buffer (size == C, C >= 1), [insert(id, dist)]
    with [dist > data[C-1].distance] returns with no effect: entries, size and
    cur are unchanged.  With any other [dist], in particular at the boundary
    [dist == top_dist()], the candidate is stored at the index the search
    returns and the size stays C. *)
Theorem insert_above_top_dist_no_effect (C : nat) (b : SearchBuffer)
  (data_id : PID) (dist : float) :
  1 <= C -> well_formed C b -> size_ b = C ->
  (fgt dist (dist_at b (C - 1)) = true -> insert b data_id dist = b) /\
  (fgt dist (dist_at b (C - 1)) = false ->
   at_ (data_ (insert b data_id dist)) (binary_search b dist)
     = mkCandidate data_id dist /\
   size_ (insert b data_id dist) = C).
Proof.
  intros HC W Hs.
  assert (T : top_dist b = dist_at b (C - 1)).
  { unfold top_dist, is_full. destruct W as (Hc & _).
    rewrite Hs, Hc, Nat.eqb_refl. reflexivity. }
  split; intros G.
  - apply insert_rejected. unfold is_full_dist. rewrite T. exact G.
  - assert (R : is_full_dist b dist = false)
      by (unfold is_full_dist; rewrite T; exact G).
    destruct (insert_slots C b data_id dist W R) as (_ & _ & E & _).
    split; [exact E|].
    rewrite insert_size by assumption. destruct W as (Hc & _).
    rewrite Hs, Hc, Nat.ltb_irrefl. simpl. lia.
Qed.

Lemma insert_above_top_dist_no_effect_witness :
  let b := insert (new 1) 1 (of_Z 1) in
  1 <= 1 /\ well_formed 1 b /\ size_ b = 1 /\
  fgt (of_Z 2) (dist_at b (1 - 1)) = true /\
  fgt (of_Z 1) (dist_at b (1 - 1)) = false /\
  insert b 2 (of_Z 2) = b /\
  at_ (data_ (insert b 2 (of_Z 1))) (binary_search b (of_Z 1))
    = mkCandidate 2 (of_Z 1) /\
  size_ (insert b 2 (of_Z 1)) = 1.
Proof.
  intros b.
  assert (W : well_formed 1 b) by (apply insert_well_formed, well_formed_new).
  assert (S1 : size_ b = 1) by (vm_compute; reflexivity).
  assert (G : fgt (of_Z 2) (dist_at b (1 - 1)) = true)
    by (vm_compute; reflexivity).
  assert (L : fgt (of_Z 1) (dist_at b (1 - 1)) = false)
    by (vm_compute; reflexivity).
  pose proof (insert_above_top_dist_no_effect 1 b 2 (of_Z 2) (le_n 1) W S1)
    as [H1 _].
  pose proof (insert_above_top_dist_no_effect 1 b 2 (of_Z 1) (le_n 1) W S1)
    as [_ H2].
  exact (conj (le_n 1) (conj W (conj S1 (conj G (conj L
           (conj (H1 G) (H2 L))))))).
Defined.

(** ** The beam buffer: results *)

Lemma copy_results_loop (data : list Candidate) (n : nat) :
  forall knn : list PID,
    n <= length knn ->
    let out := fold_left (fun out i => store out i (id (at_ data i)))
                         (seq 0 n) knn in
    length out = length knn /\
    (forall i, i < n -> nth i out 0%Z = id (at_ data i)) /\
    (forall i, n <= i -> nth i out 0%Z = nth i knn 0%Z).
Proof.
  induction n as [|n IH]; intros knn Hn.
  - simpl. repeat split; auto. intros; lia.
  - rewrite seq_S, fold_left_app. cbn [fold_left Nat.add].
    destruct (IH knn ltac:(lia)) as (L & A & B).
    set (out := fold_left _ (seq 0 n) knn) in *.
    repeat split.
    + rewrite store_length. exact L.
    + intros i Hi. destruct (Nat.eq_dec i n) as [->|Hne].
      * apply nth_store_same. lia.
      * rewrite nth_store_other by assumption. apply A. lia.
    + intros i Hi. rewrite nth_store_other by lia. apply B. lia.
Qed.

(** C4, as the spec words it, fails: [copy_results] copies the stored ids
    as they are.  After [insert(1, 1.0)] and [pop()] on a buffer of capacity 1
    it writes 2^31 + 1. *)
Lemma copy_results_keeps_checked_bit :
  let ops := [Insert 1 (of_Z 1); Pop] in
  exists b,
    ids_clear ops /\ run (new 1) ops = Some b /\ size_ b = 1 /\
    copy_results b [0%Z] = [(2 ^ 31 + 1)%Z] /\
    high_bit (nth 0 (copy_results b [0%Z]) 0%Z) = true.
Proof.
  eexists.
  split; [repeat constructor; unfold high_bit_clear; lia|].
  split; [vm_compute; reflexivity|].
  repeat split; vm_compute; reflexivity.
Qed.

(** C4 (amended): in every state reached from a fresh buffer of capacity
    C >= 1 by inserts of ids with a clear high bit, pops and clears,
    [copy_results(out)] writes to [out[0 .. size)] the stored ids of the
    entries in buffer order and leaves the rest of [out] alone.  The ids are
    not masked: the id written for an entry has its high bit set exactly when
    the entry is checked, which holds for every entry in front of [cur]; when
    no entry is checked no id written has its high bit set. *)
Theorem copy_results_writes_stored_ids (C : nat) (ops : list op)
  (b : SearchBuffer) (knn : list PID) :
  1 <= C -> ids_clear ops -> run (new C) ops = Some b ->
  size_ b <= length knn ->
  let out := copy_results b knn in
  length out = length knn /\
  (forall i, i < size_ b -> nth i out 0%Z = id_at b i) /\
  (forall i, size_ b <= i -> nth i out 0%Z = nth i knn 0%Z) /\
  (forall i, i < size_ b ->
             high_bit (nth i out 0%Z) = is_checked (id_at b i)) /\
  (forall i, i < cur_ b -> high_bit (nth i out 0%Z) = true) /\
  ((forall i, i < size_ b -> is_checked (id_at b i) = false) ->
   forall i, i < size_ b -> high_bit (nth i out 0%Z) = false).
Proof.
  intros _ I R Hk out.
  pose proof (run_well_formed C ops (new C) b (well_formed_new C) R)
    as (_ & _ & _ & Hcs).
  pose proof (run_cursor C ops (new C) b (well_formed_new C) (cursor_new C) I R)
    as (K1 & _ & K3).
  destruct (copy_results_loop (data_ b) (size_ b) knn Hk) as (L & A & B).
  fold (copy_results b knn) in L, A, B. fold out in L, A, B.
  assert (HB : forall i, i < size_ b ->
                 high_bit (nth i out 0%Z) = is_checked (id_at b i)).
  { intros i Hi. rewrite A by assumption. fold (id_at b i).
    symmetry. apply is_checked_high_bit. apply K3. assumption. }
  split; [exact L|]. split; [exact A|]. split; [exact B|].
  split; [exact HB|]. split.
  - intros i Hi. rewrite HB by lia. apply K1. assumption.
  - intros U i Hi. rewrite HB by assumption. apply U. assumption.
Qed.

Lemma copy_results_writes_stored_ids_witness :
  let ops := [Insert 5 (of_Z 2); Insert 7 (of_Z 1); Insert 9 (of_Z 3); Pop] in
  let b := snd (pop (insert (insert (insert (new 3)
                       5 (of_Z 2)) 7 (of_Z 1)) 9 (of_Z 3))) in
  let knn := [0%Z; 0%Z; 0%Z; 0%Z] in
  1 <= 3 /\ ids_clear ops /\ run (new 3) ops = Some b /\
  size_ b <= length knn /\
  copy_results b knn = [(2 ^ 31 + 7)%Z; 5%Z; 9%Z; 0%Z] /\
  (forall i, i < size_ b -> nth i (copy_results b knn) 0%Z = id_at b i).
Proof.
  intros ops b knn.
  assert (I : ids_clear ops)
    by (repeat constructor; unfold high_bit_clear; lia).
  assert (R : run (new 3) ops = Some b) by (vm_compute; reflexivity).
  assert (S3 : size_ b <= length knn) by (vm_compute; lia).
  assert (E : copy_results b knn = [(2 ^ 31 + 7)%Z; 5%Z; 9%Z; 0%Z])
    by (vm_compute; reflexivity).
  pose proof (copy_results_writes_stored_ids 3 ops b knn
                (le_S _ _ (le_S _ _ (le_n 1))) I R S3) as H.
  exact (conj (le_S _ _ (le_S _ _ (le_n 1)))
           (conj I (conj R (conj S3 (conj E (proj1 (proj2 H))))))).
Defined.

(** ** The beam buffer: insert in front of the cursor *)

(** C5, as the spec words it, fails once a NaN is stored: the ladder search
    then runs on entries that are not sorted.  On a buffer of capacity 6
    holding the distances 2.0, NaN, 1.0, NaN, NaN, NaN with [cur = 0],
    [insert(8, 1.5)] is accepted ([1.5 > NaN] is false) and 1.5 < 2.0, but the
    search returns 3: the candidate is stored at index 3 and [cur] stays 0. *)
Lemma insert_before_cursor_fails_with_nan :
  let ops := [Insert 1 S754_nan; Insert 2 S754_nan; Insert 3 S754_nan;
              Insert 4 S754_nan; Insert 5 (of_Z 1); Insert 6 S754_nan;
              Insert 7 (of_Z 2)] in
  let dist := of_Z2 3 (-1) in
  exists b,
    run (new 6) ops = Some b /\
    flt dist (dist_at b (cur_ b)) = true /\ is_full_dist b dist = false /\
    binary_search b dist = 3 /\
    at_ (data_ (insert b 8 dist)) 3 = mkCandidate 8 dist /\
    cur_ (insert b 8 dist) = 0 /\
    next_id (insert b 8 dist) = 7%Z /\
    at_ (data_ (insert b 8 dist)) (cur_ (insert b 8 dist))
      <> mkCandidate 8 dist.
Proof.
  eexists. split; [vm_compute; reflexivity|].
  repeat split; try (vm_compute; reflexivity).
  vm_compute. discriminate.
Qed.

(** C5 (amended): in every state reached from a fresh buffer of capacity
    C >= 1 by inserts of distances that are not NaN, pops and clears, if
    [insert(id, dist)] is called with [dist < data[cur].distance] and is not
    rejected, then afterwards [cur] is the index of the new entry (the index
    the search returned, where the candidate now sits).  Concretely, on a
    buffer of capacity 4, after insert (1, 1.0), (2, 2.0), (3, 3.0), a pop
    (which returns 1) and insert (4, 0.5): [next_id()] is 4 and the next pops
    return 4, 2, 3. *)
Theorem insert_before_cursor_resets_cursor :
  (forall (C : nat) (ops : list op) (b : SearchBuffer)
          (data_id : PID) (dist : float),
     1 <= C -> numeric ops -> run (new C) ops = Some b ->
     flt dist (dist_at b (cur_ b)) = true ->
     is_full_dist b dist = false ->
     cur_ (insert b data_id dist) = binary_search b dist /\
     at_ (data_ (insert b data_id dist)) (cur_ (insert b data_id dist))
       = mkCandidate data_id dist /\
     next_id (insert b data_id dist) = data_id) /\
  (let b3 := insert (insert (insert (new 4) 1 (of_Z 1)) 2 (of_Z 2))
                    3 (of_Z 3) in
   let b4 := insert (snd (pop b3)) 4 (of_Z2 1 (-1)) in
   fst (pop b3) = 1%Z /\
   next_id b4 = 4%Z /\
   fst (pop b4) = 4%Z /\
   fst (pop (snd (pop b4))) = 2%Z /\
   fst (pop (snd (pop (snd (pop b4))))) = 3%Z /\
   has_next (snd (pop (snd (pop (snd (pop b4)))))) = false).
Proof.
  split.
  - intros C ops b data_id dist _ N R Hlt Hacc.
    pose proof (run_well_formed C ops (new C) b (well_formed_new C) R) as W.
    destruct (run_sorted C ops (new C) b (well_formed_new C) (sorted_new C)
                         (numeric_new C) N R) as [S _].
    destruct (binary_search_partition b dist S) as [Plo _].
    pose proof (binary_search_le_size b dist) as Hlo.
    destruct (insert_slots C b data_id dist W Hacc) as (_ & _ & E & _).
    assert (Hle : binary_search b dist <= cur_ b).
    { destruct (Nat.le_gt_cases (binary_search b dist) (cur_ b)) as [L|G];
        [exact L|].
      specialize (Plo (cur_ b) G).
      rewrite (flt_asym _ _ Hlt) in Plo. discriminate. }
    assert (Hc : cur_ (insert b data_id dist) = binary_search b dist)
      by (rewrite insert_cur by assumption; lia).
    split; [exact Hc|].
    unfold next_id. rewrite Hc, E. split; reflexivity.
  - repeat split; vm_compute; reflexivity.
Qed.

Lemma insert_before_cursor_resets_cursor_witness :
  let ops := [Insert 1 (of_Z 1); Insert 2 (of_Z 2); Insert 3 (of_Z 3); Pop] in
  let b := snd (pop (insert (insert (insert (new 4)
                       1 (of_Z 1)) 2 (of_Z 2)) 3 (of_Z 3))) in
  let dist := of_Z2 1 (-1) in
  1 <= 4 /\ numeric ops /\ run (new 4) ops = Some b /\
  flt dist (dist_at b (cur_ b)) = true /\ is_full_dist b dist = false /\
  cur_ (insert b 4 dist) = binary_search b dist /\
  at_ (data_ (insert b 4 dist)) (cur_ (insert b 4 dist)) = mkCandidate 4 dist /\
  next_id (insert b 4 dist) = 4%Z.
Proof.
  intros ops b dist.
  assert (N : numeric ops) by (repeat constructor).
  assert (R : run (new 4) ops = Some b) by (vm_compute; reflexivity).
  assert (L : flt dist (dist_at b (cur_ b)) = true)
    by (vm_compute; reflexivity).
  assert (A : is_full_dist b dist = false) by (vm_compute; reflexivity).
  exact (conj (le_S _ _ (le_S _ _ (le_S _ _ (le_n 1))))
           (conj N (conj R (conj L (conj A
              (proj1 insert_before_cursor_resets_cursor 4 ops b 4%Z dist
                 (le_S _ _ (le_S _ _ (le_S _ _ (le_n 1)))) N R L A)))))).
Defined.

(** ** The beam buffer: resize *)

(** C10: [resize(C')] replaces the storage by C' + 1 value-initialised
    candidates and sets the capacity to C'; [size] and [cur] keep their
    values, so [has_next()] answers as before the call.  It is not [clear()]:
    after one insert, [resize] leaves [has_next()] true over the fresh
    storage, while [clear()] makes it false. *)
Theorem resize_keeps_size_and_cur :
  (forall (b : SearchBuffer) (C' : nat),
     data_ (resize b C') = repeat Candidate_zero (C' + 1) /\
     capacity_ (resize b C') = C' /\
     size_ (resize b C') = size_ b /\
     cur_ (resize b C') = cur_ b /\
     has_next (resize b C') = has_next b) /\
  (forall C' : nat,
     let b := insert (new 1) 7 (of_Z 1) in
     run (new 1) [Insert 7 (of_Z 1)] = Some b /\
     has_next (resize b C') = true /\
     has_next (clear b) = false /\
     (forall i, at_ (data_ (resize b C')) i = Candidate_zero) /\
     resize b C' <> clear (resize b C')).
Proof.
  split.
  - intros b C'. repeat split.
  - intros C' b. split; [reflexivity|].
    split; [vm_compute; reflexivity|].
    split; [vm_compute; reflexivity|].
    split.
    + intros i. unfold resize, at_. simpl data_.
      destruct (Nat.lt_ge_cases i (C' + 1)) as [L|G].
      * apply nth_repeat_lt. exact L.
      * apply nth_overflow. rewrite repeat_length. exact G.
    + intros E. apply (f_equal size_) in E. vm_compute in E. discriminate.
Qed.

End BeamBufferProperties.

(** ** Aligned allocation *)

Module MemoryProperties.
Import Memory.

(** What [align_mm] returns: the block of the allocator with its first
    [size] bytes (not [size * sizeof(T)] bytes) set to zero. *)
Lemma align_mm_contents (aligned_alloc : nat -> nat -> option (list byte))
  (alignment sizeof_T : nat) (HUGE_PAGE : bool) (size : nat) (p : list byte) :
  aligned_alloc alignment (rd_up_to_multiple_of (size * sizeof_T) alignment)
    = Some p ->
  align_mm aligned_alloc alignment sizeof_T HUGE_PAGE size
    = Some (repeat x00 size ++ skipn size p).
Proof.
  intros H. unfold align_mm. rewrite H.
  destruct HUGE_PAGE; reflexivity.
Qed.

(** C8 (the code falls short of the claim): [align_mm<64, float>(16)] asks
    for 64 bytes and runs [memset(p, 0, 16)]: only the first 16 of the
    16 * 4 bytes of the buffer are zeroed, bytes 16 .. 63 keep what the
    allocator left there, here [0xff]. *)
Theorem align_mm_zeroes_only_size_bytes :
  rd_up_to_multiple_of (16 * 4) 64 = 64 /\
  align_mm dirty_alloc 64 4 false 16
    = Some (repeat x00 16 ++ repeat xff 48) /\
  align_mm dirty_alloc 64 4 false 16 <> Some (repeat x00 (16 * 4)) /\
  option_map (fun buf => nth 16 buf x00)
             (align_mm dirty_alloc 64 4 false 16) = Some xff.
Proof.
  split; [reflexivity|]. split; [reflexivity|]. split.
  - vm_compute. discriminate.
  - reflexivity.
Qed.

End MemoryProperties.

(** ** Floating-point facts the estimators need *)

Module ArithFacts.
Import Float32 Eigen EstimatorSpec.

Lemma binary_round_aux_not_neg_zero (m e : Z) (l : location) :
  binary_round_aux prec emax false m e l <> S754_zero true.
Proof.
  unfold binary_round_aux.
  destruct (shr_fexp prec emax m e l) as [mrs e'].
  destruct (shr_fexp prec emax _ e' loc_Exact) as [mrs' e''].
  destruct (shr_m mrs'); try destruct (Z.leb e'' (emax - prec)); discriminate.
Qed.

(** A square is never [-0]. *)
Lemma fmul_self_not_neg_zero (x : float) : fmul x x <> S754_zero true.
Proof.
  destruct x as [s|s| |s m e]; simpl; try discriminate.
  - destruct s; discriminate.
  - unfold fmul; simpl. destruct s; apply binary_round_aux_not_neg_zero.
Qed.

Lemma fadd_zero_r (y : float) : y <> S754_zero true -> fadd y fzero = y.
Proof.
  destruct y as [[|]|s| |s m e]; intros H; try reflexivity.
  contradiction H; reflexivity.
Qed.

Lemma sum_zeros (l : list float) (acc : float) :
  acc = fzero -> Forall (fun c => c = fzero) l -> fold_left fadd l acc = fzero.
Proof.
  revert acc. induction l as [|c l IH]; intros acc Ha Hl; simpl.
  - exact Ha.
  - inversion Hl as [|? ? Hc Hr]; subst. apply IH; [reflexivity|exact Hr].
Qed.

Lemma vmul_self_zero (v : FloatVec) :
  zero_vec v -> Forall (fun c => c = fzero) (vmul v v).
Proof.
  induction v as [|c v IH]; intros H; simpl; constructor;
    inversion H as [|? ? [s Hc] Hr]; subst.
  - destruct s; reflexivity.
  - apply IH. exact Hr.
Qed.

Lemma vsub_zero (a b : FloatVec) :
  zero_vec a -> zero_vec b -> zero_vec (vsub a b).
Proof.
  revert b. induction a as [|x a IH]; intros [|y b] Ha Hb; simpl;
    try constructor;
    inversion Ha as [|? ? [sx Hx] Hra]; inversion Hb as [|? ? [sy Hy] Hrb];
    subst.
  - destruct sx, sy; eexists; reflexivity.
  - apply IH; assumption.
Qed.

Lemma squaredNorm_zero (v : FloatVec) : zero_vec v -> squaredNorm v = fzero.
Proof.
  intros H. unfold squaredNorm, dot, sum.
  apply sum_zeros; [reflexivity|]. apply vmul_self_zero. exact H.
Qed.

End ArithFacts.

(** ** The cluster estimator *)

Module ClusterEstimatorProperties.
Import Float32 Defines Eigen Simd Quantization Estimator EstimatorSpec.
Import ArithFacts.
Import CaqCluEstimator.

(** C6 (the code falls short of the claim): with B >= 1, a call of
    [compFastDist] with a null [fst_distances] returns before the statement
    that adds to [fast_bitsum], so the counter keeps its value; only a call
    with an output array adds [32 * D] (modulo 2^64). *)
Theorem compFastDist_counts_only_with_output (K : Kernels) (e : t)
  (block_idx : nat) :
  num_bits_ e <> 0%Z ->
  fast_bitsum (runtime_statics_ (fst (compFastDist K e block_idx None)))
    = fast_bitsum (runtime_statics_ e) /\
  (forall out,
     fast_bitsum
       (runtime_statics_ (fst (compFastDist K e block_idx (Some out))))
       = size_t_wrap (fast_bitsum (runtime_statics_ e)
                      + size_t_wrap (32 * num_dim_padded_ e))).
Proof.
  intros HB. apply Z.eqb_neq in HB. unfold compFastDist. rewrite HB.
  destruct (Lut_compFastIP K (lut_ e) _ _) as [lut [d0 d1]].
  split; [reflexivity|]. intros out. reflexivity.
Qed.

Lemma compFastDist_counts_only_with_output_witness :
  exists e,
    new L2Sqr (data64 1 true) (cfg_of L2Sqr) query0 = inr e /\
    num_bits_ (prepare e cluster_0) <> 0%Z /\
    fast_bitsum (runtime_statics_ (prepare e cluster_0)) = 0%Z /\
    fast_bitsum (runtime_statics_
      (fst (compFastDist zero_kernels (prepare e cluster_0) 0 None))) = 0%Z /\
    fast_bitsum (runtime_statics_
      (fst (compFastDist zero_kernels (prepare e cluster_0) 0
              (Some (mm512_setzero_ps, mm512_setzero_ps))))) = 2048%Z.
Proof.
  eexists. split; [vm_compute; reflexivity|].
  match goal with |- ?nz /\ _ =>
    assert (HB : nz) by (vm_compute; discriminate) end.
  split; [exact HB|]. split; [vm_compute; reflexivity|].
  match goal with |- context [compFastDist _ ?e _ None] =>
    pose proof (compFastDist_counts_only_with_output zero_kernels e 0 HB)
      as [H1 H2] end.
  split.
  - rewrite H1. vm_compute. reflexivity.
  - rewrite H2. vm_compute. reflexivity.
Defined.

(** C7, as the spec words it, fails: in L2 mode [prepare] hands the table
    [query - centroid], so [q_l2sqr] is the squared distance between query and
    centroid.  With the zero query, B = 0, the centroid (1, 0, ..., 0) and a
    vector of norm 2, [compAccurateDist] returns 5, not 2 * 2 = 4. *)
Lemma compAccurateDist_zero_query_depends_on_centroid :
  exists e,
    new L2Sqr (data64 0 true) (cfg_of L2Sqr) query0 = inr e /\
    isIpDist e = false /\ num_bits_ e = 0%Z /\ zero_vec (query_data_ e) /\
    nth (3 mod KFastScanSize)
        (factor_o_l2norm cluster_e1 (3 / KFastScanSize)) fzero = of_Z 2 /\
    fmul (of_Z 2) (of_Z 2) = of_Z 4 /\
    fst (compAccurateDist zero_kernels (prepare e cluster_e1) 3) = of_Z 5 /\
    fst (compAccurateDist zero_kernels (prepare e cluster_e1) 3)
      <> fmul (of_Z 2) (of_Z 2).
Proof.
  eexists. split; [vm_compute; reflexivity|].
  split; [reflexivity|]. split; [reflexivity|].
  split; [repeat constructor; eexists; reflexivity|].
  repeat split; try (vm_compute; reflexivity).
  vm_compute. discriminate.
Qed.

(** C7 (amended): in L2-squared mode with B = 0, after [prepare(cluster)],
    [compAccurateDist] returns, for a vector whose stored centroid-relative
    norm is x, [x * x + |query - centroid|^2].  With the zero query this is
    [x * x + |centroid|^2]; it is [x * x] when the centroid is the zero vector
    too. *)
Theorem compAccurateDist_zero_bits_l2 (K : Kernels) (e : t)
  (cluster : CAQClusterData) (vec_idx : nat) :
  num_bits_ e = 0%Z -> isIpDist e = false ->
  let x := nth (vec_idx mod KFastScanSize)
               (factor_o_l2norm cluster (vec_idx / KFastScanSize)) fzero in
  fst (compAccurateDist K (prepare e cluster) vec_idx)
    = fadd (fmul x x) (squaredNorm (vsub (query_data_ e) (centroid cluster))) /\
  (zero_vec (query_data_ e) -> zero_vec (centroid cluster) ->
   fst (compAccurateDist K (prepare e cluster) vec_idx) = fmul x x).
Proof.
  intros HB HL x.
  assert (E : fst (compAccurateDist K (prepare e cluster) vec_idx)
              = fadd (fmul x x)
                     (squaredNorm (vsub (query_data_ e) (centroid cluster)))).
  { unfold compAccurateDist, prepare. rewrite HL. simpl.
    unfold isIpDist. simpl. fold (isIpDist e). rewrite HB, HL. simpl.
    reflexivity. }
  split; [exact E|].
  intros Hq Hc. rewrite E.
  rewrite squaredNorm_zero by (apply vsub_zero; assumption).
  apply fadd_zero_r. apply fmul_self_not_neg_zero.
Qed.

Lemma compAccurateDist_zero_bits_l2_witness :
  exists e,
    new L2Sqr (data64 0 true) (cfg_of L2Sqr) query0 = inr e /\
    num_bits_ e = 0%Z /\ isIpDist e = false /\
    zero_vec (query_data_ e) /\ zero_vec (centroid cluster_0) /\
    fst (compAccurateDist zero_kernels (prepare e cluster_e1) 3)
      = fadd (fmul (of_Z 2) (of_Z 2))
             (squaredNorm (vsub (query_data_ e) (centroid cluster_e1))) /\
    fst (compAccurateDist zero_kernels (prepare e cluster_0) 3)
      = fmul (of_Z 2) (of_Z 2).
Proof.
  eexists. split; [vm_compute; reflexivity|].
  match goal with |- num_bits_ ?e = _ /\ _ =>
    assert (HB : num_bits_ e = 0%Z) by reflexivity;
    assert (HL : isIpDist e = false) by reflexivity;
    assert (HQ : zero_vec (query_data_ e))
      by (repeat constructor; eexists; reflexivity);
    assert (HC : zero_vec (centroid cluster_0))
      by (repeat constructor; eexists; reflexivity);
    pose proof (compAccurateDist_zero_bits_l2 zero_kernels e cluster_e1 3 HB HL)
      as [H1 _];
    pose proof (compAccurateDist_zero_bits_l2 zero_kernels e cluster_0 3 HB HL)
      as [_ H2]
  end.
  exact (conj HB (conj HL (conj HQ (conj HC (conj H1 (H2 HQ HC)))))).
Defined.

End ClusterEstimatorProperties.

(** ** The single-vector cluster estimator *)

Module SingleEstimatorProperties.
Import Float32 Defines Eigen Simd Quantization Estimator EstimatorSpec.
Import CaqCluEstimatorSingle.

(** C9: in inner-product mode [prepare(cluster)] always ends by throwing
    [std::runtime_error("not implemented yet")] to its caller; the base-class
    [prepare] is not run, so the prepared query state is what it was (only the
    cluster pointer has been stored).  In L2-squared mode it returns after
    running the base-class [prepare] on [query - centroid]. *)
Theorem prepare_ip_unimplemented (K : Kernels) (e : t)
  (cluster : CAQClusterData) :
  (isIpDist e = true ->
   snd (prepare K e cluster) = Thrown "not implemented yet" /\
   Impl (fst (prepare K e cluster)) = Impl e /\
   query_data_ (fst (prepare K e cluster)) = query_data_ e /\
   curr_cluster_ (fst (prepare K e cluster)) = Some cluster) /\
  (isIpDist e = false ->
   snd (prepare K e cluster) = Returned /\
   Impl (fst (prepare K e cluster))
     = CaqEstimatorSingleImpl.prepare K (Impl e)
         (vsub (query_data_ e) (centroid cluster)) /\
   CaqEstimatorSingleImpl.curr_query_ (Impl (fst (prepare K e cluster)))
     = vsub (query_data_ e) (centroid cluster) /\
   query_data_ (fst (prepare K e cluster)) = query_data_ e /\
   curr_cluster_ (fst (prepare K e cluster)) = Some cluster).
Proof.
  split; intros H; unfold prepare;
    change (isIpDist (mk (Impl e) (query_data_ e) (Some cluster)))
      with (isIpDist e);
    rewrite H; simpl; repeat split.
Qed.

Lemma prepare_ip_unimplemented_witness :
  exists e_ip e_l2,
    new IP (data64 4 false) (cfg_of IP) query0 = inr e_ip /\
    new L2Sqr (data64 4 false) (cfg_of L2Sqr) query0 = inr e_l2 /\
    isIpDist e_ip = true /\ isIpDist e_l2 = false /\
    snd (prepare zero_kernels e_ip cluster_e1) = Thrown "not implemented yet" /\
    Impl (fst (prepare zero_kernels e_ip cluster_e1)) = Impl e_ip /\
    snd (prepare zero_kernels e_l2 cluster_e1) = Returned /\
    CaqEstimatorSingleImpl.curr_query_
      (Impl (fst (prepare zero_kernels e_l2 cluster_e1)))
      = vsub (query_data_ e_l2) (centroid cluster_e1).
Proof.
  eexists. eexists.
  split; [vm_compute; reflexivity|]. split; [vm_compute; reflexivity|].
  match goal with |- isIpDist ?a = true /\ isIpDist ?b = false /\ _ =>
    assert (HA : isIpDist a = true) by reflexivity;
    assert (HB : isIpDist b = false) by reflexivity;
    pose proof (prepare_ip_unimplemented zero_kernels a cluster_e1) as [P1 _];
    pose proof (prepare_ip_unimplemented zero_kernels b cluster_e1) as [_ P2]
  end.
  destruct (P1 HA) as (T1 & T2 & _). destruct (P2 HB) as (R1 & _ & R3 & _).
  exact (conj HA (conj HB (conj T1 (conj T2 (conj R1 R3))))).
Defined.

End SingleEstimatorProperties.

(** ** More on the beam buffer *)

Module BufferUseFacts.
Import Defines Float32 Buffer BufferSpec BufferUse.
Import Float32Facts ArrayFacts LoopFacts SearchFacts BitFacts BufferFacts.

Lemma top_dist_full (b : SearchBuffer) :
  size_ b = capacity_ b -> top_dist b = dist_at b (size_ b - 1).
Proof.
  intros H. unfold top_dist, is_full. rewrite H, Nat.eqb_refl. reflexivity.
Qed.

Lemma top_dist_not_full (b : SearchBuffer) :
  size_ b <> capacity_ b -> top_dist b = FLT_MAX.
Proof.
  intros H. unfold top_dist, is_full.
  destruct (Nat.eqb_spec (size_ b) (capacity_ b)); [contradiction|reflexivity].
Qed.

Lemma FLT_MAX_numeric : is_nan FLT_MAX = false.
Proof. reflexivity. Qed.

Lemma fle_of_not_flt (a b : float) :
  is_nan a = false -> is_nan b = false -> flt b a = false -> fle a b = true.
Proof.
  intros Ha Hb H. rewrite fle_not_flt by assumption. rewrite H. reflexivity.
Qed.

(** An accepted distance is at most [top_dist()]. *)
Lemma accepted_le_top (b : SearchBuffer) (dist : float) :
  is_nan dist = false -> is_nan (top_dist b) = false ->
  is_full_dist b dist = false -> fle dist (top_dist b) = true.
Proof.
  intros Hd Ht H. apply fle_of_not_flt; assumption.
Qed.

Lemma ordered_top_numeric (C : nat) (b : SearchBuffer) :
  1 <= C -> ordered_state C b -> is_nan (top_dist b) = false.
Proof.
  intros HC ((Hc & Hl & Hs & Hcs) & S & N & B).
  destruct (Nat.eq_dec (size_ b) (capacity_ b)) as [E|E].
  - rewrite top_dist_full by assumption. apply N. lia.
  - rewrite top_dist_not_full by assumption. reflexivity.
Qed.

(** In an ordered state [top_dist()] bounds every entry and is at most
    [FLT_MAX]. *)
Lemma ordered_top_bounds (C : nat) (b : SearchBuffer) :
  1 <= C -> ordered_state C b ->
  (forall k, k < size_ b -> fle (dist_at b k) (top_dist b) = true) /\
  fgt (top_dist b) FLT_MAX = false.
Proof.
  intros HC ((Hc & Hl & Hs & Hcs) & S & N & B).
  destruct (Nat.eq_dec (size_ b) (capacity_ b)) as [E|E].
  - rewrite top_dist_full by assumption. split.
    + intros k Hk. destruct (Nat.eq_dec k (size_ b - 1)) as [->|Hne].
      * apply fle_refl. apply N. lia.
      * apply S; lia.
    + apply B. lia.
  - rewrite top_dist_not_full by assumption. split.
    + intros k Hk. apply fle_of_not_flt; auto. apply (B k Hk).
    + apply flt_irrefl.
Qed.

Lemma ordered_new (C : nat) : ordered_state C (new C).
Proof.
  split; [apply well_formed_new|]. split; [apply sorted_new|].
  split; [apply numeric_new|]. intros k Hk. simpl in Hk. lia.
Qed.

Lemma ordered_clear (C : nat) (b : SearchBuffer) :
  ordered_state C b -> ordered_state C (clear b).
Proof.
  intros (W & _). split; [apply well_formed_clear; exact W|].
  split; [intros i j Hij Hj; simpl in Hj; lia|].
  split; intros k Hk; simpl in Hk; lia.
Qed.

Lemma ordered_pop (C : nat) (b : SearchBuffer) :
  ordered_state C b -> has_next b = true -> ordered_state C (snd (pop b)).
Proof.
  intros (W & S & N & B) Hn.
  assert (Hlen : cur_ b < length (data_ b)).
  { apply Nat.ltb_lt in Hn. destruct W as (? & ? & ? & ?). lia. }
  destruct (pop_sorted b Hlen S N) as [S' N'].
  destruct (pop_slots b Hlen) as (_ & Sz & _ & D & _).
  split; [apply pop_well_formed; assumption|].
  split; [exact S'|]. split; [exact N'|].
  intros k Hk. rewrite D. apply B. rewrite <- Sz. exact Hk.
Qed.

(** Where each entry of the buffer comes from after an accepted insert. *)
Lemma insert_entries (C : nat) (b : SearchBuffer) (data_id : PID)
  (dist : float) :
  1 <= C -> well_formed C b -> is_full_dist b dist = false ->
  let lo := binary_search b dist in
  let b' := insert b data_id dist in
  lo <= size_ b /\ lo < size_ b' /\ size_ b' <= size_ b + 1 /\
  size_ b <= size_ b' /\
  (size_ b < C -> size_ b' = size_ b + 1) /\
  (size_ b = C -> size_ b' = C) /\
  at_ (data_ b') lo = mkCandidate data_id dist /\
  (forall k, k < lo -> at_ (data_ b') k = at_ (data_ b) k) /\
  (forall k, lo < k -> k < size_ b' ->
             at_ (data_ b') k = at_ (data_ b) (k - 1)).
Proof.
  intros HC W R lo b'.
  destruct (insert_slots C b data_id dist W R) as (_ & Hlt & Heq & Hgt & _).
  pose proof (binary_search_le_size b dist) as Hlo.
  fold lo in Hlo, Hlt, Heq, Hgt.
  pose proof (insert_size b data_id dist R) as Hsz.
  fold b' in Hsz, Hlt, Heq, Hgt.
  destruct W as (Hc & Hl & Hs & Hcs).
  assert (Hfull : size_ b = C -> lo < C).
  { intros E. destruct (Nat.lt_ge_cases lo C) as [L|G]; [exact L|].
    exfalso. assert (lo = size_ b) by lia.
    (* all entries sit below dist, so in particular the last one *)
    assert (R' : flt (dist_at b (size_ b - 1)) dist = false)
      by (rewrite <- top_dist_full by lia; exact R).
    unfold lo, binary_search in H.
    pose proof (binary_search_loop_window (data_ b) dist (size_ b) 0) as [_ Hw].
    set (l0 := binary_search_loop (data_ b) dist 0 (size_ b)) in *.
    destruct (l0 <? size_ b) eqn:E1; simpl in H.
    - apply Nat.ltb_lt in E1.
      destruct (flt (distance (at_ (data_ b) l0)) dist) eqn:E2.
      + assert (l0 = size_ b - 1) by lia. subst l0.
        unfold dist_at in R'. rewrite H0 in E2. rewrite E2 in R'. discriminate.
      + lia.
    - apply Nat.ltb_ge in E1.
      replace (0 <? size_ b) with true in Hw
        by (symmetry; apply Nat.ltb_lt; lia).
      simpl in Hw. lia. }
  destruct (size_ b <? capacity_ b) eqn:E; simpl in Hsz.
  - apply Nat.ltb_lt in E. repeat split; try lia; auto.
    intros k H1 H2. apply Hgt; lia.
  - apply Nat.ltb_ge in E. assert (size_ b = C) by lia.
    specialize (Hfull H). repeat split; try lia; auto.
    intros k H1 H2. apply Hgt; lia.
Qed.

End BufferUseFacts.

Module BufferRetention.
Import Defines Float32 Buffer BufferSpec BufferUse.
Import Float32Facts ArrayFacts LoopFacts SearchFacts BitFacts BufferFacts.
Import BufferUseFacts.

Lemma ordered_insert (C : nat) (b : SearchBuffer) (data_id : PID)
  (dist : float) :
  1 <= C -> ordered_state C b -> is_nan dist = false ->
  ordered_state C (insert b data_id dist).
Proof.
  intros HC O Hd. pose proof O as (W & S & N & B).
  destruct (insert_sorted C b data_id dist W S N Hd) as [S' N'].
  split; [apply insert_well_formed; exact W|].
  split; [exact S'|]. split; [exact N'|].
  destruct (is_full_dist b dist) eqn:R.
  - rewrite insert_rejected by assumption. exact B.
  - destruct (insert_entries C b data_id dist HC W R)
      as (Hlo & Hlo' & Hs1 & Hs2 & _ & _ & Heq & Hlt & Hgt).
    intros k Hk. unfold dist_at.
    destruct (Nat.lt_trichotomy k (binary_search b dist)) as [H|[H|H]].
    + rewrite Hlt by assumption. apply B. lia.
    + subst k. rewrite Heq. simpl.
      destruct (ordered_top_bounds C b HC O) as [_ T].
      apply flt_neg_trans with (top_dist b); auto.
      apply (ordered_top_numeric C b HC O).
    + rewrite Hgt by assumption. apply B. lia.
Qed.

Lemma run_ordered (C : nat) (ops : list op) :
  forall b b',
    1 <= C -> ordered_state C b -> numeric ops -> run b ops = Some b' ->
    ordered_state C b'.
Proof.
  induction ops as [|o ops IH]; intros b b' HC O N R; simpl in R.
  - inversion R; subst; assumption.
  - inversion N as [|? ? Ho Hrest]; subst.
    destruct o as [data_id dist| |].
    + apply (IH (insert b data_id dist)); auto. apply ordered_insert; auto.
    + destruct (has_next b) eqn:Hn; [|discriminate].
      apply (IH (snd (pop b))); auto. apply ordered_pop; auto.
    + apply (IH (clear b)); auto. apply ordered_clear; auto.
Qed.

Lemma set_checked_idem (x : PID) : set_checked (set_checked x) = set_checked x.
Proof.
  unfold set_checked. rewrite <- Z.lor_assoc, Z.lor_diag. reflexivity.
Qed.

Lemma kept_pop (C : nat) (b : SearchBuffer) (data_id : PID) (dist : float) :
  well_formed C b -> has_next b = true ->
  kept C b data_id dist -> kept C (snd (pop b)) data_id dist.
Proof.
  intros (Hc & Hl & Hs & Hcs) Hn K. apply Nat.ltb_lt in Hn.
  destruct (pop_slots b ltac:(lia)) as (_ & Sz & _ & D & I1 & I2).
  destruct K as [(k & Hk & Hd & Hi)|(A & F)].
  - left. exists k. rewrite Sz, D. split; [exact Hk|]. split; [exact Hd|].
    destruct (Nat.eq_dec k (cur_ b)) as [->|Hne].
    + right. rewrite I2. destruct Hi as [->| ->];
        [reflexivity | apply set_checked_idem].
    + rewrite I1 by assumption. exact Hi.
  - right. rewrite Sz. split; [|exact F].
    intros k Hk. rewrite D. apply A. exact Hk.
Qed.

(** An insert keeps what was kept. *)
Lemma kept_insert_old (C : nat) (b : SearchBuffer) (i' : PID) (d' : float)
  (data_id : PID) (dist : float) :
  1 <= C -> ordered_state C b -> is_nan d' = false -> is_nan dist = false ->
  kept C b data_id dist -> kept C (insert b i' d') data_id dist.
Proof.
  intros HC O Hd' Hd K. pose proof O as (W & S & N & B).
  destruct (is_full_dist b d') eqn:R.
  { rewrite insert_rejected by assumption. exact K. }
  destruct (insert_entries C b i' d' HC W R)
    as (Hlo & Hlo' & Hs1 & Hs2 & Hnf & Hf & Heq & Hlt & Hgt).
  destruct (ordered_top_bounds C b HC O) as [T1 T2].
  pose proof (accepted_le_top b d' Hd' (ordered_top_numeric C b HC O) R) as A'.
  set (lo := binary_search b d') in *.
  set (b' := insert b i' d') in *.
  destruct W as (Hc & Hl & Hs & Hcs).
  (* every entry of b' is an entry of b or the new one *)
  assert (E : forall j, j < size_ b' ->
                (exists k, k < size_ b /\ at_ (data_ b') j = at_ (data_ b) k)
                \/ dist_at b' j = d').
  { intros j Hj. destruct (Nat.lt_trichotomy j lo) as [H|[H|H]].
    - left. exists j. split; [lia|]. apply Hlt. exact H.
    - right. subst j. unfold dist_at. rewrite Heq. reflexivity.
    - left. exists (j - 1). split; [lia|]. apply Hgt; assumption. }
  destruct K as [(k & Hk & Hkd & Hki)|(A & F)].
  - destruct (Nat.lt_ge_cases k lo) as [L|G].
    + left. exists k. unfold dist_at, id_at in *. rewrite Hlt by assumption.
      split; [lia|]. split; assumption.
    + destruct (Nat.lt_ge_cases (k + 1) (size_ b')) as [L1|G1].
      * left. exists (k + 1). unfold dist_at, id_at in *.
        rewrite Hgt by lia. replace (k + 1 - 1) with k by lia.
        split; [lia|]. split; assumption.
      * (* the candidate was the last entry of a full buffer *)
        assert (Hfull : size_ b = C)
          by (destruct (Nat.eq_dec (size_ b) C); lia).
        assert (Hlast : k = size_ b - 1) by (rewrite (Hf Hfull) in G1; lia).
        assert (Htop : top_dist b = dist).
        { rewrite top_dist_full by lia. rewrite <- Hlast. exact Hkd. }
        right. split; [|left; apply Hf; exact Hfull].
        intros j Hj. destruct (E j Hj) as [(k0 & Hk0 & Ek0)|Ej].
        -- unfold dist_at. rewrite Ek0. rewrite <- Htop. apply T1. exact Hk0.
        -- rewrite Ej, <- Htop. exact A'.
  - right. split.
    + intros j Hj. destruct (E j Hj) as [(k0 & Hk0 & Ek0)|Ej].
      * unfold dist_at. rewrite Ek0. apply A. exact Hk0.
      * rewrite Ej. destruct F as [F|F].
        -- apply fle_trans with (top_dist b); [exact A'|].
           rewrite top_dist_full by lia. apply A. lia.
        -- apply flt_fle. apply fle_flt_trans with FLT_MAX; [|exact F].
           apply fle_trans with (top_dist b); [exact A'|].
           apply fle_of_not_flt; auto.
           apply (ordered_top_numeric C b HC O).
    + destruct F as [F|F]; [left; apply Hf; exact F | right; exact F].
Qed.

(** The candidate of an insert is kept by it. *)
Lemma kept_insert_new (C : nat) (b : SearchBuffer) (data_id : PID)
  (dist : float) :
  1 <= C -> ordered_state C b -> is_nan dist = false ->
  kept C (insert b data_id dist) data_id dist.
Proof.
  intros HC O Hd. pose proof O as (W & S & N & B).
  destruct (ordered_top_bounds C b HC O) as [T1 T2].
  destruct (is_full_dist b dist) eqn:R.
  - rewrite insert_rejected by assumption. right.
    assert (L : flt (top_dist b) dist = true) by exact R.
    split.
    + intros k Hk. apply flt_fle. apply fle_flt_trans with (top_dist b); auto.
    + destruct W as (Hc & _).
      destruct (Nat.eq_dec (size_ b) C) as [E|E]; [left; exact E|right].
      rewrite top_dist_not_full in L by lia. exact L.
  - destruct (insert_entries C b data_id dist HC W R)
      as (_ & Hlo' & _ & _ & _ & _ & Heq & _).
    left. exists (binary_search b dist). unfold dist_at, id_at.
    rewrite Heq. simpl. auto.
Qed.

Lemma run_kept (C : nat) (ops : list op) :
  forall (b b' : SearchBuffer) (P : PID -> float -> Prop),
    1 <= C -> ordered_state C b -> numeric ops -> no_clear ops ->
    (forall i d, P i d -> is_nan d = false /\ kept C b i d) ->
    run b ops = Some b' ->
    forall i d, P i d \/ In (Insert i d) ops -> kept C b' i d.
Proof.
  induction ops as [|o ops IH]; intros b b' P HC O N NC HP R i d Hin;
    simpl in R.
  - inversion R; subst. destruct Hin as [H|[]]. apply HP. exact H.
  - inversion N as [|? ? Ho Hrest]; subst.
    inversion NC as [|? ? Hno Hnrest]; subst.
    destruct o as [i' d'| |]; [| |contradiction].
    + apply (IH (insert b i' d') b'
                (fun i d => P i d \/ Insert i d = Insert i' d')); auto.
      * apply ordered_insert; auto.
      * intros i0 d0 [H|H].
        -- destruct (HP i0 d0 H) as [Hn K]. split; [exact Hn|].
           apply kept_insert_old; auto.
        -- inversion H; subst. split; [exact Ho|].
           apply kept_insert_new; auto.
      * destruct Hin as [H|[H|H]];
          [left; left; exact H | left; right; symmetry; exact H
          | right; exact H].
    + destruct (has_next b) eqn:Hn; [|discriminate].
      apply (IH (snd (pop b)) b' P); auto.
      * apply ordered_pop; auto.
      * intros i0 d0 H. destruct (HP i0 d0 H) as [Hnan K].
        split; [exact Hnan|]. apply kept_pop; auto. apply O.
      * destruct Hin as [H|[H|H]];
          [left; exact H | discriminate H | right; exact H].
Qed.

(** X1.  The buffer keeps the nearest candidates.  After any run of inserts
    (of distances that are not NaN) and pops on a fresh buffer of capacity
    C >= 1, every candidate that was inserted is still in the buffer (with
    its id as inserted, or with the checked bit set), or every entry of the
    buffer is at least as near as it and the buffer is full (or the
    candidate's distance is above [FLT_MAX]). *)
Theorem beam_keeps_nearest (C : nat) (ops : list op) (b : SearchBuffer)
  (data_id : PID) (dist : float) :
  1 <= C -> numeric ops -> no_clear ops -> run (new C) ops = Some b ->
  In (Insert data_id dist) ops ->
  holds b data_id dist \/
  ((forall k, k < size_ b -> fle (dist_at b k) dist = true) /\
   (size_ b = C \/ fgt dist FLT_MAX = true)).
Proof.
  intros HC N NC R Hin.
  apply (run_kept C ops (new C) b (fun _ _ => False) HC (ordered_new C) N NC);
    auto. intros i d [].
Qed.

Lemma beam_keeps_nearest_witness :
  let ops := [Insert 5 (of_Z 2); Insert 7 (of_Z 1); Pop; Insert 9 (of_Z 3);
              Insert 11 (of_Z2 5 (-1))] in
  let b := insert (insert (snd (pop (insert (insert (new 2)
             5 (of_Z 2)) 7 (of_Z 1)))) 9 (of_Z 3)) 11 (of_Z2 5 (-1)) in
  1 <= 2 /\ numeric ops /\ no_clear ops /\ run (new 2) ops = Some b /\
  In (Insert 9 (of_Z 3)) ops /\
  (holds b 9 (of_Z 3) \/
   ((forall k, k < size_ b -> fle (dist_at b k) (of_Z 3) = true) /\
    (size_ b = 2 \/ fgt (of_Z 3) FLT_MAX = true))).
Proof.
  intros ops b.
  assert (N : numeric ops) by (repeat constructor).
  assert (NC : no_clear ops) by (repeat constructor).
  assert (R : run (new 2) ops = Some b) by (vm_compute; reflexivity).
  assert (I : In (Insert 9 (of_Z 3)) ops) by (simpl; auto).
  exact (conj (le_S _ _ (le_n 1)) (conj N (conj NC (conj R (conj I
           (beam_keeps_nearest 2 ops b 9 (of_Z 3)
              (le_S _ _ (le_n 1)) N NC R I)))))).
Defined.

End BufferRetention.

Module BufferBounds.
Import Defines Float32 Buffer BufferSpec BufferUse.
Import Float32Facts ArrayFacts LoopFacts SearchFacts BitFacts BufferFacts.
Import BufferUseFacts BufferRetention.

Lemma reached_ordered (C : nat) (ops : list op) (b : SearchBuffer) :
  1 <= C -> numeric ops -> run (new C) ops = Some b -> ordered_state C b.
Proof.
  intros HC N R. apply (run_ordered C ops (new C) b HC (ordered_new C) N R).
Qed.

(** X2.  [top_dist()] is a pruning bound that only tightens.  In every state
    reached with distances that are not NaN, [top_dist()] is at least every
    stored distance, an insert never raises it and a pop leaves it as it
    is. *)
Theorem top_dist_only_tightens (C : nat) (ops : list op) (b : SearchBuffer) :
  1 <= C -> numeric ops -> run (new C) ops = Some b ->
  (forall k, k < size_ b -> fle (dist_at b k) (top_dist b) = true) /\
  (forall data_id dist,
     is_nan dist = false ->
     fle (top_dist (insert b data_id dist)) (top_dist b) = true) /\
  (has_next b = true -> top_dist (snd (pop b)) = top_dist b).
Proof.
  intros HC N R. pose proof (reached_ordered C ops b HC N R) as O.
  destruct (ordered_top_bounds C b HC O) as [T1 T2].
  pose proof (ordered_top_numeric C b HC O) as Tn.
  pose proof O as (W & S & Ne & B).
  split; [exact T1|]. split.
  - intros data_id dist Hd.
    destruct (is_full_dist b dist) eqn:Rj.
    { rewrite insert_rejected by assumption. apply fle_refl. exact Tn. }
    destruct (insert_entries C b data_id dist HC W Rj)
      as (Hlo & Hlo' & Hs1 & Hs2 & Hnf & Hf & Heq & Hlt & Hgt).
    pose proof (accepted_le_top b dist Hd Tn Rj) as A.
    pose proof (insert_well_formed C b data_id dist W) as (Hc' & _ & Hs' & _).
    destruct W as (Hc & Hl & Hs & Hcs).
    set (b' := insert b data_id dist) in *.
    set (lo := binary_search b dist) in *.
    destruct (Nat.eq_dec (size_ b') (capacity_ b')) as [E|E].
    + rewrite (top_dist_full b') by assumption. unfold dist_at.
      destruct (Nat.lt_trichotomy (size_ b' - 1) lo) as [H|[H|H]].
      * rewrite Hlt by assumption. apply T1. lia.
      * rewrite H, Heq. exact A.
      * rewrite Hgt by lia. apply T1. lia.
    + rewrite (top_dist_not_full b') by assumption.
      rewrite top_dist_not_full by lia. reflexivity.
  - intros Hn. apply Nat.ltb_lt in Hn. destruct W as (Hc & Hl & Hs & Hcs).
    destruct (pop_slots b ltac:(lia)) as (_ & Sz & Cp & D & _).
    unfold top_dist, is_full. rewrite Sz, Cp.
    destruct (size_ b =? capacity_ b); [apply D | reflexivity].
Qed.

Lemma top_dist_only_tightens_witness :
  let ops := [Insert 5 (of_Z 2); Insert 7 (of_Z 1)] in
  let b := insert (insert (new 2) 5 (of_Z 2)) 7 (of_Z 1) in
  1 <= 2 /\ numeric ops /\ run (new 2) ops = Some b /\
  top_dist b = of_Z 2 /\
  top_dist (insert b 9 (of_Z2 3 (-1))) = of_Z2 3 (-1) /\
  fle (top_dist (insert b 9 (of_Z2 3 (-1)))) (top_dist b) = true.
Proof.
  intros ops b.
  assert (N : numeric ops) by (repeat constructor).
  assert (R : run (new 2) ops = Some b) by (vm_compute; reflexivity).
  assert (T : top_dist b = of_Z 2) by (vm_compute; reflexivity).
  assert (T' : top_dist (insert b 9 (of_Z2 3 (-1))) = of_Z2 3 (-1))
    by (vm_compute; reflexivity).
  exact (conj (le_S _ _ (le_n 1)) (conj N (conj R (conj T (conj T'
    (proj1 (proj2 (top_dist_only_tightens 2 ops b (le_S _ _ (le_n 1)) N R))
           9%Z (of_Z2 3 (-1)) eq_refl)))))).
Defined.

Lemma below_infinity (a : float) :
  is_nan a = false -> fgt a FLT_MAX = false ->
  flt a (S754_infinity false) = true.
Proof.
  destruct a as [s|[|]| |s m e]; intros Hn H; try reflexivity;
    discriminate.
Qed.

(** X3.  [+infinity] is never stored.  [top_dist()] of a buffer that is not
    full is [FLT_MAX], so an insert of a distance above [FLT_MAX] is rejected
    even by an empty buffer: in every state reached with distances that are
    not NaN no stored distance is above [FLT_MAX], and [insert(id, +inf)]
    leaves the buffer as it is. *)
Theorem infinity_is_never_stored (C : nat) (ops : list op) (b : SearchBuffer) :
  1 <= C -> numeric ops -> run (new C) ops = Some b ->
  (forall k, k < size_ b ->
             fgt (dist_at b k) FLT_MAX = false /\
             dist_at b k <> S754_infinity false) /\
  (forall data_id, insert b data_id (S754_infinity false) = b).
Proof.
  intros HC N R. pose proof (reached_ordered C ops b HC N R) as O.
  destruct (ordered_top_bounds C b HC O) as [T1 T2].
  pose proof (ordered_top_numeric C b HC O) as Tn.
  destruct O as (W & S & Ne & B). split.
  - intros k Hk. split; [apply B; exact Hk|].
    intros E. specialize (B k Hk). rewrite E in B. discriminate.
  - intros data_id. apply insert_rejected.
    apply (below_infinity (top_dist b) Tn T2).
Qed.

Lemma infinity_is_never_stored_witness :
  let ops := [Insert 5 (of_Z 2)] in
  let b := insert (new 4) 5 (of_Z 2) in
  1 <= 4 /\ numeric ops /\ run (new 4) ops = Some b /\
  size_ b = 1 /\ is_full b = false /\
  insert b 6 (S754_infinity false) = b.
Proof.
  intros ops b.
  assert (HC : 1 <= 4) by (repeat constructor).
  assert (N : numeric ops) by (repeat constructor).
  assert (R : run (new 4) ops = Some b) by (vm_compute; reflexivity).
  exact (conj HC (conj N (conj R (conj eq_refl (conj eq_refl
    (proj2 (infinity_is_never_stored 4 ops b HC N R) 6%Z)))))).
Defined.

Lemma run_inserts_size (C : nat) (ops : list op) :
  forall b,
    well_formed C b -> inserts_only ops -> finite_or_nan ops ->
    exists b', run b ops = Some b' /\
               size_ b' = Nat.min (size_ b + length ops) C.
Proof.
  induction ops as [|o ops IH]; intros b W I F; simpl.
  - exists b. split; [reflexivity|]. destruct W as (_ & _ & Hs & _). lia.
  - inversion I as [|? ? Io Irest]; subst.
    inversion F as [|? ? Fo Frest]; subst.
    destruct o as [data_id dist| |]; try contradiction.
    destruct (IH (insert b data_id dist)
                 (insert_well_formed C b data_id dist W) Irest Frest)
      as (b' & R & Sz).
    exists b'. split; [exact R|]. rewrite Sz.
    destruct W as (Hc & _ & Hs & _).
    destruct (Nat.eq_dec (size_ b) C) as [E|E].
    + (* full: the size stays, accepted or not *)
      destruct (is_full_dist b dist) eqn:Rj.
      * rewrite insert_rejected by assumption. lia.
      * rewrite insert_size by assumption.
        replace (size_ b <? capacity_ b) with false
          by (symmetry; apply Nat.ltb_ge; lia).
        simpl. lia.
    + (* not full: FLT_MAX is the bound, the insert is accepted *)
      assert (Rj : is_full_dist b dist = false).
      { unfold is_full_dist. rewrite top_dist_not_full by lia. exact Fo. }
      rewrite insert_size by assumption.
      replace (size_ b <? capacity_ b) with true
        by (symmetry; apply Nat.ltb_lt; lia).
      simpl. lia.
Qed.

(** X4.  The size counts the inserts up to the capacity.  After [n] inserts
    of distances not above [FLT_MAX] (NaN included) into a fresh buffer of
    capacity C, and no other call, the size is [min(n, C)]. *)
Theorem size_after_inserts (C : nat) (ops : list op) :
  inserts_only ops -> finite_or_nan ops ->
  exists b, run (new C) ops = Some b /\ size_ b = Nat.min (length ops) C.
Proof.
  intros I F.
  destruct (run_inserts_size C ops (new C) (well_formed_new C) I F)
    as (b & R & Sz).
  exists b. split; [exact R|]. exact Sz.
Qed.

Lemma size_after_inserts_witness :
  let ops := [Insert 5 (of_Z 2); Insert 7 S754_nan; Insert 9 (of_Z 1)] in
  inserts_only ops /\ finite_or_nan ops /\
  exists b, run (new 2) ops = Some b /\ size_ b = Nat.min (length ops) 2.
Proof.
  intros ops.
  assert (I : inserts_only ops) by (repeat constructor).
  assert (F : finite_or_nan ops) by (repeat constructor).
  exact (conj I (conj F (size_after_inserts 2 ops I F))).
Defined.

(** X5.  Where an accepted candidate lands.  In every state reached with
    distances that are not NaN, an accepted insert of a number stores the
    candidate behind every entry that is strictly nearer and in front of
    every entry of equal or larger distance: among equal distances the
    newest comes first. *)
Theorem insert_lands_before_ties (C : nat) (ops : list op) (b : SearchBuffer)
  (data_id : PID) (dist : float) :
  1 <= C -> numeric ops -> run (new C) ops = Some b ->
  is_nan dist = false -> is_full_dist b dist = false ->
  let b' := insert b data_id dist in
  exists lo,
    lo < size_ b' /\ at_ (data_ b') lo = mkCandidate data_id dist /\
    (forall k, k < lo -> flt (dist_at b' k) dist = true) /\
    (forall k, lo < k -> k < size_ b' -> fle dist (dist_at b' k) = true).
Proof.
  intros HC N R Hd Rj b'. pose proof (reached_ordered C ops b HC N R) as O.
  destruct O as (W & S & Ne & B).
  destruct (insert_entries C b data_id dist HC W Rj)
    as (Hlo & Hlo' & Hs1 & Hs2 & Hnf & Hf & Heq & Hlt & Hgt).
  destruct (binary_search_partition b dist S) as [Plo Phi].
  exists (binary_search b dist). fold b' in Hlo', Hs1, Hs2, Heq, Hlt, Hgt.
  split; [exact Hlo'|]. split; [exact Heq|]. split.
  - intros k Hk. unfold dist_at. rewrite Hlt by assumption. apply Plo. exact Hk.
  - intros k H1 H2. unfold dist_at. rewrite Hgt by assumption.
    apply fle_of_not_flt; auto.
    + apply Ne. lia.
    + apply Phi; lia.
Qed.

Lemma insert_lands_before_ties_witness :
  let ops := [Insert 5 (of_Z 1); Insert 7 (of_Z 2); Insert 9 (of_Z 3)] in
  let b := insert (insert (insert (new 4) 5 (of_Z 1)) 7 (of_Z 2)) 9 (of_Z 3) in
  1 <= 4 /\ numeric ops /\ run (new 4) ops = Some b /\
  is_full_dist b (of_Z 2) = false /\
  copy_results (insert b 11 (of_Z 2)) [0; 0; 0; 0]%Z = [5; 11; 7; 9]%Z /\
  exists lo,
    lo < size_ (insert b 11 (of_Z 2)) /\
    at_ (data_ (insert b 11 (of_Z 2))) lo = mkCandidate 11 (of_Z 2) /\
    (forall k, k < lo ->
               flt (dist_at (insert b 11 (of_Z 2)) k) (of_Z 2) = true) /\
    (forall k, lo < k -> k < size_ (insert b 11 (of_Z 2)) ->
               fle (of_Z 2) (dist_at (insert b 11 (of_Z 2)) k) = true).
Proof.
  intros ops b.
  assert (HC : 1 <= 4) by (repeat constructor).
  assert (N : numeric ops) by (repeat constructor).
  assert (R : run (new 4) ops = Some b) by (vm_compute; reflexivity).
  assert (A : is_full_dist b (of_Z 2) = false) by (vm_compute; reflexivity).
  assert (E : copy_results (insert b 11 (of_Z 2)) [0; 0; 0; 0]%Z
              = [5; 11; 7; 9]%Z) by (vm_compute; reflexivity).
  exact (conj HC (conj N (conj R (conj A (conj E
    (insert_lands_before_ties 4 ops b 11%Z (of_Z 2) HC N R eq_refl A)))))).
Defined.

End BufferBounds.

Module BufferDrain.
Import Defines Float32 Buffer BufferSpec BufferUse.
Import Float32Facts ArrayFacts LoopFacts SearchFacts BitFacts BufferFacts.
Import BufferUseFacts BufferRetention BufferBounds.

Lemma filter_none {A : Type} (f : A -> bool) (l : list A) :
  (forall x, In x l -> f x = false) -> filter f l = [].
Proof.
  induction l as [|a l IH]; intros H; simpl; [reflexivity|].
  rewrite (H a (or_introl eq_refl)). apply IH. intros x Hx. apply H. right.
  exact Hx.
Qed.

Lemma seq_split3 (n c : nat) :
  c < n -> seq 0 n = seq 0 c ++ c :: seq (S c) (n - S c).
Proof.
  intros H. replace n with (c + S (n - S c)) at 1 by lia.
  rewrite seq_app. simpl. reflexivity.
Qed.

(** The cursor is the first unchecked index; a pop removes it from the
    unchecked indices and nothing else. *)
Lemma unchecked_indices_pop (C : nat) (b : SearchBuffer) :
  well_formed C b -> cursor_inv b -> has_next b = true ->
  unchecked_indices b = cur_ b :: unchecked_indices (snd (pop b)).
Proof.
  intros (Hc & Hl & Hs & Hcs) (K1 & K2 & K3) Hn. apply Nat.ltb_lt in Hn.
  destruct (pop_slots b ltac:(lia)) as (_ & Sz & _ & _ & I1 & I2).
  unfold unchecked_indices. rewrite Sz.
  rewrite (seq_split3 (size_ b) (cur_ b) Hn).
  rewrite !filter_app. cbn [filter].
  rewrite (K2 Hn). rewrite I2, is_checked_set_checked. cbn [negb].
  assert (F1 : filter (fun i => negb (is_checked (id_at b i)))
                      (seq 0 (cur_ b)) = []).
  { apply filter_none. intros k Hk. apply in_seq in Hk.
    rewrite K1 by lia. reflexivity. }
  assert (F2 : filter (fun i => negb (is_checked (id_at (snd (pop b)) i)))
                      (seq 0 (cur_ b)) = []).
  { apply filter_none. intros k Hk. apply in_seq in Hk.
    rewrite I1 by lia. rewrite K1 by lia. reflexivity. }
  rewrite F1, F2. cbn [app]. apply f_equal.
  apply filter_ext_in. intros k Hk.
  apply in_seq in Hk. rewrite I1 by lia. reflexivity.
Qed.

Lemma unchecked_indices_nil (b : SearchBuffer) :
  cursor_inv b -> cur_ b <= size_ b ->
  (unchecked_indices b = [] <-> has_next b = false).
Proof.
  intros (K1 & K2 & K3) Hcs. unfold has_next. split.
  - intros E. apply Nat.ltb_ge.
    destruct (Nat.lt_ge_cases (cur_ b) (size_ b)) as [L|G]; [|exact G].
    exfalso.
    assert (I : In (cur_ b) (unchecked_indices b)).
    { unfold unchecked_indices. apply filter_In. split.
      - apply in_seq. lia.
      - rewrite (K2 L). reflexivity. }
    rewrite E in I. exact I.
  - intros E. apply Nat.ltb_ge in E. apply filter_none.
    intros k Hk. apply in_seq in Hk. rewrite K1 by lia. reflexivity.
Qed.

Lemma pop_many_drains (C : nat) (n : nat) :
  forall b,
    well_formed C b -> cursor_inv b -> length (unchecked_indices b) = n ->
    exists b',
      pop_many n b = Some (map (id_at b) (unchecked_indices b), b') /\
      has_next b' = false /\ well_formed C b' /\ cursor_inv b' /\
      size_ b' = size_ b /\
      (forall k, dist_at b' k = dist_at b k).
Proof.
  induction n as [|n IH]; intros b W K L.
  - apply length_zero_iff_nil in L.
    assert (Hn : has_next b = false).
    { apply (unchecked_indices_nil b K); [apply W | exact L]. }
    exists b. rewrite L. cbn [pop_many map].
    split; [reflexivity|]. split; [exact Hn|]. split; [exact W|].
    split; [exact K|]. split; reflexivity.
  - assert (Hn : has_next b = true).
    { destruct (has_next b) eqn:E; [reflexivity|].
      apply (unchecked_indices_nil b K) in E; [|apply W].
      rewrite E in L. discriminate. }
    pose proof (unchecked_indices_pop C b W K Hn) as U.
    pose proof (pop_well_formed C b W Hn) as W1.
    pose proof (pop_cursor C b W K Hn) as K1.
    assert (L1 : length (unchecked_indices (snd (pop b))) = n)
      by (rewrite U in L; cbn [length] in L; lia).
    destruct (IH (snd (pop b)) W1 K1 L1) as (b' & P & Hn' & W' & K' & Sz' & D').
    assert (Hlt : cur_ b < length (data_ b)).
    { apply Nat.ltb_lt in Hn. destruct W as (? & ? & ? & ?). lia. }
    destruct (pop_slots b Hlt) as (_ & Sz & _ & D & I1 & I2).
    exists b'. cbn [pop_many]. rewrite Hn, P. split.
    + assert (M : map (id_at (snd (pop b))) (unchecked_indices (snd (pop b)))
                  = map (id_at b) (unchecked_indices (snd (pop b)))).
      { apply map_ext_in. intros k Hk.
        apply I1. intros E. subst k.
        unfold unchecked_indices in Hk. apply filter_In in Hk.
        destruct Hk as [_ Hk]. rewrite I2, is_checked_set_checked in Hk.
        discriminate. }
      rewrite M, U. reflexivity.
    + split; [exact Hn'|]. split; [exact W'|]. split; [exact K'|].
      split; [lia|]. intros k. rewrite D'. apply D.
Qed.

Lemma pop_many_then_none (n : nat) :
  forall b ids b',
    pop_many n b = Some (ids, b') -> has_next b' = false ->
    pop_many (S n) b = None.
Proof.
  induction n as [|n IH]; intros b ids b' P Hn.
  - cbn [pop_many] in P. inversion P; subst. cbn [pop_many].
    rewrite Hn. reflexivity.
  - cbn [pop_many] in P. change (pop_many (S (S n)) b)
      with (if has_next b then
              match pop_many (S n) (snd (pop b)) with
              | Some (ids, b') => Some (fst (pop b) :: ids, b')
              | None => None
              end
            else None).
    destruct (has_next b); [|reflexivity].
    destruct (pop_many n (snd (pop b))) as [[ids1 b1]|] eqn:E; [|discriminate].
    inversion P; subst. rewrite (IH _ _ _ E Hn). reflexivity.
Qed.

Lemma filter_seq_increasing (f : nat -> bool) (n : nat) :
  forall a p q,
    p < q -> q < length (filter f (seq a n)) ->
    nth p (filter f (seq a n)) 0 < nth q (filter f (seq a n)) 0.
Proof.
  induction n as [|n IH]; intros a p q Hpq Hq; simpl in *; [lia|].
  destruct (f a) eqn:E; simpl in *.
  - destruct q as [|q]; [lia|]. destruct p as [|p].
    + assert (I : In (nth q (filter f (seq (S a) n)) 0)
                     (filter f (seq (S a) n)))
        by (apply nth_In; lia).
      apply filter_In in I. destruct I as [I _]. apply in_seq in I. lia.
    + apply IH; lia.
  - apply IH; assumption.
Qed.

(** X6.  Draining the buffer.  In every state reached with ids whose high
    bit is clear, popping as many times as there are unchecked entries
    succeeds and returns the ids of exactly the unchecked entries, each once,
    in buffer order; then [has_next()] is false, every entry is checked, and
    one more pop would break the precondition.  When no inserted distance is
    a NaN the ids come out in non-decreasing order of distance. *)
Theorem pops_drain_unchecked_in_order (C : nat) (ops : list op)
  (b : SearchBuffer) :
  1 <= C -> ids_clear ops -> run (new C) ops = Some b ->
  let u := unchecked_indices b in
  (exists b',
     pop_many (length u) b = Some (map (id_at b) u, b') /\
     has_next b' = false /\
     (forall k, k < size_ b' -> is_checked (id_at b' k) = true)) /\
  pop_many (S (length u)) b = None /\
  (numeric ops ->
   forall p q, p < q -> q < length u ->
               fle (dist_at b (nth p u 0)) (dist_at b (nth q u 0)) = true).
Proof.
  intros HC I R u.
  pose proof (run_well_formed C ops (new C) b (well_formed_new C) R) as W.
  pose proof (run_cursor C ops (new C) b (well_formed_new C) (cursor_new C) I R)
    as K.
  destruct (pop_many_drains C (length u) b W K eq_refl)
    as (b' & P & Hn & W' & K' & _).
  split; [|split].
  - exists b'. split; [exact P|]. split; [exact Hn|].
    intros k Hk. destruct K' as (K1 & _). apply K1.
    apply Nat.ltb_ge in Hn. lia.
  - apply (pop_many_then_none (length u) b _ b' P Hn).
  - intros N p q Hpq Hq.
    destruct (run_sorted C ops (new C) b (well_formed_new C) (sorted_new C)
                         (numeric_new C) N R) as [S _].
    apply S.
    + apply filter_seq_increasing; assumption.
    + assert (In (nth q u 0) u) by (apply nth_In; exact Hq).
      apply filter_In in H. destruct H as [H _]. apply in_seq in H. lia.
Qed.

Lemma pops_drain_unchecked_in_order_witness :
  let ops := [Insert 5 (of_Z 2); Insert 7 (of_Z 1); Insert 9 (of_Z 3); Pop;
              Insert 11 (of_Z2 5 (-1))] in
  let b := insert (snd (pop (insert (insert (insert (new 4)
             5 (of_Z 2)) 7 (of_Z 1)) 9 (of_Z 3)))) 11 (of_Z2 5 (-1)) in
  1 <= 4 /\ ids_clear ops /\ run (new 4) ops = Some b /\
  map (id_at b) (unchecked_indices b) = [5; 11; 9]%Z /\
  (exists b',
     pop_many (length (unchecked_indices b)) b
       = Some (map (id_at b) (unchecked_indices b), b') /\
     has_next b' = false /\
     (forall k, k < size_ b' -> is_checked (id_at b' k) = true)).
Proof.
  intros ops b.
  assert (HC : 1 <= 4) by (repeat constructor).
  assert (I : ids_clear ops)
    by (repeat constructor; unfold high_bit_clear; lia).
  assert (R : run (new 4) ops = Some b) by (vm_compute; reflexivity).
  assert (E : map (id_at b) (unchecked_indices b) = [5; 11; 9]%Z)
    by (vm_compute; reflexivity).
  exact (conj HC (conj I (conj R (conj E
    (proj1 (pops_drain_unchecked_in_order 4 ops b HC I R)))))).
Defined.

End BufferDrain.

Module BufferReuse.
Import Defines Float32 Buffer BufferSpec BufferUse.
Import Float32Facts ArrayFacts LoopFacts SearchFacts BitFacts BufferFacts.
Import BufferUseFacts.

(** The ladder search reads the window it is given and nothing else. *)
Lemma binary_search_loop_ext (d1 d2 : list Candidate) (dist : float)
  (n len : nat) :
  (forall k, k < n -> at_ d1 k = at_ d2 k) ->
  forall lo, lo + len <= n ->
    binary_search_loop d1 dist lo len = binary_search_loop d2 dist lo len.
Proof.
  intros H. induction len as [len IH] using lt_wf_ind. intros lo Hn.
  rewrite (binary_search_loop_unfold d1), (binary_search_loop_unfold d2).
  destruct (len <=? 1) eqn:E; [reflexivity|].
  apply Nat.leb_gt in E. destruct (half_bounds len E) as (H1 & H2 & H3).
  rewrite (H (lo + Nat.shiftr len 1 - 1)) by lia.
  set (half := Nat.shiftr len 1) in *.
  apply IH; [lia|].
  destruct (flt _ dist); cbn [Nat.b2n]; lia.
Qed.

Lemma binary_search_ext (b1 b2 : SearchBuffer) (dist : float) :
  same_view b1 b2 -> binary_search b1 dist = binary_search b2 dist.
Proof.
  intros (Hc & Hs & Hcur & Hd). unfold binary_search.
  rewrite (binary_search_loop_ext (data_ b1) (data_ b2) dist (size_ b1)
             (size_ b1) Hd 0 ltac:(lia)).
  rewrite <- Hs.
  set (lo := binary_search_loop (data_ b2) dist 0 (size_ b1)).
  destruct (lo <? size_ b1) eqn:E; [|reflexivity].
  apply Nat.ltb_lt in E. rewrite (Hd lo E). reflexivity.
Qed.

Lemma skip_checked_ext (d1 d2 : list Candidate) (size : nat) :
  (forall k, k < size -> at_ d1 k = at_ d2 k) ->
  forall cur, skip_checked d1 size cur = skip_checked d2 size cur.
Proof.
  intros H cur. remember (size - cur) as n eqn:Hn. revert cur Hn.
  induction n as [|n IH]; intros cur Hn;
    rewrite (skip_checked_unfold d1), (skip_checked_unfold d2).
  - replace (cur <? size) with false by (symmetry; apply Nat.ltb_ge; lia).
    reflexivity.
  - replace (cur <? size) with true by (symmetry; apply Nat.ltb_lt; lia).
    rewrite (H cur) by lia. cbn [andb].
    destruct (is_checked _); [apply IH; lia | reflexivity].
Qed.

Lemma top_dist_ext (C : nat) (b1 b2 : SearchBuffer) :
  1 <= C -> well_formed C b1 -> same_view b1 b2 -> top_dist b1 = top_dist b2.
Proof.
  intros HC (Hc1 & _ & Hs1 & _) (Hc & Hs & Hcur & Hd).
  unfold top_dist, is_full. rewrite <- Hs, <- Hc.
  destruct (Nat.eqb_spec (size_ b1) (capacity_ b1)) as [E|E]; [|reflexivity].
  rewrite (Hd (size_ b1 - 1)) by lia. reflexivity.
Qed.

Lemma same_view_insert (C : nat) (b1 b2 : SearchBuffer) (data_id : PID)
  (dist : float) :
  1 <= C -> well_formed C b1 -> well_formed C b2 -> same_view b1 b2 ->
  same_view (insert b1 data_id dist) (insert b2 data_id dist).
Proof.
  intros HC W1 W2 V.
  pose proof (top_dist_ext C b1 b2 HC W1 V) as T.
  pose proof (binary_search_ext b1 b2 dist V) as Bs.
  assert (Rj : is_full_dist b1 dist = is_full_dist b2 dist)
    by (unfold is_full_dist; rewrite T; reflexivity).
  destruct (is_full_dist b1 dist) eqn:R1.
  - rewrite !insert_rejected by congruence. exact V.
  - assert (R2 : is_full_dist b2 dist = false) by congruence.
    destruct (insert_entries C b1 data_id dist HC W1 R1)
      as (Hlo1 & _ & Hs1 & _ & _ & _ & Heq1 & Hlt1 & Hgt1).
    destruct (insert_entries C b2 data_id dist HC W2 R2)
      as (_ & _ & _ & _ & _ & _ & Heq2 & Hlt2 & Hgt2).
    pose proof (insert_well_formed C b1 data_id dist W1) as (Hc1' & _).
    pose proof (insert_well_formed C b2 data_id dist W2) as (Hc2' & _).
    pose proof (insert_size b1 data_id dist R1) as Sz1.
    pose proof (insert_size b2 data_id dist R2) as Sz2.
    pose proof (insert_cur b1 data_id dist R1) as Cu1.
    pose proof (insert_cur b2 data_id dist R2) as Cu2.
    destruct V as (Hc & Hs & Hcur & Hd).
    rewrite <- Bs in Heq2, Hlt2, Hgt2, Cu2.
    rewrite <- Hs, <- Hc in Sz2. rewrite <- Hcur in Cu2.
    set (x := insert b1 data_id dist) in *.
    set (y := insert b2 data_id dist) in *.
    set (lo := binary_search b1 dist) in *.
    unfold same_view.
    split; [congruence|]. split; [congruence|]. split; [congruence|].
    intros k Hk.
    destruct (Nat.lt_trichotomy k lo) as [H|[H|H]].
    + rewrite Hlt1, Hlt2 by assumption. apply Hd. lia.
    + subst k. rewrite Heq1, Heq2. reflexivity.
    + rewrite Hgt1 by assumption.
      rewrite Hgt2 by (try assumption; rewrite Sz2, <- Sz1; exact Hk).
      apply Hd. lia.
Qed.

Lemma same_view_pop (C : nat) (b1 b2 : SearchBuffer) :
  well_formed C b1 -> well_formed C b2 -> same_view b1 b2 ->
  has_next b1 = true ->
  fst (pop b1) = fst (pop b2) /\ same_view (snd (pop b1)) (snd (pop b2)).
Proof.
  intros (Hc1 & Hl1 & Hs1 & Hcs1) (Hc2 & Hl2 & Hs2 & Hcs2)
         (Hc & Hs & Hcur & Hd) Hn.
  apply Nat.ltb_lt in Hn.
  assert (M : forall k, k < size_ b1 ->
                at_ (data_ (snd (pop b1))) k = at_ (data_ (snd (pop b2))) k).
  { intros k Hk. unfold pop, at_; cbn [snd data_]. rewrite <- Hcur.
    destruct (Nat.eq_dec k (cur_ b1)) as [->|Hne].
    - rewrite !nth_store_same by lia.
      fold (at_ (data_ b1) (cur_ b1)). fold (at_ (data_ b2) (cur_ b1)).
      rewrite (Hd (cur_ b1) Hn). reflexivity.
    - rewrite !nth_store_other by assumption. apply Hd. exact Hk. }
  split.
  - unfold pop; cbn [fst]. rewrite <- Hcur, (Hd (cur_ b1) Hn). reflexivity.
  - destruct (pop_slots b1 ltac:(lia)) as (_ & Sz1 & Cp1 & _).
    destruct (pop_slots b2 ltac:(lia)) as (_ & Sz2 & Cp2 & _).
    unfold same_view. rewrite Sz1, Sz2, Cp1, Cp2.
    split; [exact Hc|]. split; [exact Hs|]. split; [|exact M].
    rewrite (pop_cur b1), (pop_cur b2). rewrite <- Hs, <- Hcur.
    apply skip_checked_ext. exact M.
Qed.

Lemma copy_results_ext (b1 b2 : SearchBuffer) (knn : list PID) :
  same_view b1 b2 -> copy_results b1 knn = copy_results b2 knn.
Proof.
  intros (Hc & Hs & Hcur & Hd). unfold copy_results. rewrite <- Hs.
  assert (G : forall (l : list nat) (out : list PID),
            (forall i, In i l -> i < size_ b1) ->
            fold_left (fun out i => store out i (id (at_ (data_ b1) i))) l out
            = fold_left (fun out i => store out i (id (at_ (data_ b2) i)))
                l out).
  { induction l as [|i l IH]; intros out Hl; simpl; [reflexivity|].
    rewrite (Hd i) by (apply Hl; left; reflexivity).
    apply IH. intros j Hj. apply Hl. right. exact Hj. }
  apply G. intros i Hi. apply in_seq in Hi. lia.
Qed.

Lemma run_same_view (C : nat) (ops : list op) :
  forall b1 b2,
    1 <= C -> well_formed C b1 -> well_formed C b2 -> same_view b1 b2 ->
    popped b1 ops = popped b2 ops /\
    match run b1 ops, run b2 ops with
    | Some x, Some y => same_view x y
    | None, None => True
    | _, _ => False
    end.
Proof.
  induction ops as [|o ops IH]; intros b1 b2 HC W1 W2 V; cbn [run popped].
  - split; [reflexivity|exact V].
  - destruct o as [data_id dist| |].
    + apply IH; auto using insert_well_formed. apply (same_view_insert C); auto.
    + assert (Hn : has_next b1 = has_next b2).
      { destruct V as (_ & Hs & Hcur & _). unfold has_next.
        rewrite Hs, Hcur. reflexivity. }
      rewrite <- Hn.
      destruct (has_next b1) eqn:E; [|split; [reflexivity|exact I]].
      destruct (same_view_pop C b1 b2 W1 W2 V E) as [F V'].
      destruct (IH (snd (pop b1)) (snd (pop b2)) HC
                   (pop_well_formed C b1 W1 E)
                   (pop_well_formed C b2 W2 ltac:(congruence)) V') as [P Rn].
      split; [rewrite F, P; reflexivity | exact Rn].
    + apply IH; auto using well_formed_clear.
      destruct V as (Hc & _). unfold same_view; simpl.
      repeat split; auto. intros; lia.
Qed.

(** X7.  [clear()] makes the buffer as good as new.  Whatever a buffer of
    capacity C >= 1 went through, after [clear()] every run of calls returns
    from its pops the same ids as on a fresh buffer of capacity C, breaks the
    precondition of [pop] at the same call, and ends with the same size,
    cursor, entries and [copy_results]: the entries that [clear()] leaves in
    the storage are never read. *)
Theorem clear_is_as_good_as_new (C : nat) (history ops : list op)
  (b : SearchBuffer) :
  1 <= C -> run (new C) history = Some b ->
  popped (clear b) ops = popped (new C) ops /\
  match run (clear b) ops, run (new C) ops with
  | Some x, Some y =>
      same_view x y /\ forall knn, copy_results x knn = copy_results y knn
  | None, None => True
  | _, _ => False
  end.
Proof.
  intros HC R.
  pose proof (run_well_formed C history (new C) b (well_formed_new C) R) as W.
  assert (V : same_view (clear b) (new C)).
  { destruct W as (Hc & _). unfold same_view; simpl.
    repeat split; auto. intros; lia. }
  destruct (run_same_view C ops (clear b) (new C) HC
              (well_formed_clear C b W) (well_formed_new C) V) as [P Rn].
  split; [exact P|].
  destruct (run (clear b) ops), (run (new C) ops); auto.
  split; [exact Rn|]. intros knn. apply copy_results_ext. exact Rn.
Qed.

Lemma clear_is_as_good_as_new_witness :
  let history := [Insert 5 (of_Z 2); Insert 7 (of_Z 1); Pop] in
  let b := snd (pop (insert (insert (new 2) 5 (of_Z 2)) 7 (of_Z 1))) in
  let ops := [Insert 9 (of_Z 3); Pop; Insert 11 (of_Z 1)] in
  1 <= 2 /\ run (new 2) history = Some b /\
  data_ (clear b) <> data_ (new 2) /\
  popped (clear b) ops = [9%Z] /\
  popped (clear b) ops = popped (new 2) ops.
Proof.
  intros history b ops.
  assert (HC : 1 <= 2) by (repeat constructor).
  assert (R : run (new 2) history = Some b) by (vm_compute; reflexivity).
  assert (D : data_ (clear b) <> data_ (new 2)) by (vm_compute; discriminate).
  assert (E : popped (clear b) ops = [9%Z]) by (vm_compute; reflexivity).
  exact (conj HC (conj R (conj D (conj E
    (proj1 (clear_is_as_good_as_new 2 history ops b HC R)))))).
Defined.

End BufferReuse.

(** ** [Candidate]: the two comparison operators *)

Module CandidateOrder.
Import Float32 Defines Float32Facts.

Lemma flt_nan_l (a b : float) : is_nan a = true -> flt a b = false.
Proof. destruct a; try discriminate. reflexivity. Qed.

Lemma flt_nan_r (a b : float) : is_nan b = true -> flt a b = false.
Proof. destruct b; try discriminate. destruct a; reflexivity. Qed.

(** X8.  [Candidate::operator>] is written [!( *this < other)], so it is "not
    less", not "greater": a candidate is [>] itself; of two candidates at
    least one is [>] the other; [a < b] gives [b > a] and excludes [a > b];
    and when either distance is a NaN each candidate is [>] the other. *)
Theorem candidate_gt_is_not_less (a b : Candidate) :
  Candidate_gt a a = true /\
  Candidate_gt a b || Candidate_gt b a = true /\
  implb (Candidate_lt a b) (Candidate_gt b a && negb (Candidate_gt a b))
  = true /\
  implb (is_nan (distance a) || is_nan (distance b))
        (Candidate_gt a b && Candidate_gt b a) = true.
Proof.
  unfold Candidate_gt, Candidate_lt.
  repeat split.
  - rewrite flt_irrefl. reflexivity.
  - destruct (flt (distance a) (distance b)) eqn:E; [|reflexivity].
    rewrite (flt_asym _ _ E). reflexivity.
  - destruct (flt (distance a) (distance b)) eqn:E; [|reflexivity].
    rewrite (flt_asym _ _ E). reflexivity.
  - destruct (is_nan (distance a)) eqn:Na.
    + rewrite (flt_nan_l _ _ Na), (flt_nan_r _ _ Na). reflexivity.
    + destruct (is_nan (distance b)) eqn:Nb; [|reflexivity].
      rewrite (flt_nan_l _ _ Nb), (flt_nan_r _ _ Nb). reflexivity.
Qed.

End CandidateOrder.

(** ** Prefetching and [make_unique_array] *)

Module MemoryMoreProperties.
Import Memory MemoryMore.

Lemma ladder_closed_form (prefetch : Z -> hint) (k : nat) (ptr : Z) :
  ladder prefetch k ptr
  = map (fun i => prefetch (ptr + 64 * Z.of_nat i)%Z) (seq 0 k).
Proof.
  revert ptr. induction k as [|k IH]; intros ptr; [reflexivity|].
  cbn [ladder seq map]. f_equal.
  - f_equal. lia.
  - rewrite IH, <- seq_shift, map_map. apply map_ext. intros i. f_equal. lia.
Qed.

Lemma switch_label_min (num_lines : nat) :
  switch_label num_lines = Nat.min num_lines 20.
Proof.
  unfold switch_label. destruct (Nat.leb_spec num_lines 20); lia.
Qed.

(** X9.  [mem_prefetch_l1(ptr, n)] and [mem_prefetch_l2(ptr, n)] issue one
    hint per cache line, for the lines at [ptr], [ptr + 64], ..., in
    ascending order, and for [min(n, 20)] lines only: a request for more than
    20 lines is served as one for 20. *)
Theorem mem_prefetch_covers_min_n_20_lines (ptr : Z) (num_lines : nat) :
  mem_prefetch_l1 ptr num_lines
  = map (fun i => T0 (ptr + 64 * Z.of_nat i)%Z)
        (seq 0 (Nat.min num_lines 20)) /\
  mem_prefetch_l2 ptr num_lines
  = map (fun i => T1 (ptr + 64 * Z.of_nat i)%Z)
        (seq 0 (Nat.min num_lines 20)) /\
  length (mem_prefetch_l1 ptr num_lines) = Nat.min num_lines 20 /\
  map hint_addr (mem_prefetch_l2 ptr num_lines)
  = map hint_addr (mem_prefetch_l1 ptr num_lines).
Proof.
  unfold mem_prefetch_l1, mem_prefetch_l2.
  rewrite !ladder_closed_form, switch_label_min.
  repeat split.
  - rewrite length_map, length_seq. reflexivity.
  - rewrite !map_map. reflexivity.
Qed.


End MemoryMoreProperties.

(** ** The cluster estimator over a whole query *)

Module ClusterEstimatorUse.
Import Float32 Defines Eigen Simd Quantization Estimator EstimatorSpec.
Import CaqCluEstimator ClusterUse.

Lemma max_zero_lanes (n : nat) (v : m512) :
  Forall (fun x => flt x fzero = false) (mm512_max_ps (repeat fzero n) v).
Proof.
  unfold mm512_max_ps. revert v.
  induction n as [|n IH]; intros [|y v]; cbn [repeat lanes]; constructor.
  - unfold fgt. destruct (SFltb y fzero) eqn:E; [reflexivity|exact E].
  - apply IH.
Qed.

Lemma varsEstDist_l2_lanes (e : t) (block_idx : nat) (out est : m512 * m512) :
  isIpDist e = false ->
  varsEstDist e block_idx (Some out) = Some est ->
  Forall (fun x => flt x fzero = false) (lanes_of est).
Proof.
  intros HL H. unfold varsEstDist in H. rewrite HL in H.
  injection H as <-. unfold lanes_of. cbn [fst snd].
  apply Forall_app. split; apply max_zero_lanes.
Qed.

(** X11.  In L2 mode no lane that [varsEstDist] or [compFastDist] writes
    compares below zero, whatever the norms, the codes, the prune bound and
    the kernels' results are: the estimates are clamped at zero (a NaN lane
    stays a NaN). *)
Theorem l2_estimates_are_clamped_at_zero (K : Kernels) (e : t)
  (block_idx : nat) (out est : m512 * m512) :
  isIpDist e = false ->
  varsEstDist e block_idx (Some out) = Some est
  \/ snd (compFastDist K e block_idx (Some out)) = Some est ->
  Forall (fun x => flt x fzero = false) (lanes_of est).
Proof.
  intros HL [H|H].
  - exact (varsEstDist_l2_lanes e block_idx out est HL H).
  - unfold compFastDist in H.
    destruct (Z.eqb (num_bits_ e) 0).
    + cbn [snd] in H. exact (varsEstDist_l2_lanes e block_idx out est HL H).
    + destruct (Lut_compFastIP K (lut_ e) _ _) as [lut [d0 d1]].
      rewrite HL in H. cbn [snd] in H. injection H as <-.
      unfold lanes_of. cbn [fst snd].
      apply Forall_app. split; apply max_zero_lanes.
Qed.

Lemma l2_estimates_are_clamped_at_zero_witness :
  exists e est,
    new L2Sqr (data64 1 true) (cfg_of L2Sqr) query0 = inr e /\
    isIpDist (prepare e cluster_0) = false /\
    snd (compFastDist zero_kernels
           (setPruneBound (prepare e cluster_0) (of_Z 100)) 0
           (Some (mm512_setzero_ps, mm512_setzero_ps))) = Some est /\
    Forall (fun x => flt x fzero = false) (lanes_of est).
Proof.
  eexists. eexists. split; [vm_compute; reflexivity|].
  split; [reflexivity|].
  split; [vm_compute; reflexivity|].
  match goal with |- Forall _ (lanes_of ?est) =>
    apply (l2_estimates_are_clamped_at_zero zero_kernels
             (setPruneBound
                (prepare
                   (mk L2Sqr 64 1 0 (cfg_of L2Sqr) query0 fzero
                       (Float64.ddiv (Float64.of_Z 2)
                          (Float64.of_Z (Z.shiftl 1 1)))
                       fzero fzero (Lut_new 64 0) None
                       (mkQueryRuntimeMetrics 0 0 0))
                   cluster_0) (of_Z 100))
             0 (mm512_setzero_ps, mm512_setzero_ps) est) end.
  - reflexivity.
  - right. vm_compute. reflexivity.
Defined.

(** X12.  In inner-product mode with B = 0, after [setPruneBound(vars)] and
    [prepare(cluster)] every vector of the cluster gets the same distances:
    [compAccurateDist] returns the inner product of the rotated query and the
    cluster's centroid, [compFastDist] fills the output with that value minus
    [vars * searcher_vars_bound_m]; neither reads the vector and neither
    changes the estimator. *)
Theorem zero_bits_ip_is_query_dot_centroid (K : Kernels) (e : t)
  (vars : float) (cluster : CAQClusterData) (vec_idx block_idx : nat)
  (out : m512 * m512) :
  num_bits_ e = 0%Z -> isIpDist e = true ->
  let e' := prepare (setPruneBound e vars) cluster in
  let qc := dot (query_data_ e) (centroid cluster) in
  let est :=
    mm512_set1_ps (fsub qc (fmul vars (searcher_vars_bound_m (cfg_ e)))) in
  compAccurateDist K e' vec_idx = (qc, e') /\
  compFastDist K e' block_idx (Some out) = (e', Some (est, est)) /\
  compFastDist K e' block_idx None = (e', None).
Proof.
  intros HB HI. cbv zeta.
  assert (HI' : isIpDist (setPruneBound e vars) = true) by exact HI.
  unfold compAccurateDist, compFastDist, varsEstDist, prepare.
  rewrite HI'. cbn [num_bits_ setPruneBound with_prune_bound].
  rewrite HB. cbn [Z.eqb].
  unfold isIpDist in *. cbn [kDistType cfg_ setPruneBound with_prune_bound].
  rewrite HI. cbn [ip_q_c_ without_ip_prune_bound_ query_data_].
  repeat split.
Qed.

Lemma zero_bits_ip_is_query_dot_centroid_witness :
  exists e,
    new IP (data64 0 true) (cfg_of IP) (of_Z 3 :: repeat fzero 63) = inr e /\
    num_bits_ e = 0%Z /\ isIpDist e = true /\
    fst (compAccurateDist zero_kernels
           (prepare (setPruneBound e (of_Z 1)) cluster_e1) 7) = of_Z 3 /\
    snd (compFastDist zero_kernels
           (prepare (setPruneBound e (of_Z 1)) cluster_e1) 0
           (Some (mm512_setzero_ps, mm512_setzero_ps)))
    = Some (mm512_set1_ps (of_Z 2), mm512_set1_ps (of_Z 2)).
Proof.
  eexists. split; [vm_compute; reflexivity|].
  match goal with |- num_bits_ ?e = _ /\ _ =>
    assert (HB : num_bits_ e = 0%Z) by reflexivity;
    assert (HI : isIpDist e = true) by reflexivity;
    pose proof (zero_bits_ip_is_query_dot_centroid zero_kernels e (of_Z 1)
                  cluster_e1 7 0 (mm512_setzero_ps, mm512_setzero_ps) HB HI)
      as [H1 [H2 _]]
  end.
  split; [exact HB|]. split; [exact HI|]. split.
  - rewrite H1. vm_compute. reflexivity.
  - rewrite H2. vm_compute. reflexivity.
Defined.

End ClusterEstimatorUse.

(** ** Construction, counters and cluster changes *)

Module EstimatorLifecycle.
Import Float32 Defines Eigen Simd Quantization Estimator EstimatorSpec.

(** X13.  The flat-layout check splits the data sets between the
    estimators: when the distance types agree, [CaqCluEstimator] is built
    exactly for fast-scan data and [CaqCluEstimatorSingle] and
    [CaqSingleEstimator] exactly for the other; when they do not agree all
    three stop with "distance type mismatch".  For every estimator that is
    built, [isIpDist()] is the test [cfg_.dist_type == DistType::IP] that
    [compAccurateDist] uses. *)
Theorem constructors_split_by_layout (K : Kernels) (kDist : DistType)
  (data : BaseQuantizerData) (c : SearcherConfig) (query : FloatVec) :
  match CaqCluEstimator.new kDist data c query,
        CaqCluEstimatorSingle.new kDist data c query,
        CaqSingleEstimator.new K kDist data c query with
  | inr e, inl _, inl _ =>
      use_fastscan (cfg data) = true /\
      CaqCluEstimator.isIpDist e = DistType_eqb (dist_type c) IP /\
      CaqCluEstimator.cfg_ e = c
  | inl _, inr e1, inr e2 =>
      use_fastscan (cfg data) = false /\
      CaqCluEstimatorSingle.isIpDist e1 = DistType_eqb (dist_type c) IP /\
      CaqEstimatorSingleImpl.isIpDist e2 = DistType_eqb (dist_type c) IP /\
      CaqEstimatorSingleImpl.cfg_ (CaqCluEstimatorSingle.Impl e1) = c /\
      CaqEstimatorSingleImpl.cfg_ e2 = c
  | inl m1, inl m2, inl m3 =>
      DistType_eqb kDist Any || DistType_eqb kDist (dist_type c) = false /\
      m1 = "distance type mismatch"%string /\ m2 = m1 /\ m3 = m1
  | _, _, _ => False
  end.
Proof.
  unfold CaqCluEstimator.new, CaqCluEstimatorSingle.new,
    CaqSingleEstimator.new, CaqEstimatorSingleImpl.new.
  destruct (DistType_eqb kDist Any || DistType_eqb kDist (dist_type c))
    eqn:HT; cbn [negb].
  - destruct (use_fastscan (cfg data)); cbn [negb].
    + repeat split.
      unfold CaqCluEstimator.isIpDist, isIpDist_of.
      cbn [CaqCluEstimator.kDistType CaqCluEstimator.cfg_].
      destruct kDist, (dist_type c); try reflexivity; discriminate.
    + repeat split;
        unfold CaqCluEstimatorSingle.isIpDist,
          CaqEstimatorSingleImpl.isIpDist, isIpDist_of;
        cbn [CaqCluEstimatorSingle.Impl CaqEstimatorSingleImpl.prepare
             CaqEstimatorSingleImpl.kDistType CaqEstimatorSingleImpl.cfg_];
        destruct kDist, (dist_type c); try reflexivity; discriminate.
  - repeat split.
Qed.

End EstimatorLifecycle.

Module ClusterCounters.
Import Float32 Defines Eigen Simd Quantization Estimator EstimatorSpec.
Import CaqCluEstimator ClusterUse.

Lemma clu_step_frozen (K : Kernels) (e : t) (c : call) : frozen e (step K e c).
Proof.
  unfold frozen. destruct c as [vars|cl|blk out|blk out|i]; cbn [step].
  - repeat split.
  - unfold prepare. destruct (isIpDist e) eqn:HI; cbn.
    + repeat split. intros H; discriminate.
    + repeat split.
  - repeat split.
  - unfold compFastDist. destruct (Z.eqb (num_bits_ e) 0).
    + repeat split.
    + unfold Lut_compFastIP.
      destruct (fastscan_ip K _ _ _) as [d0 d1].
      destruct out; cbn; repeat split.
  - unfold compAccurateDist. destruct (Z.eqb (num_bits_ e) 0).
    + destruct (isIpDist e); repeat split.
    + destruct (DistType_eqb _ _); repeat split.
Qed.

Lemma clu_frozen_isIpDist (e e' : t) : frozen e e' -> isIpDist e' = isIpDist e.
Proof.
  intros (Hk & _ & _ & _ & Hc & _). unfold isIpDist. rewrite Hk, Hc.
  reflexivity.
Qed.

Lemma clu_frozen_refl (e : t) : frozen e e.
Proof. unfold frozen. repeat split. Qed.

Lemma clu_frozen_trans (e1 e2 e3 : t) :
  frozen e1 e2 -> frozen e2 e3 -> frozen e1 e3.
Proof.
  intros F12 F23. pose proof (clu_frozen_isIpDist _ _ F12) as HI.
  destruct F12 as (A1 & A2 & A3 & A4 & A5 & A6 & A7 & A8 & A9 & A10 & A11).
  destruct F23 as (B1 & B2 & B3 & B4 & B5 & B6 & B7 & B8 & B9 & B10 & B11).
  unfold frozen. repeat split; try congruence.
  intros H. rewrite B11 by congruence. apply A11. exact H.
Qed.

Lemma clu_calls_frozen (K : Kernels) (l : list call) (e : t) :
  frozen e (calls K e l).
Proof.
  revert e. induction l as [|c l IH]; intros e.
  - apply clu_frozen_refl.
  - cbn [calls fold_left].
    exact (clu_frozen_trans _ _ _ (clu_step_frozen K e c) (IH (step K e c))).
Qed.

Lemma wrap_acc (a D B : Z) :
  size_t_wrap (a + size_t_wrap (D * size_t_wrap (B - 1)))
  = ((a + D * (B - 1)) mod 2 ^ 64)%Z.
Proof.
  unfold size_t_wrap. rewrite Zplus_mod_idemp_r.
  rewrite <- (Zplus_mod_idemp_r (D * ((B - 1) mod 2 ^ 64))).
  rewrite Zmult_mod_idemp_r, Zplus_mod_idemp_r. reflexivity.
Qed.

(** One call and the counters. *)
Lemma clu_step_counters (K : Kernels) (e : t) (c : call) :
  (num_bits_ e = 0%Z -> runtime_statics_ (step K e c) = runtime_statics_ e) /\
  (num_bits_ e <> 0%Z ->
   fast_bitsum (runtime_statics_ (step K e c))
   = (if is_fast_scan c
      then (fast_bitsum (runtime_statics_ e) + 32 * num_dim_padded_ e)
             mod 2 ^ 64
      else fast_bitsum (runtime_statics_ e))%Z /\
   acc_bitsum (runtime_statics_ (step K e c))
   = (if is_accurate c
      then (acc_bitsum (runtime_statics_ e)
            + num_dim_padded_ e * (num_bits_ e - 1)) mod 2 ^ 64
      else acc_bitsum (runtime_statics_ e))%Z).
Proof.
  destruct c as [vars|cl|blk out|blk out|i];
    cbn [step is_fast_scan is_accurate].
  - split; [reflexivity|]. split; reflexivity.
  - unfold prepare. destruct (isIpDist e); split; try reflexivity;
      split; reflexivity.
  - split; [reflexivity|]. split; reflexivity.
  - unfold compFastDist. split.
    + intros HB. rewrite HB. reflexivity.
    + intros HB. apply Z.eqb_neq in HB. rewrite HB.
      unfold Lut_compFastIP. destruct (fastscan_ip K _ _ _) as [d0 d1].
      destruct out as [o|]; cbn [fst runtime_statics_ with_metrics with_lut
                                 fast_bitsum acc_bitsum num_dim_padded_].
      * split; [|reflexivity]. unfold size_t_wrap.
        change (Z.of_nat KFastScanSize) with 32%Z.
        rewrite Zplus_mod_idemp_r. reflexivity.
      * split; reflexivity.
  - unfold compAccurateDist. split.
    + intros HB. rewrite HB. cbn [Z.eqb]. destruct (isIpDist e); reflexivity.
    + intros HB. apply Z.eqb_neq in HB. rewrite HB.
      destruct (DistType_eqb _ _);
        cbn [snd runtime_statics_ with_metrics fast_bitsum acc_bitsum];
        (split; [reflexivity|]); apply wrap_acc.
Qed.

Lemma clu_calls_counters_zero_bits (K : Kernels) (l : list call) (e : t) :
  num_bits_ e = 0%Z -> runtime_statics_ (calls K e l) = runtime_statics_ e.
Proof.
  revert e. induction l as [|c l IH]; intros e HB; [reflexivity|].
  cbn [calls fold_left]. fold (calls K (step K e c) l).
  destruct (clu_step_frozen K e c) as (_ & _ & HB' & _).
  rewrite IH by congruence. apply (proj1 (clu_step_counters K e c)). exact HB.
Qed.

Lemma clu_calls_counters (K : Kernels) (l : list call) (e : t) :
  num_bits_ e <> 0%Z ->
  (0 <= fast_bitsum (runtime_statics_ e) < 2 ^ 64)%Z ->
  (0 <= acc_bitsum (runtime_statics_ e) < 2 ^ 64)%Z ->
  fast_bitsum (runtime_statics_ (calls K e l))
  = ((fast_bitsum (runtime_statics_ e)
      + Z.of_nat (fast_scans l) * (32 * num_dim_padded_ e)) mod 2 ^ 64)%Z /\
  acc_bitsum (runtime_statics_ (calls K e l))
  = ((acc_bitsum (runtime_statics_ e)
      + Z.of_nat (accurate_calls l)
        * (num_dim_padded_ e * (num_bits_ e - 1))) mod 2 ^ 64)%Z.
Proof.
  revert e. induction l as [|c l IH]; intros e HB HF HA.
  - cbn [calls fold_left fast_scans accurate_calls filter length Z.of_nat].
    rewrite !Z.mul_0_l, !Z.add_0_r, !Z.mod_small by assumption.
    split; reflexivity.
  - cbn [calls fold_left]. fold (calls K (step K e c) l).
    destruct (clu_step_frozen K e c) as (_ & HD & HB' & _).
    destruct (proj2 (clu_step_counters K e c) HB) as [SF SA].
    assert (M : (0 < 2 ^ 64)%Z) by reflexivity.
    assert (HF' : (0 <= fast_bitsum (runtime_statics_ (step K e c))
                   < 2 ^ 64)%Z).
    { rewrite SF. destruct (is_fast_scan c); [apply Z.mod_pos_bound; exact M|].
      exact HF. }
    assert (HA' : (0 <= acc_bitsum (runtime_statics_ (step K e c)) < 2 ^ 64)%Z).
    { rewrite SA. destruct (is_accurate c); [apply Z.mod_pos_bound; exact M|].
      exact HA. }
    destruct (IH (step K e c) ltac:(congruence) HF' HA') as [IF IA].
    rewrite IF, IA, SF, SA, HD, HB'.
    unfold fast_scans, accurate_calls. cbn [filter].
    split.
    + destruct (is_fast_scan c); cbn [length].
      * rewrite Zplus_mod_idemp_l. f_equal. lia.
      * reflexivity.
    + destruct (is_accurate c); cbn [length].
      * rewrite Zplus_mod_idemp_l. f_equal. lia.
      * reflexivity.
Qed.

(** X14.  Over any sequence of calls on a constructed [CaqCluEstimator]
    (dimension D, B bits): [total_comp_cnt] stays 0; with B = 0 no counter
    ever moves; with B >= 1 [fast_bitsum] is [32 * D] times the number of
    [compFastDist] calls that were given an output array and [acc_bitsum] is
    [D * (B - 1)] times the number of [compAccurateDist] calls, both modulo
    2^64.  [setPruneBound], [prepare] and [varsEstDist] count nothing. *)
Theorem bit_counters_count_the_calls (K : Kernels) (kDist : DistType)
  (data : BaseQuantizerData) (c : SearcherConfig) (query : FloatVec)
  (e : t) (l : list call) :
  new kDist data c query = inr e ->
  let m := getRuntimeMetrics (calls K e l) in
  let D := num_dim_pad data in
  let B := uint8_wrap (num_bits data) in
  total_comp_cnt m = 0%Z /\
  fast_bitsum m
  = (if B =? 0 then 0
     else (Z.of_nat (fast_scans l) * (32 * D)) mod 2 ^ 64)%Z /\
  acc_bitsum m
  = (if B =? 0 then 0
     else (Z.of_nat (accurate_calls l) * (D * (B - 1))) mod 2 ^ 64)%Z.
Proof.
  intros Hnew. cbv zeta. unfold getRuntimeMetrics.
  unfold new in Hnew.
  destruct (negb (DistType_eqb kDist Any || DistType_eqb kDist (dist_type c)));
    [discriminate|].
  destruct (negb (use_fastscan (cfg data))); [discriminate|].
  injection Hnew as <-.
  match goal with |- context [calls K ?e0 l] => set (e := e0) end.
  destruct (clu_calls_frozen K l e)
    as (_ & _ & _ & _ & _ & _ & _ & _ & _ & HT & _).
  split; [rewrite HT; reflexivity|].
  destruct (Z.eqb_spec (uint8_wrap (num_bits data)) 0) as [HB|HB].
  - rewrite (clu_calls_counters_zero_bits K l e HB). split; reflexivity.
  - destruct (clu_calls_counters K l e HB) as [HF HA];
      [cbn; lia | cbn; lia |].
    rewrite HF, HA. split; reflexivity.
Qed.

Lemma bit_counters_count_the_calls_witness :
  exists e,
    new L2Sqr (data64 4 true) (cfg_of L2Sqr) query0 = inr e /\
    let m :=
      getRuntimeMetrics
        (calls zero_kernels e
           [Prepare cluster_0;
            CompFastDist 0 (Some (mm512_setzero_ps, mm512_setzero_ps));
            CompFastDist 1 None;
            CompAccurateDist 3; SetPruneBound (of_Z 1);
            CompAccurateDist 5;
            CompFastDist 2 (Some (mm512_setzero_ps, mm512_setzero_ps));
            CompAccurateDist 40]) in
    total_comp_cnt m = 0%Z /\ fast_bitsum m = 4096%Z /\ acc_bitsum m = 576%Z.
Proof.
  eexists. split; [vm_compute; reflexivity|].
  match goal with |- context [calls _ ?e ?l] =>
    exact (bit_counters_count_the_calls zero_kernels L2Sqr (data64 4 true)
             (cfg_of L2Sqr) query0 e l eq_refl) end.
Defined.




End ClusterCounters.

(** ** The single-vector estimators *)

Module SingleEstimatorUse.
Import Float32 Defines Eigen Simd Quantization Estimator EstimatorSpec.
Import Float32Facts.
Import CaqEstimatorSingleImpl SingleDistances SingleUse.

Lemma fle_flt_false (a b : float) : fle a b = true -> flt b a = false.
Proof.
  intros H. destruct (fle_not_nan _ _ H) as [Na Nb].
  rewrite (fle_not_flt a b Na Nb) in H.
  destruct (flt b a); [discriminate|reflexivity].
Qed.

Lemma varsEstDist_l2_not_negative (e : t) (o_l2norm : float) :
  isIpDist e = false -> fle fzero (varsEstDist e o_l2norm) = true.
Proof.
  intros HL. unfold varsEstDist, std_max. rewrite HL.
  match goal with |- context [flt fzero ?x] =>
    destruct (flt fzero x) eqn:E end.
  - apply flt_fle. exact E.
  - reflexivity.
Qed.

Lemma compFastDist_l2_not_negative (S : SingleKernels) (e : t)
  (o_l2norm : float) (short_code : list Z) :
  isIpDist e = false ->
  flt (fst (compFastDist S e o_l2norm short_code)) fzero = false.
Proof.
  intros HL. unfold compFastDist.
  destruct (Z.eqb (num_bits_ e) 0).
  - cbn [fst]. apply fle_flt_false. apply varsEstDist_l2_not_negative.
    exact HL.
  - rewrite HL. cbn [negb fst]. unfold std_max.
    match goal with |- context [if flt ?x fzero then _ else _] =>
      destruct (flt x fzero) eqn:E end.
    + reflexivity.
    + exact E.
Qed.

(** X16.  In L2 mode the single-vector estimators never return an estimate
    below zero: [varsEstDist] returns a number that is at least 0 (a NaN
    intermediate becomes 0), [compFastDist] a value that does not compare
    below 0 (a NaN stays a NaN), through [CaqCluEstimatorSingle] and through
    [CaqSingleEstimator] alike. *)
Theorem single_l2_estimates_are_clamped_at_zero (S : SingleKernels) (e : t)
  (query_data : FloatVec) (cluster : option CAQClusterData) (vec_idx : nat)
  (caq : CaqSingleEstimator.CaqSingleDataWrapper) :
  isIpDist e = false ->
  let clu := CaqCluEstimatorSingle.mk e query_data cluster in
  fle fzero (CaqCluEstimatorSingleDist.varsEstDist clu vec_idx) = true /\
  flt (fst (CaqCluEstimatorSingleDist.compFastDist S clu vec_idx)) fzero
  = false /\
  fle fzero (CaqSingleEstimator.varsEstDist e caq) = true /\
  flt (fst (CaqSingleEstimator.compFastDist S e caq)) fzero = false.
Proof.
  intros HL. cbv zeta.
  unfold CaqCluEstimatorSingleDist.varsEstDist,
    CaqCluEstimatorSingleDist.compFastDist,
    CaqSingleEstimator.varsEstDist, CaqSingleEstimator.compFastDist.
  cbn [CaqCluEstimatorSingle.Impl].
  repeat split.
  - apply varsEstDist_l2_not_negative. exact HL.
  - match goal with |- context [compFastDist S e ?x ?c] =>
      pose proof (compFastDist_l2_not_negative S e x c HL) as H;
      destruct (compFastDist S e x c) as [d impl] end.
    exact H.
  - apply varsEstDist_l2_not_negative. exact HL.
  - apply compFastDist_l2_not_negative. exact HL.
Qed.

Lemma single_l2_estimates_are_clamped_at_zero_witness :
  exists e,
    CaqSingleEstimator.new zero_kernels L2Sqr (data64 2 false)
      (cfg_of L2Sqr) (of_Z 1 :: repeat fzero 63) = inr e /\
    isIpDist e = false /\
    CaqSingleEstimator.varsEstDist (setPruneBound e (of_Z 9))
      (CaqSingleEstimator.mkCaqSingleDataWrapper
         (of_Z 1) [] [] (mkExFactor (of_Z 1))) = fzero /\
    flt (fst (CaqSingleEstimator.compFastDist zero_single_kernels
                (setPruneBound e (of_Z 9))
                (CaqSingleEstimator.mkCaqSingleDataWrapper
                   (of_Z 1) [] [] (mkExFactor (of_Z 1))))) fzero = false.
Proof.
  eexists. split; [vm_compute; reflexivity|].
  split; [reflexivity|]. split; [vm_compute; reflexivity|].
  match goal with |- flt (fst (CaqSingleEstimator.compFastDist _ ?e ?caq)) _
                     = false =>
    exact (proj2 (proj2 (proj2
             (single_l2_estimates_are_clamped_at_zero zero_single_kernels
                e [] None 0 caq eq_refl)))) end.
Defined.

Lemma impl_step_frozen (K : Kernels) (S : SingleKernels) (e : t) (c : call) :
  frozen e (step K S e c).
Proof.
  unfold frozen. destruct c as [vars|q|x|x sc|x sc lc f]; cbn [step].
  - repeat split.
  - repeat split.
  - repeat split.
  - unfold compFastDist. destruct (Z.eqb (num_bits_ e) 0).
    + repeat split.
    + destruct (negb (isIpDist e)); repeat split.
  - unfold compAccurateDist. destruct (Z.eqb (num_bits_ e) 0).
    + destruct (isIpDist e); repeat split.
    + destruct (DistType_eqb _ _); repeat split.
Qed.

Lemma impl_frozen_refl (e : t) : frozen e e.
Proof. unfold frozen. repeat split. Qed.

Lemma impl_frozen_trans (e1 e2 e3 : t) :
  frozen e1 e2 -> frozen e2 e3 -> frozen e1 e3.
Proof.
  unfold frozen. intros F12 F23.
  destruct F12 as (A1 & A2 & A3 & A4 & A5 & A6 & A7 & A8 & A9 & A10).
  destruct F23 as (B1 & B2 & B3 & B4 & B5 & B6 & B7 & B8 & B9 & B10).
  repeat split; congruence.
Qed.

Lemma impl_calls_frozen (K : Kernels) (S : SingleKernels) (l : list call)
  (e : t) :
  frozen e (calls K S e l).
Proof.
  revert e. induction l as [|c l IH]; intros e.
  - apply impl_frozen_refl.
  - cbn [calls fold_left].
    exact (impl_frozen_trans _ _ _ (impl_step_frozen K S e c)
             (IH (step K S e c))).
Qed.

Lemma impl_frozen_isIpDist (e e' : t) : frozen e e' -> isIpDist e' = isIpDist e.
Proof.
  intros (Hk & _ & _ & _ & _ & Hc & _). unfold isIpDist. rewrite Hk, Hc.
  reflexivity.
Qed.

Lemma impl_step_counters (K : Kernels) (S : SingleKernels) (e : t) (c : call) :
  (num_bits_ e = 0%Z ->
   runtime_statics_ (step K S e c) = runtime_statics_ e) /\
  (num_bits_ e <> 0%Z ->
   fast_bitsum (runtime_statics_ (step K S e c))
   = (if is_fast c
      then (fast_bitsum (runtime_statics_ e) + num_dim_padded_ e) mod 2 ^ 64
      else fast_bitsum (runtime_statics_ e))%Z /\
   acc_bitsum (runtime_statics_ (step K S e c))
   = (if is_accurate c
      then (acc_bitsum (runtime_statics_ e)
            + num_dim_padded_ e * (num_bits_ e - 1)) mod 2 ^ 64
      else acc_bitsum (runtime_statics_ e))%Z).
Proof.
  destruct c as [vars|q|x|x sc|x sc lc f]; cbn [step is_fast is_accurate].
  - split; [reflexivity|]. split; reflexivity.
  - split; [reflexivity|]. split; reflexivity.
  - split; [reflexivity|]. split; reflexivity.
  - unfold compFastDist. split.
    + intros HB. rewrite HB. reflexivity.
    + intros HB. apply Z.eqb_neq in HB. rewrite HB.
      destruct (negb (isIpDist e)); split; reflexivity.
  - unfold compAccurateDist. split.
    + intros HB. rewrite HB. cbn [Z.eqb]. destruct (isIpDist e); reflexivity.
    + intros HB. apply Z.eqb_neq in HB. rewrite HB.
      destruct (DistType_eqb _ _);
        cbn [snd runtime_statics_ with_metrics fast_bitsum acc_bitsum];
        (split; [reflexivity|]); apply ClusterCounters.wrap_acc.
Qed.

Lemma impl_calls_counters_zero_bits (K : Kernels) (S : SingleKernels)
  (l : list call) (e : t) :
  num_bits_ e = 0%Z -> runtime_statics_ (calls K S e l) = runtime_statics_ e.
Proof.
  revert e. induction l as [|c l IH]; intros e HB; [reflexivity|].
  cbn [calls fold_left]. fold (calls K S (step K S e c) l).
  destruct (impl_step_frozen K S e c) as (_ & _ & HB' & _).
  rewrite IH by congruence.
  apply (proj1 (impl_step_counters K S e c)). exact HB.
Qed.

Lemma impl_calls_counters (K : Kernels) (S : SingleKernels) (l : list call)
  (e : t) :
  num_bits_ e <> 0%Z ->
  (0 <= fast_bitsum (runtime_statics_ e) < 2 ^ 64)%Z ->
  (0 <= acc_bitsum (runtime_statics_ e) < 2 ^ 64)%Z ->
  fast_bitsum (runtime_statics_ (calls K S e l))
  = ((fast_bitsum (runtime_statics_ e)
      + Z.of_nat (fast_calls l) * num_dim_padded_ e) mod 2 ^ 64)%Z /\
  acc_bitsum (runtime_statics_ (calls K S e l))
  = ((acc_bitsum (runtime_statics_ e)
      + Z.of_nat (accurate_calls l)
        * (num_dim_padded_ e * (num_bits_ e - 1))) mod 2 ^ 64)%Z.
Proof.
  revert e. induction l as [|c l IH]; intros e HB HF HA.
  - cbn [calls fold_left fast_calls accurate_calls filter length Z.of_nat].
    rewrite !Z.mul_0_l, !Z.add_0_r, !Z.mod_small by assumption.
    split; reflexivity.
  - cbn [calls fold_left]. fold (calls K S (step K S e c) l).
    destruct (impl_step_frozen K S e c) as (_ & HD & HB' & _).
    destruct (proj2 (impl_step_counters K S e c) HB) as [SF SA].
    assert (M : (0 < 2 ^ 64)%Z) by reflexivity.
    assert (HF' : (0 <= fast_bitsum (runtime_statics_ (step K S e c))
                   < 2 ^ 64)%Z).
    { rewrite SF. destruct (is_fast c); [apply Z.mod_pos_bound; exact M|].
      exact HF. }
    assert (HA' : (0 <= acc_bitsum (runtime_statics_ (step K S e c))
                   < 2 ^ 64)%Z).
    { rewrite SA. destruct (is_accurate c); [apply Z.mod_pos_bound; exact M|].
      exact HA. }
    destruct (IH (step K S e c) ltac:(congruence) HF' HA') as [IF IA].
    rewrite IF, IA, SF, SA, HD, HB'.
    unfold fast_calls, accurate_calls. cbn [filter].
    split.
    + destruct (is_fast c); cbn [length].
      * rewrite Zplus_mod_idemp_l. f_equal. lia.
      * reflexivity.
    + destruct (is_accurate c); cbn [length].
      * rewrite Zplus_mod_idemp_l. f_equal. lia.
      * reflexivity.
Qed.

Lemma new_fields (K : Kernels) (kDist : DistType) (data : BaseQuantizerData)
  (c : SearcherConfig) (query : FloatVec) (e : t) :
  CaqSingleEstimator.new K kDist data c query = inr e ->
  num_dim_padded_ e = num_dim_pad data /\
  num_bits_ e = uint8_wrap (num_bits data) /\
  cfg_ e = c /\ isIpDist e = DistType_eqb (dist_type c) IP /\
  ip_q_c_ e = fzero /\ without_ip_prune_bound_ e = fzero /\
  runtime_statics_ e = mkQueryRuntimeMetrics 0 0 0.
Proof.
  unfold CaqSingleEstimator.new, new. intros H.
  destruct (DistType_eqb kDist Any || DistType_eqb kDist (dist_type c))
    eqn:HT; cbn [negb] in H; [|discriminate].
  destruct (use_fastscan (cfg data)); [discriminate|].
  injection H as <-. repeat split.
  unfold isIpDist, isIpDist_of. cbn [prepare kDistType cfg_].
  destruct kDist, (dist_type c); try reflexivity; discriminate.
Qed.

(** X17.  Over any sequence of calls on a constructed [CaqSingleEstimator]
    (dimension D, B bits): [total_comp_cnt] stays 0; with B = 0 no counter
    ever moves; with B >= 1 [fast_bitsum] is D times the number of
    [compFastDist] calls and [acc_bitsum] is [D * (B - 1)] times the number
    of [compAccurateDist] calls, both modulo 2^64. *)
Theorem single_bit_counters_count_the_calls (K : Kernels) (S : SingleKernels)
  (kDist : DistType) (data : BaseQuantizerData) (c : SearcherConfig)
  (query : FloatVec) (e : t) (l : list call) :
  CaqSingleEstimator.new K kDist data c query = inr e ->
  let m := getRuntimeMetrics (calls K S e l) in
  let D := num_dim_pad data in
  let B := uint8_wrap (num_bits data) in
  total_comp_cnt m = 0%Z /\
  fast_bitsum m
  = (if B =? 0 then 0 else (Z.of_nat (fast_calls l) * D) mod 2 ^ 64)%Z /\
  acc_bitsum m
  = (if B =? 0 then 0
     else (Z.of_nat (accurate_calls l) * (D * (B - 1))) mod 2 ^ 64)%Z.
Proof.
  intros Hnew. cbv zeta. unfold getRuntimeMetrics.
  destruct (new_fields K kDist data c query e Hnew)
    as (HD & HB & _ & _ & _ & _ & HM).
  destruct (impl_calls_frozen K S l e)
    as (_ & _ & _ & _ & _ & _ & _ & _ & _ & HT).
  split; [rewrite HT, HM; reflexivity|].
  rewrite <- HB, <- HD.
  destruct (Z.eqb_spec (num_bits_ e) 0) as [Z0|Z0].
  - rewrite (impl_calls_counters_zero_bits K S l e Z0), HM. split; reflexivity.
  - destruct (impl_calls_counters K S l e Z0) as [HF HA];
      [rewrite HM; cbn; lia | rewrite HM; cbn; lia |].
    rewrite HF, HA, HM. split; reflexivity.
Qed.

Lemma single_bit_counters_count_the_calls_witness :
  exists e,
    CaqSingleEstimator.new zero_kernels L2Sqr (data64 4 false)
      (cfg_of L2Sqr) query0 = inr e /\
    let m :=
      getRuntimeMetrics
        (calls zero_kernels zero_single_kernels e
           [CompFastDist (of_Z 1) []; SetPruneBound (of_Z 1);
            CompAccurateDist (of_Z 1) [] [] (mkExFactor (of_Z 1));
            VarsEstDist (of_Z 1); CompFastDist (of_Z 2) []]) in
    total_comp_cnt m = 0%Z /\ fast_bitsum m = 128%Z /\ acc_bitsum m = 192%Z.
Proof.
  eexists. split; [vm_compute; reflexivity|].
  match goal with |- context [calls _ _ ?e ?l] =>
    exact (single_bit_counters_count_the_calls zero_kernels
             zero_single_kernels L2Sqr (data64 4 false) (cfg_of L2Sqr)
             query0 e l eq_refl) end.
Defined.

(** X18.  Nothing ever assigns [ip_q_c_] in the single-vector estimators: it
    is +0 after construction and after every call.  So in inner-product mode
    [varsEstDist] is [0 - bound] whatever the query is, and with B = 0
    [compAccurateDist] returns +0 and [compFastDist] returns [0 - bound] for
    every vector. *)
Theorem single_ip_offset_is_never_set (K : Kernels) (S : SingleKernels)
  (kDist : DistType) (data : BaseQuantizerData) (c : SearcherConfig)
  (query : FloatVec) (e : t) (l : list call)
  (caq : CaqSingleEstimator.CaqSingleDataWrapper) :
  CaqSingleEstimator.new K kDist data c query = inr e ->
  dist_type c = IP ->
  let now := calls K S e l in
  ip_q_c_ now = fzero /\
  CaqSingleEstimator.varsEstDist now caq
  = fsub fzero (without_ip_prune_bound_ now) /\
  (uint8_wrap (num_bits data) = 0%Z ->
   fst (CaqSingleEstimator.compAccurateDist K S now caq) = fzero /\
   fst (CaqSingleEstimator.compFastDist S now caq)
   = fsub fzero (without_ip_prune_bound_ now)).
Proof.
  intros Hnew HIP. cbv zeta.
  destruct (new_fields K kDist data c query e Hnew)
    as (_ & HB & _ & HI & HQ & _ & _).
  rewrite HIP in HI. cbn [DistType_eqb] in HI.
  pose proof (impl_calls_frozen K S l e) as F.
  pose proof (impl_frozen_isIpDist _ _ F) as HI'. rewrite HI in HI'.
  destruct F as (_ & _ & HB' & _ & _ & _ & _ & _ & HQ' & _).
  rewrite HQ in HQ'.
  assert (V : forall x, varsEstDist (calls K S e l) x
                        = fsub fzero
                            (without_ip_prune_bound_ (calls K S e l))).
  { intros x. unfold varsEstDist. rewrite HI', HQ'. reflexivity. }
  split; [exact HQ'|]. split; [apply V|].
  intros Z0. rewrite HB, Z0 in HB'.
  unfold CaqSingleEstimator.compAccurateDist, CaqSingleEstimator.compFastDist,
    compAccurateDist, compFastDist.
  rewrite HB', HI'. cbn [Z.eqb fst]. split; [exact HQ'|apply V].
Qed.

Lemma single_ip_offset_is_never_set_witness :
  exists e,
    CaqSingleEstimator.new zero_kernels IP (data64 0 false) (cfg_of IP)
      (of_Z 3 :: repeat fzero 63) = inr e /\
    dist_type (cfg_of IP) = IP /\
    fst (CaqSingleEstimator.compAccurateDist zero_kernels
           zero_single_kernels
           (calls zero_kernels zero_single_kernels e
              [SetPruneBound (of_Z 2); Prepare (of_Z 5 :: repeat fzero 63)])
           (CaqSingleEstimator.mkCaqSingleDataWrapper
              (of_Z 7) [] [] (mkExFactor (of_Z 1)))) = fzero.
Proof.
  eexists. split; [vm_compute; reflexivity|].
  split; [reflexivity|].
  match goal with
  | |- fst (CaqSingleEstimator.compAccurateDist _ _ (calls _ _ ?e ?l) ?caq)
       = _ =>
    exact (proj1 (proj2 (proj2
             (single_ip_offset_is_never_set zero_kernels zero_single_kernels
                IP (data64 0 false) (cfg_of IP) (of_Z 3 :: repeat fzero 63)
                e l caq eq_refl eq_refl)) eq_refl)) end.
Defined.

Lemma impl_ext (a b : t) :
  kDistType a = kDistType b -> num_dim_padded_ a = num_dim_padded_ b ->
  num_bits_ a = num_bits_ b -> ex_bits_ a = ex_bits_ b ->
  one_over_sqrtD_ a = one_over_sqrtD_ b -> cfg_ a = cfg_ b ->
  caq_delta_ a = caq_delta_ b -> curr_query_ a = curr_query_ b ->
  query_sq_ a = query_sq_ b -> query_bin_ a = query_bin_ b ->
  q_delta_ a = q_delta_ b -> q_vl_ a = q_vl_ b -> q_vr_ a = q_vr_ b ->
  ip_q_c_ a = ip_q_c_ b -> delta_ a = delta_ b -> sum_q_ a = sum_q_ b ->
  q_l2sqr_ a = q_l2sqr_ b -> q_l2norm_ a = q_l2norm_ b ->
  without_ip_prune_bound_ a = without_ip_prune_bound_ b ->
  runtime_statics_ a = runtime_statics_ b ->
  a = b.
Proof.
  destruct a, b. cbn. intros. subst. reflexivity.
Qed.

Ltac impl_fields :=
  cbn [prepare with_metrics with_prune_bound
       kDistType num_dim_padded_ num_bits_ ex_bits_ one_over_sqrtD_ cfg_
       caq_delta_ curr_query_ query_sq_ query_bin_ q_delta_ q_vl_ q_vr_
       ip_q_c_ delta_ sum_q_ q_l2sqr_ q_l2norm_ without_ip_prune_bound_
       runtime_statics_].

(** [prepare] overwrites all it reads, the dimension apart. *)
Lemma impl_prepare_frozen (K : Kernels) (a b : t) (query : FloatVec) :
  frozen a b ->
  prepare K b query
  = with_metrics
      (with_prune_bound (prepare K a query) (without_ip_prune_bound_ b))
      (runtime_statics_ b).
Proof.
  intros (A1 & A2 & A3 & A4 & A5 & A6 & A7 & A8 & A9 & A10).
  apply impl_ext; impl_fields; congruence.
Qed.

Lemma impl_same_frozen (a b : t) :
  frozen a b -> same_query a b ->
  b = with_metrics (with_prune_bound a (without_ip_prune_bound_ b))
        (runtime_statics_ b).
Proof.
  intros (A1 & A2 & A3 & A4 & A5 & A6 & A7 & A8 & A9 & A10)
         (B1 & B2 & B3 & B4 & B5 & B6 & B7 & B8 & B9).
  apply impl_ext; impl_fields; congruence.
Qed.

Lemma impl_step_same_query (K : Kernels) (S : SingleKernels) (e : t)
  (c : call) :
  match c with Prepare _ => True | _ => same_query e (step K S e c) end.
Proof.
  unfold same_query. destruct c as [vars|q|x|x sc|x sc lc f]; cbn [step].
  - repeat split.
  - exact I.
  - repeat split.
  - unfold compFastDist. destruct (Z.eqb (num_bits_ e) 0).
    + repeat split.
    + destruct (negb (isIpDist e)); repeat split.
  - unfold compAccurateDist. destruct (Z.eqb (num_bits_ e) 0).
    + destruct (isIpDist e); repeat split.
    + destruct (DistType_eqb _ _); repeat split.
Qed.

(** The distances read neither the prune bound (for B >= 1) nor the
    counters. *)
Lemma impl_compAccurateDist_reads (K : Kernels) (S : SingleKernels) (e : t)
  (b : float) (m : QueryRuntimeMetrics) (o_l2norm : float)
  (short_code code : list Z) (ex_fac : ExFactor) :
  fst (compAccurateDist K S (with_metrics (with_prune_bound e b) m)
         o_l2norm short_code code ex_fac)
  = fst (compAccurateDist K S e o_l2norm short_code code ex_fac).
Proof.
  unfold compAccurateDist. impl_fields.
  change (isIpDist (with_metrics (with_prune_bound e b) m))
    with (isIpDist e).
  destruct (Z.eqb (num_bits_ e) 0).
  - destruct (isIpDist e); reflexivity.
  - destruct (DistType_eqb _ _); reflexivity.
Qed.

Lemma impl_compFastDist_reads (S : SingleKernels) (e : t) (b : float)
  (m : QueryRuntimeMetrics) (o_l2norm : float) (short_code : list Z) :
  num_bits_ e <> 0%Z ->
  fst (compFastDist S (with_metrics (with_prune_bound e b) m)
         o_l2norm short_code)
  = fst (compFastDist S e o_l2norm short_code).
Proof.
  intros HB. apply Z.eqb_neq in HB. unfold compFastDist. impl_fields.
  change (isIpDist (with_metrics (with_prune_bound e b) m))
    with (isIpDist e).
  rewrite HB. destruct (negb (isIpDist e)); reflexivity.
Qed.

End SingleEstimatorUse.

(** ** [CaqCluEstimatorSingle] from cluster to cluster *)

Module ClusterSingleEstimatorUse.
Import Float32 Defines Eigen Simd Quantization Estimator EstimatorSpec.
Import SingleEstimatorUse.
Import CaqCluEstimatorSingle CaqCluEstimatorSingleDist ClusterSingleUse.

Lemma one_frozen_isIpDist (e e' : t) :
  frozen e e' -> isIpDist e' = isIpDist e.
Proof.
  intros [F _]. exact (impl_frozen_isIpDist _ _ F).
Qed.

Lemma one_frozen_refl (e : t) : frozen e e.
Proof.
  split; [apply impl_frozen_refl|].
  split; [reflexivity|]. intros _. unfold SingleUse.same_query. repeat split.
Qed.

Lemma one_frozen_trans (e1 e2 e3 : t) :
  frozen e1 e2 -> frozen e2 e3 -> frozen e1 e3.
Proof.
  intros F12 F23. pose proof (one_frozen_isIpDist _ _ F12) as HI.
  destruct F12 as (A & Aq & Ai). destruct F23 as (B & Bq & Bi).
  split; [exact (impl_frozen_trans _ _ _ A B)|].
  split; [congruence|].
  intros H. specialize (Ai H). rewrite <- HI in H. specialize (Bi H).
  destruct Ai as (A1 & A2 & A3 & A4 & A5 & A6 & A7 & A8 & A9).
  destruct Bi as (B1 & B2 & B3 & B4 & B5 & B6 & B7 & B8 & B9).
  unfold SingleUse.same_query. repeat split; congruence.
Qed.

Lemma one_step_frozen (K : Kernels) (S : SingleDistances.SingleKernels)
  (e : t) (c : call) :
  frozen e (step K S e c).
Proof.
  destruct c as [vars|cl|i|i|i]; cbn [step].
  - split; [|split; [reflexivity|]].
    + exact (impl_step_frozen K S (Impl e) (SingleUse.SetPruneBound vars)).
    + intros _.
      exact (impl_step_same_query K S (Impl e)
               (SingleUse.SetPruneBound vars)).
  - unfold prepare.
    change (isIpDist (mk (Impl e) (query_data_ e) (Some cl)))
      with (isIpDist e).
    destruct (isIpDist e) eqn:HI; cbn [negb fst Impl query_data_].
    + apply (one_frozen_refl e).
    + split; [|split; [reflexivity|intros H; congruence]].
      exact (impl_step_frozen K S (Impl e)
               (SingleUse.Prepare (vsub (query_data_ e) (centroid cl)))).
  - apply one_frozen_refl.
  - unfold compFastDist.
    pose proof (impl_step_frozen K S (Impl e)
                  (SingleUse.CompFastDist (o_l2norm_of e i)
                     (short_code_single (deref (curr_cluster_ e)) i))) as F.
    pose proof (impl_step_same_query K S (Impl e)
                  (SingleUse.CompFastDist (o_l2norm_of e i)
                     (short_code_single (deref (curr_cluster_ e)) i))) as Q.
    cbn [SingleUse.step] in F, Q.
    destruct (SingleDistances.compFastDist S (Impl e) _ _) as [d impl].
    cbn [snd with_Impl] in *.
    split; [exact F|]. split; [reflexivity|]. intros _. exact Q.
  - unfold compAccurateDist.
    pose proof (impl_step_frozen K S (Impl e)
                  (SingleUse.CompAccurateDist (o_l2norm_of e i)
                     (short_code_single (deref (curr_cluster_ e)) i)
                     (long_code (deref (curr_cluster_ e)) i)
                     (long_factor (deref (curr_cluster_ e)) i))) as F.
    pose proof (impl_step_same_query K S (Impl e)
                  (SingleUse.CompAccurateDist (o_l2norm_of e i)
                     (short_code_single (deref (curr_cluster_ e)) i)
                     (long_code (deref (curr_cluster_ e)) i)
                     (long_factor (deref (curr_cluster_ e)) i))) as Q.
    cbn [SingleUse.step] in F, Q.
    destruct (SingleDistances.compAccurateDist K S (Impl e) _ _ _ _)
      as [d impl].
    cbn [snd with_Impl] in *.
    split; [exact F|]. split; [reflexivity|]. intros _. exact Q.
Qed.

Lemma one_calls_frozen (K : Kernels) (S : SingleDistances.SingleKernels)
  (l : list call) (e : t) :
  frozen e (calls K S e l).
Proof.
  revert e. induction l as [|c l IH]; intros e.
  - apply one_frozen_refl.
  - cbn [calls fold_left].
    exact (one_frozen_trans _ _ _ (one_step_frozen K S e c)
             (IH (step K S e c))).
Qed.

Lemma prepare_after_calls (K : Kernels) (S : SingleDistances.SingleKernels)
  (e : t) (l : list call) (cluster : CAQClusterData) :
  prepare K (calls K S e l) cluster
  = (with_bound_and_metrics (fst (prepare K e cluster)) (calls K S e l),
     snd (prepare K e cluster)).
Proof.
  pose proof (one_calls_frozen K S l e) as F.
  pose proof (one_frozen_isIpDist _ _ F) as HI.
  destruct F as (F & Fq & Fi).
  unfold prepare.
  change (isIpDist (mk (Impl (calls K S e l)) (query_data_ (calls K S e l))
                       (Some cluster)))
    with (isIpDist (calls K S e l)).
  change (isIpDist (mk (Impl e) (query_data_ e) (Some cluster)))
    with (isIpDist e).
  rewrite HI. unfold with_bound_and_metrics, with_Impl.
  destruct (isIpDist e) eqn:HE;
    cbn [negb fst snd Impl query_data_ curr_cluster_];
    apply (f_equal (fun x => (x, _))); rewrite Fq;
    apply (f_equal (fun x => mk x _ _)).
  - exact (impl_same_frozen _ _ F (Fi eq_refl)).
  - exact (impl_prepare_frozen K _ _ _ F).
Qed.

Lemma one_compAccurateDist_reads (K : Kernels)
  (S : SingleDistances.SingleKernels) (e o : t) (vec_idx : nat) :
  fst (compAccurateDist K S (with_bound_and_metrics e o) vec_idx)
  = fst (compAccurateDist K S e vec_idx).
Proof.
  unfold compAccurateDist, with_bound_and_metrics, with_Impl, o_l2norm_of.
  cbn [Impl curr_cluster_ query_data_].
  match goal with
  | |- fst (let '(_, _) := ?a in _) = fst (let '(_, _) := ?b in _) =>
    assert (E : fst a = fst b);
      [apply impl_compAccurateDist_reads | destruct a, b; exact E]
  end.
Qed.

Lemma one_compFastDist_reads (S : SingleDistances.SingleKernels) (e o : t)
  (vec_idx : nat) :
  CaqEstimatorSingleImpl.num_bits_ (Impl e) <> 0%Z ->
  fst (compFastDist S (with_bound_and_metrics e o) vec_idx)
  = fst (compFastDist S e vec_idx).
Proof.
  intros HB.
  unfold compFastDist, with_bound_and_metrics, with_Impl, o_l2norm_of.
  cbn [Impl curr_cluster_ query_data_].
  match goal with
  | |- fst (let '(_, _) := ?a in _) = fst (let '(_, _) := ?b in _) =>
    assert (E : fst a = fst b);
      [apply impl_compFastDist_reads; exact HB | destruct a, b; exact E]
  end.
Qed.

(** X19.  [CaqCluEstimatorSingle::prepare] leaves nothing of earlier clusters
    behind: after any sequence of calls, [prepare(cluster)] ends as it ends
    on the first call (it returns, or throws in inner-product mode) and
    gives the same estimator, except for the prune bound and the counters.
    So the accurate distances, and for B >= 1 the fast estimates, depend on
    the cluster prepared last only. *)
Theorem single_prepare_forgets_earlier_clusters (K : Kernels)
  (S : SingleDistances.SingleKernels) (e : t) (l : list call)
  (cluster : CAQClusterData) (vec_idx : nat) :
  let now := calls K S e l in
  let fresh := fst (prepare K e cluster) in
  prepare K now cluster
  = (with_bound_and_metrics fresh now, snd (prepare K e cluster)) /\
  fst (compAccurateDist K S (fst (prepare K now cluster)) vec_idx)
  = fst (compAccurateDist K S fresh vec_idx) /\
  (CaqEstimatorSingleImpl.num_bits_ (Impl e) <> 0%Z ->
   fst (compFastDist S (fst (prepare K now cluster)) vec_idx)
   = fst (compFastDist S fresh vec_idx)).
Proof.
  cbv zeta. rewrite prepare_after_calls. cbn [fst].
  split; [reflexivity|]. split.
  - apply one_compAccurateDist_reads.
  - intros HB. apply one_compFastDist_reads.
    unfold prepare.
    destruct (negb _);
      cbn [fst Impl CaqEstimatorSingleImpl.prepare
           CaqEstimatorSingleImpl.num_bits_]; exact HB.
Qed.

End ClusterSingleEstimatorUse.
